(** * Court-address reconciliation: a shallow embedding of [main.py]

    The development follows the reconciliation core of [main.py]:
    [is_valid_address], [format_address] with its inner
    [clean_and_normalize], [compare_data] and the planning part of
    [update_discrepancies]; then [clean_address], the two cleaning steps of
    [clean_and_merge_data], the steps of [main] that join them, and the
    function that [search_gov_data] applies to the column [zip].

    Data model.
    - A Python [str] is the list of its code points.  Code points are taken
      below 256 and carried by [ascii], read as Latin-1; the character
      classes below ([isspace], [isdigit], the regex classes [\w] and [\s],
      [lower]) are the Unicode ones restricted to that range.  The module
      [Wide] repeats the normalizer over code points for two characters
      outside that range.
    - A cell of a DataFrame is a [pyval]: [None], [NaN], a [str] or an
      [int].
    - A DataFrame is the set of its column names and the list of its rows
      in index order; a row is a finite map from column names to cells, and
      a cell that a row does not hold reads [NaN].  The columns are of
      dtype object and the index has no duplicate.
    - Code that can raise returns a [res]; loops that update a frame in
      place return the frame as the exception leaves it.
    - The file exports and the messages printed are left out; the database
      is reduced to the list of statements executed. *)

From Stdlib Require Import ZArith Ascii String List Bool Lia DecimalString.
From Stdlib Require Import DecimalFacts DecimalPos DecimalZ.
From stdpp Require Import base decidable gmap strings list.

Open Scope bool_scope.
Open Scope list_scope.

(** ** Characters *)

Module Chr.

Definition code (c : ascii) : N := N_of_ascii c.

Definition between (lo hi : N) (c : ascii) : bool :=
  ((lo <=? code c) && (code c <=? hi))%N.

Definition is_code (n : N) (c : ascii) : bool := (code c =? n)%N.

(** [str.isspace] on one character; the class [\s] of [re] on [str]
    patterns is the same set. *)
Definition isspace (c : ascii) : bool :=
  between 9 13 c || between 28 32 c || is_code 133 c || is_code 160 c.

(** [str.isdigit] on one character: the decimal digits and the
    superscripts two, three and one. *)
Definition isdigit (c : ascii) : bool :=
  between 48 57 c || is_code 178 c || is_code 179 c || is_code 185 c.

Definition isalpha (c : ascii) : bool :=
  between 65 90 c || between 97 122 c
  || is_code 170 c || is_code 181 c || is_code 186 c
  || between 192 214 c || between 216 246 c || between 248 255 c.

Definition isnumeric (c : ascii) : bool :=
  isdigit c || between 188 190 c.

(** The class [\w] of [re]: alphanumeric or the underscore. *)
Definition is_word (c : ascii) : bool :=
  isalpha c || isnumeric c || is_code 95 c.

(** [str.lower] on one character. *)
Definition lower (c : ascii) : ascii :=
  if between 65 90 c || between 192 214 c || between 216 222 c
  then ascii_of_N (code c + 32)
  else c.

(** Equality of two characters under [re.IGNORECASE]. *)
Definition ci_eq (a b : ascii) : bool :=
  bool_decide (lower a = lower b).

End Chr.

(** A [str] literal. *)
Definition lit (s : string) : list ascii := list_ascii_of_string s.

Definition str_eqb (a b : list ascii) : bool :=
  bool_decide (a = b).

(** ** Operations of [str] and [re] *)

Module Str.

(** [s.lower()] *)
Definition lower (s : list ascii) : list ascii := map Chr.lower s.

(** [s.lstrip()] *)
Fixpoint lstrip (s : list ascii) : list ascii :=
  match s with
  | c :: r => if Chr.isspace c then lstrip r else s
  | [] => []
  end.

(** [s.strip()] *)
Definition strip (s : list ascii) : list ascii :=
  rev (lstrip (rev (lstrip s))).

(** [s.split(sep)] for a one-character separator: the current field is
    accumulated in [cur]; the result always has one field more than [s]
    has separators. *)
Fixpoint split_from (sep : ascii) (cur s : list ascii) : list (list ascii) :=
  match s with
  | [] => [cur]
  | c :: r =>
      if bool_decide (c = sep) then cur :: split_from sep [] r
      else split_from sep (cur ++ [c]) r
  end.

Definition split (sep : ascii) (s : list ascii) : list (list ascii) :=
  split_from sep [] s.

(** [sep.join(parts)] *)
Fixpoint join (sep : list ascii) (parts : list (list ascii)) : list ascii :=
  match parts with
  | [] => []
  | [p] => p
  | p :: ps => p ++ sep ++ join sep ps
  end.

(** [s[:n]] for [n >= 0] *)
Definition prefix (n : nat) (s : list ascii) : list ascii := firstn n s.

(** [s.replace(old, new)] for one-character [old] and [new] *)
Definition replace (old new : ascii) (s : list ascii) : list ascii :=
  map (fun c => if bool_decide (c = old) then new else c) s.

(** [s.replace(old, "")] for a one-character [old] *)
Definition remove (old : ascii) (s : list ascii) : list ascii :=
  List.filter (fun c => negb (bool_decide (c = old))) s.

End Str.

Module Re.

Definition word_opt (c : option ascii) : bool :=
  match c with Some x => Chr.is_word x | None => false end.

(** The assertion [\b] between a previous and a next character, either of
    which is absent at an end of the string. *)
Definition boundary (prev next : option ascii) : bool :=
  xorb (word_opt prev) (word_opt next).

(** The literal [pat] read case-insensitively as a prefix of [s]; the
    remainder of [s] is returned on success. *)
Fixpoint match_lit (pat s : list ascii) : option (list ascii) :=
  match pat with
  | [] => Some s
  | p :: pat' =>
      match s with
      | c :: s' => if Chr.ci_eq c p then match_lit pat' s' else None
      | [] => None
      end
  end.

(** Whether [\bpat\b] (flag [IGNORECASE]) matches at the head of [s], the
    character before the head being [prev]. *)
Definition matches_at (pat : list ascii) (prev : option ascii)
    (s : list ascii) : bool :=
  boundary prev (head s) &&
  match match_lit pat s with
  | Some rest => boundary (last (firstn (length pat) s)) (head rest)
  | None => false
  end.

(** [re.sub(r'\bpat\b', repl, s, flags=re.IGNORECASE)] for a non-empty
    literal [pat].  The scan goes left to right; [skip] counts the
    characters of a match still to be consumed, and [prev] is the
    character before the head of [s] in the subject. *)
Fixpoint sub_from (pat repl : list ascii) (skip : nat) (prev : option ascii)
    (s : list ascii) : list ascii :=
  match s with
  | [] => []
  | c :: r =>
      match skip with
      | S k => sub_from pat repl k (Some c) r
      | O =>
          if matches_at pat prev s
          then repl ++ sub_from pat repl (length pat - 1) (Some c) r
          else c :: sub_from pat repl 0 (Some c) r
      end
  end.

Definition sub_word (pat repl s : list ascii) : list ascii :=
  sub_from pat repl 0 None s.

(** [re.sub(r"[,.]", " ", s)] *)
Definition sub_punct (s : list ascii) : list ascii :=
  map (fun c => if Chr.is_code 44 c || Chr.is_code 46 c
                then " "%char else c) s.

(** [re.sub(r"\s+", " ", s)]: [in_run] tells that the previous character
    was whitespace, whose run has already been replaced. *)
Fixpoint sub_spaces_from (in_run : bool) (s : list ascii) : list ascii :=
  match s with
  | [] => []
  | c :: r =>
      if Chr.isspace c
      then (if in_run then [] else [" "%char]) ++ sub_spaces_from true r
      else c :: sub_spaces_from false r
  end.

Definition sub_spaces (s : list ascii) : list ascii :=
  sub_spaces_from false s.

End Re.

(** ** Python values and exceptions *)

Inductive pyval :=
  | VNone
  | VNaN
  | VStr (s : list ascii)
  | VInt (n : Z).

#[global] Instance pyval_eq_dec : EqDecision pyval.
Proof. solve_decision. Defined.

Inductive exn := IndexError | KeyError | AttributeError.

Inductive res (A : Type) :=
  | Ok (a : A)
  | Raise (e : exn).
Arguments Ok {A} a.
Arguments Raise {A} e.

Definition bind {A B} (m : res A) (k : A -> res B) : res B :=
  match m with Ok a => k a | Raise e => Raise e end.

Notation "'let*' x ':=' m 'in' k" := (bind m (fun x => k))
  (at level 10, x name, m at level 100, k at level 200).

Module Py.

(** [bool(v)] *)
Definition truthy (v : pyval) : bool :=
  match v with
  | VNone => false
  | VNaN => true
  | VStr s => negb (str_eqb s [])
  | VInt n => negb (n =? 0)%Z
  end.

(** [pd.isnull(v)] *)
Definition isnull (v : pyval) : bool :=
  match v with VNone | VNaN => true | _ => false end.

(** [isinstance(v, str)] *)
Definition is_str (v : pyval) : bool :=
  match v with VStr _ => true | _ => false end.

(** [str(v)] *)
Definition str (v : pyval) : list ascii :=
  match v with
  | VNone => lit "None"
  | VNaN => lit "nan"
  | VStr s => s
  | VInt n => lit (NilZero.string_of_int (Z.to_int n))
  end.

(** One element of a comparison [series == v]. *)
Definition eq_cell (a b : pyval) : bool :=
  match a, b with
  | VStr x, VStr y => str_eqb x y
  | VInt x, VInt y => (x =? y)%Z
  | _, _ => false
  end.

(** One element of [series.str.lower()] on a column of dtype object, once
    the accessor [.str] has accepted the series (see [str_accessor]): a
    value that is not a string gives [NaN]. *)
Definition str_lower_cell (v : pyval) : pyval :=
  match v with VStr s => VStr (Str.lower s) | _ => VNaN end.

End Py.

(** ** DataFrames *)

Record frame := Frame {
  columns : gset string;
  rows : list (gmap string pyval)
}.

Module Df.

(** The cell of a row under a column of the frame; a hole reads [NaN]. *)
Definition cell (r : gmap string pyval) (c : string) : pyval :=
  default VNaN (r !! c).

(** [row.get(c, d)] *)
Definition get (cols : gset string) (r : gmap string pyval) (c : string)
    (d : pyval) : pyval :=
  if decide (c ∈ cols) then cell r c else d.

(** [row[c]] *)
Definition item (cols : gset string) (r : gmap string pyval) (c : string)
    : res pyval :=
  if decide (c ∈ cols) then Ok (cell r c) else Raise KeyError.

(** [df[c]] *)
Definition column (df : frame) (c : string) : res (list pyval) :=
  if decide (c ∈ columns df) then Ok (map (fun r => cell r c) (rows df))
  else Raise KeyError.

(** [df[c] = df.apply(f, axis=1)], and [df[c] = v] with a constant [f]. *)
Definition assign (c : string) (f : gmap string pyval -> pyval) (df : frame)
    : frame :=
  Frame ({[ c ]} ∪ columns df) (map (fun r => <[ c := f r ]> r) (rows df)).

End Df.

(** ** Address validation and normalisation *)

(** [is_valid_address(address)].  The subscript [normalized_address[0]]
    raises [IndexError] on an empty string. *)
Definition is_valid_address (address : pyval) : res bool :=
  if negb (Py.truthy address) || negb (Py.is_str address) then Ok false
  else
    let normalized_address := Str.strip (Py.str address) in
    match normalized_address with
    | [] => Raise IndexError
    | c0 :: _ =>
        if negb (Chr.isdigit c0) then Ok false
        else if str_eqb normalized_address (lit "N/A")
                || str_eqb normalized_address (lit "Unknown")
                || str_eqb normalized_address (lit "None")
        then Ok false
        else Ok true
    end.

(** The dictionary [replacements] of [format_address], in insertion order;
    each key [r'\bX\b'] is kept as its literal [X]. *)
Definition replacements : list (list ascii * list ascii) :=
  [ (lit "SW", lit "Southwest");
    (lit "NE", lit "Northeast");
    (lit "NW", lit "Northwest");
    (lit "SE", lit "Southeast");
    (lit "N", lit "North");
    (lit "S", lit "South");
    (lit "E", lit "East");
    (lit "W", lit "West");
    (lit "St", lit "Street");
    (lit "Ave", lit "Avenue");
    (lit "Rd", lit "Road");
    (lit "Blvd", lit "Boulevard");
    (lit "Dr", lit "Drive");
    (lit "Ln", lit "Lane");
    (lit "Ct", lit "Court");
    (lit "Pl", lit "Place");
    (lit "Terr", lit "Terrace");
    (lit "Pkwy", lit "Parkway");
    (lit "Hwy", lit "Highway");
    (lit "Ste", lit "Suite");
    (lit "Fl", lit "Floor");
    (lit "Bldg", lit "Building");
    (lit "Apt", lit "Apartment");
    (lit "Unit", lit "Unit");
    (lit "#", lit "Unit") ].

(** The loop [for pattern, replacement in replacements.items()]. *)
Definition apply_replacements (table : list (list ascii * list ascii))
    (s : list ascii) : list ascii :=
  fold_left (fun acc pr => Re.sub_word (fst pr) (snd pr) acc) table s.

(** The inner function [clean_and_normalize(part)]. *)
Definition clean_and_normalize (part : pyval) : list ascii :=
  if negb (Py.truthy part) || Py.isnull part then []
  else
    let cleaned_part := Str.strip (Re.sub_punct (Py.str part)) in
    let cleaned_part := apply_replacements replacements cleaned_part in
    Str.lower (Re.sub_spaces cleaned_part).

(** [format_address(address1, address2, city, state, zipcode)] *)
Definition format_address (address1 address2 city state zipcode : pyval)
    : list ascii * list ascii :=
  if negb (Py.truthy address1) || negb (Py.truthy city)
     || negb (Py.truthy state) || negb (Py.truthy zipcode)
  then ([], [])
  else
    let address1 := VStr (clean_and_normalize address1) in
    let address2 :=
      if Py.truthy address2 then VStr (clean_and_normalize address2)
      else VNone in
    let city := VStr (clean_and_normalize city) in
    let state := VStr (clean_and_normalize state) in
    let zipcode := VStr (clean_and_normalize zipcode) in
    let address_parts := [address1; address2; city; state; zipcode] in
    let formatted_address :=
      Str.join (lit ", ") (map Py.str (List.filter Py.truthy address_parts)) in
    (formatted_address, formatted_address).

(** ** The matching pass *)

Module Col.
Definition Full_Address : string := "Full_Address".
Definition Full_Address_With_BuildingName : string :=
  "Full_Address_With_BuildingName".
Definition Matched_in : string := "Matched_in".
Definition Mismatch_Address : string := "Mismatch_Address".
Definition Address_to_update : string := "Address_to_update".
Definition Phone_to_update : string := "Phone_to_update".
End Col.

Definition empty_str : pyval := VStr [].

(** The lambda of step 1 of [compare_data], before the subscript [[0]]. *)
Definition fed_format (cols : gset string) (row : gmap string pyval)
    : list ascii * list ascii :=
  format_address (Df.get cols row "address1" empty_str) VNone
    (Df.get cols row "city" empty_str)
    (Df.get cols row "state" empty_str)
    (Df.get cols row "zipcode" empty_str).

(** [str(row.get('BuildingZip', ''))[:5]] *)
Definition gov_zip (cols : gset string) (row : gmap string pyval) : pyval :=
  VStr (Str.prefix 5 (Py.str (Df.get cols row "BuildingZip" empty_str))).

(** The first lambda of step 2 of [compare_data]. *)
Definition gov_format (cols : gset string) (row : gmap string pyval)
    : list ascii * list ascii :=
  format_address (Df.get cols row "BuildingAddress" empty_str) VNone
    (Df.get cols row "BuildingCity" empty_str)
    (Df.get cols row "BuildingState" empty_str)
    (gov_zip cols row).

(** The second lambda of step 2 of [compare_data]. *)
Definition gov_format_with_name (cols : gset string)
    (row : gmap string pyval) : list ascii * list ascii :=
  format_address (Df.get cols row "BuildingAddress" empty_str)
    (Df.get cols row "BuildingName" VNone)
    (Df.get cols row "BuildingCity" empty_str)
    (Df.get cols row "BuildingState" empty_str)
    (gov_zip cols row).

(** Steps 1 and 3 on the federal frame. *)
Definition prepare_federal (federal_data : frame) : frame :=
  let d := Df.assign Col.Full_Address
             (fun row => VStr (fst (fed_format (columns federal_data) row)))
             federal_data in
  let d := Df.assign Col.Matched_in (fun _ => VStr (lit "Not Found")) d in
  let d := Df.assign Col.Mismatch_Address
             (fun _ => VStr (lit "Manual Research")) d in
  let d := Df.assign Col.Address_to_update
             (fun _ => VStr (lit "Human review needed")) d in
  Df.assign Col.Phone_to_update (fun _ => empty_str) d.

(** Step 2 on the government frame. *)
Definition prepare_gov (gov_data : frame) : frame :=
  let d := Df.assign Col.Full_Address
             (fun row => VStr (fst (gov_format (columns gov_data) row)))
             gov_data in
  Df.assign Col.Full_Address_With_BuildingName
    (fun row => VStr (snd (gov_format_with_name (columns d) row))) d.

(** [a == b] on two scalars. *)
Definition py_eq (a b : pyval) : bool :=
  match a, b with
  | VNaN, _ | _, VNaN => false
  | _, _ => bool_decide (a = b)
  end.

(** The f-string [f"Fed: {fed_address} | Gov: {gov_address}"]. *)
Definition mismatch_text (fed_address gov_address : pyval) : list ascii :=
  lit "Fed: " ++ Py.str fed_address ++ lit " | Gov: " ++ Py.str gov_address.

(** The body shared by the two branches of the loop of step 4 once a
    candidate [gov_row] is chosen; [label] is ['Gov (Bankruptcy Court)'] in
    the first branch and ['Gov (District Court)'] in the second.  The
    result is the federal row after the writes through [.loc]. *)
Definition judge (label : list ascii) (gcols : gset string)
    (gov_row : gmap string pyval) (fed_address : pyval)
    (federal_row : gmap string pyval) : res (gmap string pyval) :=
  let* gov_address := Df.item gcols gov_row Col.Full_Address in
  let* gov_full_address_with_name :=
    Df.item gcols gov_row Col.Full_Address_With_BuildingName in
  let* building_address := Df.item gcols gov_row "BuildingAddress" in
  let* valid := is_valid_address building_address in
  if valid && py_eq fed_address gov_address then
    Ok (<[ Col.Address_to_update := VStr (lit "No update needed") ]>
        (<[ Col.Mismatch_Address := VStr (lit "No mismatch") ]>
         (<[ Col.Matched_in := VStr label ]> federal_row)))
  else
    Ok (<[ Col.Phone_to_update := Df.get gcols gov_row "Phone" empty_str ]>
        (<[ Col.Address_to_update := gov_full_address_with_name ]>
         (<[ Col.Mismatch_Address :=
               VStr (mismatch_text fed_address gov_address) ]>
          (<[ Col.Matched_in := VStr label ]> federal_row)))).

(** The rows of [df] whose cell under [c], lowered by [.str.lower()] when
    [lowered] is set, equals [v]: [df[df[c] == v]]. *)
Definition select (lowered : bool) (c : string) (v : pyval)
    (rs : list (gmap string pyval)) : list (gmap string pyval) :=
  List.filter
    (fun r => Py.eq_cell
                (if lowered then Py.str_lower_cell (Df.cell r c)
                 else Df.cell r c) v) rs.

Definition has_column (cols : gset string) (c : string) : res unit :=
  if decide (c ∈ cols) then Ok tt else Raise KeyError.

(** The accessor [series.str] on the cells of a column of dtype object.
    pandas infers the kind of the values, the missing ones apart, and
    raises [AttributeError] ("Can only use .str accessor with string
    values") unless the kind is string, mixed or empty: the series passes
    when it holds a string, and when it is empty or holds missing values
    only; it is refused when it holds no string and a value that is not
    missing.  The column itself is of dtype object, as it is when one of
    its cells holds a string. *)
Definition str_accessor (cells : list pyval) : res unit :=
  if existsb Py.is_str cells || forallb Py.isnull cells then Ok tt
  else Raise AttributeError.

(** The cells of the rows [rs] under the column [c]. *)
Definition cells_of (c : string) (rs : list (gmap string pyval))
    : list pyval :=
  map (fun r => Df.cell r c) rs.

(** One iteration of the loop of step 4: the federal row after it. *)
Definition compare_row (gov_data : frame) (fcols : gset string)
    (federal_row : gmap string pyval) : res (gmap string pyval) :=
  let key := Df.get fcols federal_row "Key" empty_str in
  let* fed_address := Df.item fcols federal_row Col.Full_Address in
  let* _ := has_column (columns gov_data) "Key" in
  let gov_matches := select false "Key" key (rows gov_data) in
  let* _ := has_column (columns gov_data) "CourtType" in
  let* _ := str_accessor (cells_of "CourtType" gov_matches) in
  let gov_match_bankruptcy :=
    select true "CourtType" (VStr (lit "bankruptcy court")) gov_matches in
  match gov_match_bankruptcy with
  | gov_row :: _ =>
      judge (lit "Gov (Bankruptcy Court)") (columns gov_data) gov_row
        fed_address federal_row
  | [] =>
      let* _ := str_accessor (cells_of "CourtType" gov_matches) in
      let gov_match_district :=
        select true "CourtType" (VStr (lit "district court")) gov_matches in
      match gov_match_district with
      | gov_row :: _ =>
          judge (lit "Gov (District Court)") (columns gov_data) gov_row
            fed_address federal_row
      | [] => Ok federal_row
      end
  end.

(** The loop of step 4.  The frame is updated in place: when an iteration
    raises, the rows already visited keep their verdicts and the others
    are as they were. *)
Fixpoint compare_rows (gov_data : frame) (fcols : gset string)
    (todo : list (gmap string pyval))
    : list (gmap string pyval) * res unit :=
  match todo with
  | [] => ([], Ok tt)
  | federal_row :: rest =>
      match compare_row gov_data fcols federal_row with
      | Raise e => (todo, Raise e)
      | Ok row' =>
          let '(rest', outcome) := compare_rows gov_data fcols rest in
          (row' :: rest', outcome)
      end
  end.

(** [compare_data(federal_data, gov_data, dated_directory)], without the
    export of step 5: the federal frame as the call leaves it, and whether
    the call returned or raised. *)
Definition compare_data (federal_data gov_data : frame) : frame * res unit :=
  let fed := prepare_federal federal_data in
  let gov := prepare_gov gov_data in
  let '(rows', outcome) := compare_rows gov (columns fed) (rows fed) in
  (Frame (columns fed) rows', outcome).

(** ** The update planner *)

Record instruction := Instruction {
  p_address1 : pyval;
  p_address2 : pyval;
  p_filingcity : pyval;
  p_city : pyval;
  p_state : pyval;
  p_zipcode : pyval;
  p_phone : pyval;
  p_courtid : pyval
}.

(** What one iteration of the loop of [update_discrepancies] does: it
    executes the [UPDATE] with a parameter dictionary, or prints the skip
    message with the court id. *)
Inductive action :=
  | Execute (params : instruction)
  | Skipped (court_id : pyval).

Definition part (address_parts : list (list ascii)) (i : nat) : pyval :=
  VStr (nth i address_parts []).

(** The body of the loop of [update_discrepancies]. *)
Definition plan_row (cols : gset string) (row : gmap string pyval)
    : res action :=
  let* court_id := Df.item cols row "courtid" in
  let* address_to_update := Df.item cols row Col.Address_to_update in
  let* phone_to_update := Df.item cols row Col.Phone_to_update in
  match address_to_update with
  | VStr s =>
      let address_parts := map Str.strip (Str.split ","%char s) in
      if (length address_parts =? 4)%nat then
        Ok (Execute (Instruction (part address_parts 0) VNone
                       (part address_parts 1) (part address_parts 1)
                       (part address_parts 2) (part address_parts 3)
                       phone_to_update court_id))
      else if (5 <=? length address_parts)%nat then
        Ok (Execute (Instruction (part address_parts 0)
                       (part address_parts 1)
                       (part address_parts 2) (part address_parts 2)
                       (part address_parts 3) (part address_parts 4)
                       phone_to_update court_id))
      else Ok (Skipped court_id)
  | _ => Raise AttributeError
  end.

(** [~comparison_results['Mismatch_Address'].isin([...])] on one row. *)
Definition needs_update (row : gmap string pyval) : bool :=
  let m := Df.cell row Col.Mismatch_Address in
  negb (Py.eq_cell m (VStr (lit "No mismatch"))
        || Py.eq_cell m (VStr (lit "Manual Research"))).

Fixpoint plan_rows (cols : gset string) (todo : list (gmap string pyval))
    : list action * res unit :=
  match todo with
  | [] => ([], Ok tt)
  | row :: rest =>
      match plan_row cols row with
      | Raise e => ([], Raise e)
      | Ok a =>
          let '(log, outcome) := plan_rows cols rest in
          (a :: log, outcome)
      end
  end.

(** [update_discrepancies(connection, comparison_results)] up to the
    database: the statements executed and the skips printed, in order, and
    whether the [try] block reached [commit] ([Ok]) or an exception sent it
    to [rollback]. *)
Definition update_discrepancies (comparison_results : frame)
    : list action * res unit :=
  match has_column (columns comparison_results) Col.Mismatch_Address with
  | Raise e => ([], Raise e)
  | Ok _ =>
      let discrepancies :=
        List.filter needs_update (rows comparison_results) in
      plan_rows (columns comparison_results) discrepancies
  end.

(** ** The unused cleaner *)

(** [clean_address(address)] *)
Definition clean_address (address : pyval) : list ascii :=
  if Py.isnull address then []
  else
    let cleaned_address :=
      Str.strip (Str.remove "."%char
                   (Str.replace ","%char " "%char (Py.str address))) in
    Str.lower (Re.sub_spaces cleaned_address).

(** ** Cleaning, keys and branches *)

(** The lambda of the two [Key] columns of [clean_and_merge_data]:
    [f"{row[city].replace(' ', '_')}_{row[state]}".lower()].  The method
    [replace] exists on strings only. *)
Definition key_of (city_col state_col : string) (cols : gset string)
    (row : gmap string pyval) : res pyval :=
  let* city := Df.item cols row city_col in
  match city with
  | VStr c =>
      let* state := Df.item cols row state_col in
      Ok (VStr (Str.lower (Str.replace " "%char "_"%char c
                           ++ lit "_" ++ Py.str state)))
  | _ => Raise AttributeError
  end.

(** The lambda of the column [Desc]:
    ['Branch' if row['filingcity'] != row['city'] else 'Main']. *)
Definition desc_of (cols : gset string) (row : gmap string pyval)
    : res pyval :=
  let* filingcity := Df.item cols row "filingcity" in
  let* city := Df.item cols row "city" in
  Ok (VStr (if negb (py_eq filingcity city) then lit "Branch"
            else lit "Main")).

(** [df.apply(f, axis=1)] for an [f] that can raise: the first row on
    which [f] raises ends the call. *)
Fixpoint apply_rows (f : gmap string pyval -> res pyval)
    (rs : list (gmap string pyval)) : res (list pyval) :=
  match rs with
  | [] => Ok []
  | r :: rest =>
      let* v := f r in
      let* vs := apply_rows f rest in
      Ok (v :: vs)
  end.

(** [df[c] = values], the values being in the order of the rows. *)
Definition set_column (c : string) (values : list pyval) (df : frame)
    : frame :=
  Frame ({[ c ]} ∪ columns df)
    (zip_with (fun r v => <[ c := v ]> r) (rows df) values).

(** [df[c] = df.apply(f, axis=1)], for a frame that has a row: on a frame
    without rows pandas does not call [f] row by row, and the properties
    below are stated for frames with a row. *)
Definition assign_apply (c : string)
    (f : gset string -> gmap string pyval -> res pyval) (df : frame)
    : res frame :=
  let* values := apply_rows (f (columns df)) (rows df) in
  Ok (set_column c values df).

(** One element of [series.isin(values)]. *)
Definition isin (values : list (list ascii)) (v : pyval) : bool :=
  existsb (fun x => Py.eq_cell v (VStr x)) values.

(** Two cells count as the same for [drop_duplicates]: missing values are
    the same, and other values are when they are equal. *)
Definition dup_eq (a b : pyval) : bool :=
  (Py.isnull a && Py.isnull b) || Py.eq_cell a b.

Definition same_on (subset : list string) (r r' : gmap string pyval)
    : bool :=
  forallb (fun c => dup_eq (Df.cell r c) (Df.cell r' c)) subset.

(** The rows kept by [drop_duplicates]: a row is dropped when a row kept
    before it is the same on [subset]. *)
Fixpoint drop_duplicates_from (subset : list string)
    (seen rs : list (gmap string pyval)) : list (gmap string pyval) :=
  match rs with
  | [] => []
  | r :: rest =>
      if existsb (same_on subset r) seen
      then drop_duplicates_from subset seen rest
      else r :: drop_duplicates_from subset (r :: seen) rest
  end.

(** [df.drop_duplicates(subset=subset)] *)
Definition drop_duplicates (subset : list string) (df : frame) : res frame :=
  if forallb (fun c => bool_decide (c ∈ columns df)) subset
  then Ok (Frame (columns df) (drop_duplicates_from subset [] (rows df)))
  else Raise KeyError.

(** Step 1 of [clean_and_merge_data], on the government frame. *)
Definition clean_gov (deduplicate_columns : list string)
    (exclude_values : list (list ascii)) (gov_data : frame) : res frame :=
  let* _ := has_column (columns gov_data) "CourtType" in
  let kept :=
    Frame (columns gov_data)
      (List.filter (fun r => negb (isin exclude_values
                                     (Df.cell r "CourtType")))
         (rows gov_data)) in
  let* deduplicated := drop_duplicates deduplicate_columns kept in
  assign_apply "Key" (key_of "BuildingCity" "BuildingState") deduplicated.

(** Step 2 of [clean_and_merge_data], on the federal frame. *)
Definition process_federal (federal_data : frame) : res frame :=
  let* with_desc := assign_apply "Desc" desc_of federal_data in
  assign_apply "Key" (key_of "filingcity" "state") with_desc.

(** [clean_and_merge_data(federal_data, gov_data, deduplicate_columns,
    exclude_values, dated_directory)], without the files it writes and
    without the merged frame, which [main] does not read: the federal and
    the government frame it returns. *)
Definition clean_and_merge_data (federal_data gov_data : frame)
    (deduplicate_columns : list string)
    (exclude_values : list (list ascii)) : res (frame * frame) :=
  let* gov := clean_gov deduplicate_columns exclude_values gov_data in
  let* federal := process_federal federal_data in
  Ok (federal, gov).

(** The columns and set of values that [main] passes. *)
Definition main_deduplicate_columns : list string :=
  ["Address"; "BuildingAddress"; "BuildingCity"; "BuildingName";
   "BuildingState"; "BuildingZip"]%string.

Definition main_exclude_values : list (list ascii) :=
  [lit "Appeals Court"; lit "Federal Defenders";
   lit "Probation/Pretrial Services"].

(** Steps 3 to 6 of [main] on the two frames fetched: the statements and
    skips of [update_discrepancies], or the exception of an earlier
    step. *)
Definition reconcile (federal_data gov_data : frame)
    : res (list action * res unit) :=
  let* cleaned :=
    clean_and_merge_data federal_data gov_data main_deduplicate_columns
      main_exclude_values in
  let '(results, outcome) := compare_data (fst cleaned) (snd cleaned) in
  let* _ := outcome in
  Ok (update_discrepancies results).

(** ** Views of the matching pass and of the planner

    What the steps of [compare_data] leave in a row, and the planner as
    the specification words it; the properties are stated with them. *)

(** The join that [format_address] is documented to build, on components
    given in order: each is normalised and the empty ones are dropped. *)
Definition joined (components : list pyval) : list ascii :=
  Str.join (lit ", ")
    (List.filter (fun p => negb (str_eqb p []))
       (map clean_and_normalize components)).

(** The federal row as steps 1 and 3 leave it. *)
Definition prepared_federal_row (cols : gset string)
    (row : gmap string pyval) : gmap string pyval :=
  <[ Col.Phone_to_update := empty_str ]>
  (<[ Col.Address_to_update := VStr (lit "Human review needed") ]>
   (<[ Col.Mismatch_Address := VStr (lit "Manual Research") ]>
    (<[ Col.Matched_in := VStr (lit "Not Found") ]>
     (<[ Col.Full_Address := VStr (fst (fed_format cols row)) ]> row)))).

(** The government row as step 2 leaves it. *)
Definition prepared_gov_row (cols : gset string)
    (row : gmap string pyval) : gmap string pyval :=
  <[ Col.Full_Address_With_BuildingName :=
       VStr (snd (gov_format_with_name cols row)) ]>
  (<[ Col.Full_Address := VStr (fst (gov_format cols row)) ]> row).

(** The two rows a call of [judge] can leave. *)
Definition verdict_match (label : list ascii) (r : gmap string pyval)
    : gmap string pyval :=
  <[ Col.Address_to_update := VStr (lit "No update needed") ]>
  (<[ Col.Mismatch_Address := VStr (lit "No mismatch") ]>
   (<[ Col.Matched_in := VStr label ]> r)).

Definition verdict_mismatch (label : list ascii) (gcols : gset string)
    (g : gmap string pyval) (fed_address : pyval) (r : gmap string pyval)
    : gmap string pyval :=
  <[ Col.Phone_to_update := Df.get gcols g "Phone" empty_str ]>
  (<[ Col.Address_to_update := Df.cell g Col.Full_Address_With_BuildingName ]>
   (<[ Col.Mismatch_Address :=
         VStr (mismatch_text fed_address (Df.cell g Col.Full_Address)) ]>
    (<[ Col.Matched_in := VStr label ]> r))).

(** The test that the two filters of the loop body put on a government
    row: its key is [key] and its court type, lowered, is [court]. *)
Definition is_candidate (court : list ascii) (key : pyval)
    (g : gmap string pyval) : bool :=
  Py.eq_cell (Df.cell g "Key") key
  && Py.eq_cell (Py.str_lower_cell (Df.cell g "CourtType")) (VStr court).

(** The update planner as the specification words it: the address to
    update is split on commas and each part trimmed; exactly four parts
    give an instruction without [address2], five or more give one whose
    [address2] is the second part, and fewer give no instruction but a
    report of the court id. *)
Definition planned_action (row : gmap string pyval) : action :=
  let court_id := Df.cell row "courtid" in
  let phone := Df.cell row Col.Phone_to_update in
  match Df.cell row Col.Address_to_update with
  | VStr s =>
      match map Str.strip (Str.split ","%char s) with
      | [a1; city; state; zip] =>
          Execute (Instruction (VStr a1) VNone (VStr city) (VStr city)
                     (VStr state) (VStr zip) phone court_id)
      | a1 :: a2 :: city :: state :: zip :: _ =>
          Execute (Instruction (VStr a1) (VStr a2) (VStr city) (VStr city)
                     (VStr state) (VStr zip) phone court_id)
      | _ => Skipped court_id
      end
  | _ => Skipped court_id
  end.

(** The columns that [compare_data] writes on the federal frame. *)
Definition derived_columns : list string :=
  [Col.Full_Address; Col.Matched_in; Col.Mismatch_Address;
   Col.Address_to_update; Col.Phone_to_update].

(** [r'] holds what [r] holds under every column that is not derived. *)
Definition same_outside (r r' : gmap string pyval) : Prop :=
  forall c, ~ In c derived_columns -> r' !! c = r !! c.

(** Two government rows that agree under every column but [BuildingZip]. *)
Definition same_but_zip (g g' : gmap string pyval) : Prop :=
  forall c : string, c <> "BuildingZip"%string -> g !! c = g' !! c.

(** ** Sample frames *)

Definition mkrow (l : list (string * pyval)) : gmap string pyval :=
  list_to_map l.

Definition federal_columns : gset string :=
  list_to_set ["courtid"; "address1"; "city"; "state"; "zipcode";
               "filingcity"; "phone"; "Key"; "Desc"]%string.

Definition gov_columns : gset string :=
  list_to_set ["Address"; "BuildingAddress"; "BuildingCity";
               "BuildingState"; "BuildingZip"; "BuildingName";
               "CourtType"; "Phone"; "Key"]%string.

Definition federal_row1 : gmap string pyval :=
  mkrow [("courtid", VInt 1); ("address1", VStr (lit "123 Oak St"));
         ("city", VStr (lit "Springfield")); ("state", VStr (lit "IL"));
         ("zipcode", VStr (lit "62701"));
         ("filingcity", VStr (lit "Springfield"));
         ("phone", VStr (lit "555-0100"));
         ("Key", VStr (lit "springfield_il"));
         ("Desc", VStr (lit "Main"))]%string.

Definition gov_row_of (address name zip court phone : list ascii)
    : gmap string pyval :=
  mkrow [("Address", VStr address); ("BuildingAddress", VStr address);
         ("BuildingCity", VStr (lit "Springfield"));
         ("BuildingState", VStr (lit "IL"));
         ("BuildingZip", VStr zip); ("BuildingName", VStr name);
         ("CourtType", VStr court); ("Phone", VStr phone);
         ("Key", VStr (lit "springfield_il"))]%string.

Definition sample_federal : frame := Frame federal_columns [federal_row1].

Definition sample_gov (rs : list (gmap string pyval)) : frame :=
  Frame gov_columns rs.

Definition first_row (d : frame) : gmap string pyval :=
  hd ∅ (rows d).

(** A government row whose building address is a single blank. *)
Definition blank_address_gov : frame :=
  sample_gov [gov_row_of (lit " ") (lit "Federal Building") (lit "62701")
                (lit "District Court") (lit "555-0199")].

(** A government row that leaves [BuildingAddress] empty. *)
Definition empty_address_gov : frame :=
  sample_gov [gov_row_of [] (lit "Federal Building") (lit "62701")
                (lit "District Court") (lit "555-0199")].

(** A government row at another address than [federal_row1]. *)
Definition moved_gov : frame :=
  sample_gov [gov_row_of (lit "9 Elm Rd") (lit "Federal Building")
                (lit "62701") (lit "District Court") (lit "555-0199")].

(** A government frame with no bankruptcy or district court. *)
Definition other_court_gov : frame :=
  sample_gov [gov_row_of (lit "9 Elm Rd") (lit "Federal Building")
                (lit "62701") (lit "Tax Court") (lit "555-0199")].

(** A government row under the key of [federal_row1] whose court type is
    a number, followed by a district court under another key. *)
Definition number_court_gov : frame :=
  sample_gov
    [ <[ "CourtType" := VInt 5 ]>
        (gov_row_of (lit "9 Elm Rd") (lit "Federal Building")
           (lit "62701") (lit "District Court") (lit "555-0199"));
      <[ "Key" := VStr (lit "peoria_il") ]>
        (gov_row_of (lit "77 Pine Ave") (lit "Annex")
           (lit "61602") (lit "District Court") (lit "555-0133")) ].


(** A district-court row followed by two bankruptcy-court rows, all under
    the key of [federal_row1]. *)
Definition district_first_gov : frame :=
  sample_gov
    [ gov_row_of (lit "123 Oak Street") (lit "Courthouse") (lit "62701")
        (lit "District Court") (lit "555-0111");
      gov_row_of (lit "9 Elm Rd") (lit "Federal Building") (lit "62701")
        (lit "BANKRUPTCY Court") (lit "555-0122");
      gov_row_of (lit "77 Pine Ave") (lit "Annex") (lit "62701")
        (lit "Bankruptcy Court") (lit "555-0133") ].

Definition result_row (court_id : Z) (mismatch address phone : list ascii)
    : gmap string pyval :=
  mkrow [("courtid", VInt court_id);
         ("Mismatch_Address", VStr mismatch);
         ("Address_to_update", VStr address);
         ("Phone_to_update", VStr phone)]%string.

(** A comparison result with a four-part, a five-part and a two-part
    address to update, and two rows that need no update. *)
Definition sample_results : frame :=
  Frame (list_to_set ["courtid"; "Mismatch_Address"; "Address_to_update";
                      "Phone_to_update"]%string)
    [ result_row 1 (lit "Fed: a | Gov: b")
        (lit "1 Main St, Springfield, IL, 62701") (lit "555-0101");
      result_row 2 (lit "No mismatch") (lit "No update needed") [];
      result_row 3 (lit "Fed: c | Gov: d")
        (lit "1 Main St, Suite 2, Springfield, IL, 62701") (lit "555-0103");
      result_row 4 (lit "Manual Research") (lit "Human review needed") [];
      result_row 5 (lit "Fed: e | Gov: f") (lit "Springfield, IL") [];
      result_row 6 (lit "Fed: g | Gov: h")
        (lit " 8 Elm Rd ,Annex, Wing B , Peoria, IL, 61602") [] ].

(** ** Words of a subject string

    The patterns of [replacements] are enclosed in [\b]; what they match is
    told by the maximal runs of [\w] characters of the subject. *)

Definition all_word (s : list ascii) : bool := forallb Chr.is_word s.

(** Equality of two strings under [re.IGNORECASE]. *)
Fixpoint ci_eqb (a b : list ascii) : bool :=
  match a, b with
  | [], [] => true
  | c :: a', p :: b' => Chr.ci_eq c p && ci_eqb a' b'
  | _, _ => false
  end.

(** A token is a maximal run of characters that are all in [\w], or all
    outside; the flag tells which. *)
Definition token : Type := bool * list ascii.

Fixpoint tokens (s : list ascii) : list token :=
  match s with
  | [] => []
  | c :: r =>
      match tokens r with
      | (k, t) :: ts =>
          if Bool.eqb k (Chr.is_word c) then (k, c :: t) :: ts
          else (Chr.is_word c, [c]) :: (k, t) :: ts
      | [] => [(Chr.is_word c, [c])]
      end
  end.

Definition untok (ts : list token) : list ascii :=
  concat (map snd ts).

(** Tokens are non-empty, of one kind each, and alternate. *)
Fixpoint wf_tokens (ts : list token) : Prop :=
  match ts with
  | [] => True
  | t :: ts' =>
      snd t <> []
      /\ Forall (fun c => Chr.is_word c = fst t) (snd t)
      /\ match ts' with
         | t' :: _ => fst t' = negb (fst t)
         | [] => True
         end
      /\ wf_tokens ts'
  end.

(** What [re.sub(r'\bpat\b', repl, ..., flags=re.IGNORECASE)] does to one
    token, for a pattern made of [\w] characters. *)
Definition expand (pat repl : list ascii) (t : token) : token :=
  if fst t && ci_eqb (snd t) pat then (true, repl) else t.

(** The table [replacements] without its last entry, whose pattern [#] is
    not made of [\w] characters. *)
Definition word_replacements : list (list ascii * list ascii) :=
  removelast replacements.

Definition expand_all (table : list (list ascii * list ascii)) (t : token)
    : token :=
  fold_left (fun acc pr => expand (fst pr) (snd pr) acc) table t.

(** A word that the word patterns change at most in case. *)
Definition stable_word (t : list ascii) : bool :=
  forallb (fun pr => implb (ci_eqb t (fst pr)) (ci_eqb (snd pr) (fst pr)))
    word_replacements.

Definition flush (cur : list ascii) : list (list ascii) :=
  match cur with [] => [] | _ => [cur] end.

(** The maximal runs of [\w] characters of [s], read left to right, [cur]
    being the run that is open when [s] starts. *)
Fixpoint words_from (cur s : list ascii) : list (list ascii) :=
  match s with
  | [] => flush cur
  | c :: r =>
      if Chr.is_word c then words_from (cur ++ [c]) r
      else flush cur ++ words_from [] r
  end.

Definition is_hash (c : ascii) : bool := Chr.is_code 35 c.

Definition last_or (prev : option ascii) (u : list ascii) : option ascii :=
  match last u with Some c => Some c | None => prev end.

(** The character before a token list allows a match to start at its
    first token. *)
Definition ctx_ok (prev : option ascii) (ts : list token) : Prop :=
  match ts with
  | t :: _ => fst t = true -> Re.word_opt prev = false
  | [] => True
  end.

(** The entries of a table have word patterns and word replacements,
    none empty. *)
Definition word_table (table : list (list ascii * list ascii)) : bool :=
  forallb (fun pr => negb (str_eqb (fst pr) []) && all_word (fst pr)
                     && negb (str_eqb (snd pr) []) && all_word (snd pr))
    table.




(** The word is, up to case, a pattern of the table. *)
Definition is_abbreviation (t : list ascii) : bool :=
  existsb (fun pr => ci_eqb t (fst pr)) word_replacements.

(** The last substitution of the table, [\b#\b] by [Unit], scanning from a
    position whose previous character is [prev]. *)
Definition sub_hash (prev : option ascii) (s : list ascii) : list ascii :=
  Re.sub_from (lit "#") (lit "Unit") 0 prev s.

(** Some [#] of [s] stands between two word characters. *)
Fixpoint has_hash (prev : option ascii) (s : list ascii) : bool :=
  match s with
  | [] => false
  | c :: r =>
      (is_hash c && Re.word_opt prev && Re.word_opt (head r))
      || has_hash (Some c) r
  end.

Definition space_opt (c : option ascii) : bool :=
  match c with Some x => Chr.isspace x | None => false end.

(** Neither end of the string is whitespace. *)
Definition trimmed (s : list ascii) : Prop :=
  space_opt (head s) = false /\ space_opt (last s) = false.

Definition no_punct (c : ascii) : bool :=
  negb (Chr.is_code 44 c || Chr.is_code 46 c).

(** A string that every step of [clean_and_normalize] leaves as it is, the
    word patterns up to case. *)
Definition normal (y : list ascii) : Prop :=
  Forall (fun c => no_punct c = true) y
  /\ trimmed y
  /\ Forall (fun t => stable_word t = true) (words_from [] y)
  /\ has_hash None y = false
  /\ Re.sub_spaces y = y
  /\ Str.lower y = y.

(** The steps of [clean_and_normalize] on the string form of a value that
    passed its guard. *)
Definition normalize_steps (s : list ascii) : list ascii :=
  Str.lower (Re.sub_spaces
               (apply_replacements replacements
                  (Str.strip (Re.sub_punct s)))).

(** ** The normalizer beyond Latin-1

    The same steps of [clean_and_normalize] over code points, for strings
    that leave Latin-1.  Below 256 the character classes are those of
    [Chr].  Above, the tables hold two code points, and strings are taken
    over these and Latin-1: U+0130 (capital I with dot above), a letter
    that [str.lower] turns into the two code points U+0069 U+0307 and that
    [re.IGNORECASE] folds to U+0069; and U+0307 (combining dot above),
    which is neither a word character nor whitespace. *)

Module Wide.

Definition between (lo hi n : N) : bool := ((lo <=? n) && (n <=? hi))%N.

Definition isspace (n : N) : bool :=
  between 9 13 n || between 28 32 n || (n =? 133)%N || (n =? 160)%N.

Definition is_word (n : N) : bool :=
  between 65 90 n || between 97 122 n
  || (n =? 170)%N || (n =? 181)%N || (n =? 186)%N
  || between 192 214 n || between 216 246 n || between 248 255 n
  || between 48 57 n || (n =? 178)%N || (n =? 179)%N || (n =? 185)%N
  || between 188 190 n || (n =? 95)%N
  || (n =? 304)%N.

Definition lower1 (n : N) : N :=
  if between 65 90 n || between 192 214 n || between 216 222 n
  then (n + 32)%N else n.

(** [str.lower] on one code point. *)
Definition lower_char (n : N) : list N :=
  if (n =? 304)%N then [105%N; 775%N] else [lower1 n].

(** The case folding of [re.IGNORECASE] on one code point. *)
Definition fold_case (n : N) : N :=
  if (n =? 304)%N then 105%N else lower1 n.

Definition ci_eq (a b : N) : bool := (fold_case a =? fold_case b)%N.

Definition lower (s : list N) : list N := flat_map lower_char s.

Fixpoint lstrip (s : list N) : list N :=
  match s with
  | c :: r => if isspace c then lstrip r else s
  | [] => []
  end.

Definition strip (s : list N) : list N :=
  rev (lstrip (rev (lstrip s))).

Definition word_opt (c : option N) : bool :=
  match c with Some x => is_word x | None => false end.

Definition boundary (prev next : option N) : bool :=
  xorb (word_opt prev) (word_opt next).

Fixpoint match_lit (pat s : list N) : option (list N) :=
  match pat with
  | [] => Some s
  | p :: pat' =>
      match s with
      | c :: s' => if ci_eq c p then match_lit pat' s' else None
      | [] => None
      end
  end.

Definition matches_at (pat : list N) (prev : option N) (s : list N)
    : bool :=
  boundary prev (head s) &&
  match match_lit pat s with
  | Some rest => boundary (last (firstn (length pat) s)) (head rest)
  | None => false
  end.

Fixpoint sub_from (pat repl : list N) (skip : nat) (prev : option N)
    (s : list N) : list N :=
  match s with
  | [] => []
  | c :: r =>
      match skip with
      | S k => sub_from pat repl k (Some c) r
      | O =>
          if matches_at pat prev s
          then repl ++ sub_from pat repl (length pat - 1) (Some c) r
          else c :: sub_from pat repl 0 (Some c) r
      end
  end.

Definition sub_word (pat repl s : list N) : list N :=
  sub_from pat repl 0 None s.

Definition sub_punct (s : list N) : list N :=
  map (fun c => if (c =? 44)%N || (c =? 46)%N then 32%N else c) s.

Fixpoint sub_spaces_from (in_run : bool) (s : list N) : list N :=
  match s with
  | [] => []
  | c :: r =>
      if isspace c
      then (if in_run then [] else [32%N]) ++ sub_spaces_from true r
      else c :: sub_spaces_from false r
  end.

Definition sub_spaces (s : list N) : list N := sub_spaces_from false s.

(** The code points of a Latin-1 string. *)
Definition encode (s : list ascii) : list N := map Chr.code s.

Definition apply_replacements (table : list (list ascii * list ascii))
    (s : list N) : list N :=
  fold_left (fun acc pr => sub_word (encode (fst pr)) (encode (snd pr)) acc)
    table s.

(** [clean_and_normalize(part)] for a string [part]. *)
Definition clean_and_normalize (part : list N) : list N :=
  match part with
  | [] => []
  | _ =>
      let cleaned_part := strip (sub_punct part) in
      let cleaned_part := apply_replacements replacements cleaned_part in
      lower (sub_spaces cleaned_part)
  end.

(** The code points are those of Latin-1. *)
Definition latin1 (s : list N) : Prop := Forall (fun n => (n < 256)%N) s.

End Wide.

(** The string "İSt", with U+0130 first. *)
Definition dotted_st : list N := [304%N; 83%N; 116%N].

(** The components that [format_address] joins, in order: [address2] is
    among them when it is given and not empty. *)
Definition given_components (address1 address2 city state zipcode : pyval)
    : list pyval :=
  address1 :: (if Py.truthy address2 then [address2] else [])
  ++ [city; state; zipcode].

(** The normalised components that are not empty. *)
Definition kept_parts (components : list pyval) : list (list ascii) :=
  List.filter (fun p => negb (str_eqb p []))
    (map clean_and_normalize components).

(** The four components are given and none is empty. *)
Definition required_given (address1 city state zipcode : pyval) : bool :=
  Py.truthy address1 && Py.truthy city && Py.truthy state
  && Py.truthy zipcode.

(** ** The rows that the matching pass leaves *)

(** The two court types that the loop of [compare_data] looks for. *)
Inductive court := Bankruptcy | District.

Definition court_type (k : court) : list ascii :=
  match k with
  | Bankruptcy => lit "bankruptcy court"
  | District => lit "district court"
  end.

Definition court_label (k : court) : list ascii :=
  match k with
  | Bankruptcy => lit "Gov (Bankruptcy Court)"
  | District => lit "Gov (District Court)"
  end.

(** What a federal row [r0] can have become when [compare_data] ends, by
    return or by exception: the row of step 3 (no candidate, or the loop
    did not reach it), a match with a government row [g0], or a mismatch
    with it.  The government row is read as step 2 left it. *)
Inductive left_row (federal_data gov_data : frame)
    : gmap string pyval -> Prop :=
  | left_untouched (r0 : gmap string pyval) :
      In r0 (rows federal_data) ->
      left_row federal_data gov_data
        (prepared_federal_row (columns federal_data) r0)
  | left_match (r0 g0 : gmap string pyval) (k : court) :
      In r0 (rows federal_data) ->
      In g0 (rows gov_data) ->
      is_candidate (court_type k)
        (Df.get (columns federal_data) r0 "Key" empty_str) g0 = true ->
      is_valid_address (Df.cell g0 "BuildingAddress") = Ok true ->
      fst (fed_format (columns federal_data) r0)
      = fst (gov_format (columns gov_data) g0) ->
      left_row federal_data gov_data
        (verdict_match (court_label k)
           (prepared_federal_row (columns federal_data) r0))
  | left_mismatch (r0 g0 : gmap string pyval) (k : court) (valid : bool) :
      In r0 (rows federal_data) ->
      In g0 (rows gov_data) ->
      is_candidate (court_type k)
        (Df.get (columns federal_data) r0 "Key" empty_str) g0 = true ->
      is_valid_address (Df.cell g0 "BuildingAddress") = Ok valid ->
      valid = false
      \/ fst (fed_format (columns federal_data) r0)
         <> fst (gov_format (columns gov_data) g0) ->
      left_row federal_data gov_data
        (verdict_mismatch (court_label k) (columns (prepare_gov gov_data))
           (prepared_gov_row (columns gov_data) g0)
           (VStr (fst (fed_format (columns federal_data) r0)))
           (prepared_federal_row (columns federal_data) r0)).

(** The court types under a key are refused by the accessor [.str]: no
    government row with the key holds a string as [CourtType], and one of
    them holds a value that is not missing. *)
Definition refused_courts (key : pyval) (gov_rows : list (gmap string pyval))
    : Prop :=
  (forall g, In g gov_rows -> Py.eq_cell (Df.cell g "Key") key = true ->
     Py.is_str (Df.cell g "CourtType") = false)
  /\ exists g, In g gov_rows /\ Py.eq_cell (Df.cell g "Key") key = true
               /\ Py.isnull (Df.cell g "CourtType") = false.

(** Some government row holds a string as [CourtType]: the column is a
    column of text, of dtype object. *)
Definition text_courts (gov_rows : list (gmap string pyval)) : bool :=
  existsb (fun g => Py.is_str (Df.cell g "CourtType")) gov_rows.

(** The court type of a government row is a string or is missing. *)
Definition court_type_is_text (g : gmap string pyval) : bool :=
  Py.is_str (Df.cell g "CourtType") || Py.isnull (Df.cell g "CourtType").

(** The building address of a government row is a string that is not
    empty and holds whitespace only. *)
Definition blank_address (g : gmap string pyval) : Prop :=
  exists s, Df.cell g "BuildingAddress" = VStr s
            /\ s <> [] /\ Str.strip s = [].

(** Its boolean form. *)
Definition blank_addressb (g : gmap string pyval) : bool :=
  match Df.cell g "BuildingAddress" with
  | VStr s => negb (str_eqb s []) && str_eqb (Str.strip s) []
  | _ => false
  end.

(** The court type of a government row, lowered, is one of the two that
    the loop of [compare_data] looks for. *)
Definition court_relevant (g : gmap string pyval) : bool :=
  Py.eq_cell (Py.str_lower_cell (Df.cell g "CourtType"))
    (VStr (court_type Bankruptcy))
  || Py.eq_cell (Py.str_lower_cell (Df.cell g "CourtType"))
       (VStr (court_type District)).

(** A district-court row and a row of another court under the key of
    [federal_row1]. *)
Definition district_and_tax_gov : frame :=
  sample_gov
    [ gov_row_of (lit "77 Pine Ave") (lit "Annex") (lit "62701")
        (lit "Tax Court") (lit "555-0133");
      gov_row_of (lit "123 Oak Street") (lit "Courthouse") (lit "62701")
        (lit "District court") (lit "555-0111") ].

(** ** What the planner makes of a composed address *)

(** The action of the planner on the list of trimmed parts, which holds
    five parts at most when the address was composed by
    [format_address]. *)
Definition action_of_parts (parts : list (list ascii))
    (phone court_id : pyval) : action :=
  match parts with
  | [a1; city; state; zip] =>
      Execute (Instruction (VStr a1) VNone (VStr city) (VStr city)
                 (VStr state) (VStr zip) phone court_id)
  | [a1; a2; city; state; zip] =>
      Execute (Instruction (VStr a1) (VStr a2) (VStr city) (VStr city)
                 (VStr state) (VStr zip) phone court_id)
  | _ => Skipped court_id
  end.

(** The components of a government row that step 2 of [compare_data]
    composes into [Full_Address_With_BuildingName]. *)
Definition candidate_components (cols : gset string)
    (g : gmap string pyval) : list pyval :=
  given_components (Df.get cols g "BuildingAddress" empty_str)
    (Df.get cols g "BuildingName" VNone)
    (Df.get cols g "BuildingCity" empty_str)
    (Df.get cols g "BuildingState" empty_str)
    (gov_zip cols g).

Definition candidate_required (cols : gset string)
    (g : gmap string pyval) : bool :=
  required_given (Df.get cols g "BuildingAddress" empty_str)
    (Df.get cols g "BuildingCity" empty_str)
    (Df.get cols g "BuildingState" empty_str)
    (gov_zip cols g).

(** A field of a statement: a string without comma and without whitespace
    at its ends. *)
Definition clean_field (v : pyval) : Prop :=
  exists s, v = VStr s /\ Forall (fun c => c <> ","%char) s /\ trimmed s.

(** ** Views of the cleaning step *)

(** The text of a key: the f-string of [key_of], lowered. *)
Definition key_text (city : list ascii) (state : pyval) : list ascii :=
  Str.lower (Str.replace " "%char "_"%char city ++ lit "_" ++ Py.str state).

(** [g'] is [g] with the column [Key] computed from the two columns. *)
Definition with_key (city_col state_col : string)
    (g g' : gmap string pyval) : Prop :=
  exists c, Df.cell g city_col = VStr c
            /\ g' = <[ "Key" := VStr (key_text c (Df.cell g state_col)) ]> g.


(** The row is not filtered out by [exclude_values]. *)
Definition not_excluded (exclude_values : list (list ascii))
    (g : gmap string pyval) : bool :=
  negb (isin exclude_values (Df.cell g "CourtType")).

Definition is_ok {A} (m : res A) : bool :=
  match m with Ok _ => true | Raise _ => false end.



(** ** The zip column of the fetched data *)

(** What the lambda of the column [zip] does on one cell: the new cell, or
    the [ValueError] of [int]. *)
Inductive zip_result := ZipValue (v : pyval) | ZipValueError.

(** [s.isdigit()] *)
Definition isdigit_str (s : list ascii) : bool :=
  negb (str_eqb s []) && forallb Chr.isdigit s.

(** [int(s)] for a string [s] of which [isdigit] holds: [int] reads decimal
    digits and raises [ValueError] on the superscript digits, for which
    [None] stands here. *)
Definition int_of_digits (s : list ascii) : option Z :=
  option_map Z.of_int (NilZero.int_of_string (string_of_list_ascii s)).

(** [s.zfill(width)]: the zeros come after a leading sign. *)
Definition zfill (width : nat) (s : list ascii) : list ascii :=
  let zeros := repeat "0"%char (width - length s) in
  match s with
  | c :: r =>
      if bool_decide (c = "+"%char) || bool_decide (c = "-"%char)
      then c :: zeros ++ r
      else zeros ++ s
  | [] => zeros
  end.

(** The lambda that [search_gov_data] applies to the column [zip]:
    [str(int(x)).zfill(5) if pd.notnull(x) and str(x).isdigit() else None].
    The conversions of CPython 3.11 between [int] and [str] refuse more than
    4300 digits; the properties are stated within that bound. *)
Definition zip_lambda (x : pyval) : zip_result :=
  if negb (Py.isnull x) && isdigit_str (Py.str x) then
    match x with
    | VStr s =>
        match int_of_digits s with
        | Some n => ZipValue (VStr (zfill 5 (Py.str (VInt n))))
        | None => ZipValueError
        end
    | VInt n => ZipValue (VStr (zfill 5 (Py.str (VInt n))))
    | _ => ZipValue VNone
    end
  else ZipValue VNone.

(** The decimal digits ['0'] to ['9']. *)
Definition is_decimal (c : ascii) : bool := Chr.between 48 57 c.
Definition all_decimal (s : list ascii) : bool := forallb is_decimal s.

(** A comparison result whose second selected row holds no address to
    update. *)
Definition missing_address_results : frame :=
  Frame (list_to_set ["courtid"; "Mismatch_Address"; "Address_to_update";
                      "Phone_to_update"]%string)
    [ result_row 1 (lit "Fed: a | Gov: b")
        (lit "1 Main St, Springfield, IL, 62701") (lit "555-0101");
      mkrow [("courtid", VInt 2);
             ("Mismatch_Address", VStr (lit "Fed: c | Gov: d"));
             ("Phone_to_update", VStr (lit "555-0102"))]%string;
      result_row 3 (lit "Fed: e | Gov: f")
        (lit "2 Main St, Springfield, IL, 62701") (lit "555-0103") ].
(** * Properties *)

(** ** Validation *)

(** C2: [is_valid_address] is claimed to return a boolean on every string
    and never to raise, so that the matching pass completes on any batch.
    On the one-blank string the guard on emptiness passes, [strip] leaves
    the empty string and the subscript raises [IndexError]; a batch whose
    chosen candidate has such a building address makes [compare_data]
    raise. *)
Theorem is_valid_address_blank_raises :
  is_valid_address (VStr (lit " ")) = Raise IndexError
  /\ snd (compare_data sample_federal blank_address_gov) = Raise IndexError.
Proof. split; vm_compute; reflexivity. Qed.

(** ** Composition of addresses *)

Lemma join_filter_truthy (l : list (list ascii)) :
  map Py.str (List.filter Py.truthy (map VStr l))
  = List.filter (fun p => negb (str_eqb p [])) l.
Proof.
  induction l as [|a l IH]; simpl; [reflexivity|].
  destruct (negb (str_eqb a [])); simpl; rewrite IH; reflexivity.
Qed.

(** C3, as amended: when the four required components and the secondary
    descriptor are all non-empty, both strings returned by
    [format_address] are the same join, of the normalised components
    address1, address2, city, state, zipcode with the empty ones dropped. *)
Theorem format_address_both_include_address2
    (address1 address2 city state zipcode : pyval) :
  Py.truthy address1 = true -> Py.truthy address2 = true ->
  Py.truthy city = true -> Py.truthy state = true ->
  Py.truthy zipcode = true ->
  format_address address1 address2 city state zipcode
  = (joined [address1; address2; city; state; zipcode],
     joined [address1; address2; city; state; zipcode]).
Proof.
  intros H1 H2 Hc Hs Hz. unfold format_address, joined.
  rewrite H1, H2, Hc, Hs, Hz. cbn [negb orb].
  change [VStr (clean_and_normalize address1);
          VStr (clean_and_normalize address2);
          VStr (clean_and_normalize city);
          VStr (clean_and_normalize state);
          VStr (clean_and_normalize zipcode)]
    with (map VStr (map clean_and_normalize
                      [address1; address2; city; state; zipcode])).
  rewrite join_filter_truthy. reflexivity.
Qed.

Lemma format_address_both_include_address2_witness :
  format_address (VStr (lit "1 Main St")) (VStr (lit "Suite 2"))
    (VStr (lit "Springfield")) (VStr (lit "IL")) (VStr (lit "62701"))
  = (lit "1 main street, suite 2, springfield, il, 62701",
     lit "1 main street, suite 2, springfield, il, 62701").
Proof.
  rewrite (format_address_both_include_address2
             (VStr (lit "1 Main St")) (VStr (lit "Suite 2"))
             (VStr (lit "Springfield")) (VStr (lit "IL"))
             (VStr (lit "62701")));
    [vm_compute; reflexivity | reflexivity ..].
Defined.

(** C3, as first stated, fails: with a secondary descriptor supplied the
    first returned string is not the join that leaves it out. *)
Lemma format_address_primary_keeps_address2 :
  fst (format_address (VStr (lit "1 Main St")) (VStr (lit "Suite 2"))
         (VStr (lit "Springfield")) (VStr (lit "IL")) (VStr (lit "62701")))
  <> joined [VStr (lit "1 Main St"); VStr (lit "Springfield");
             VStr (lit "IL"); VStr (lit "62701")].
Proof. vm_compute. discriminate. Qed.

(** ** Frames: reading after writing *)

Lemma cell_insert_eq (r : gmap string pyval) (c : string) (v : pyval) :
  Df.cell (<[ c := v ]> r) c = v.
Proof. unfold Df.cell. rewrite lookup_insert_eq. reflexivity. Qed.

Lemma cell_insert_ne (r : gmap string pyval) (c c' : string) (v : pyval) :
  c' <> c -> Df.cell (<[ c' := v ]> r) c = Df.cell r c.
Proof. intros H. unfold Df.cell. rewrite lookup_insert_ne by exact H. reflexivity. Qed.

Lemma get_assign_ne (cols : gset string) (r : gmap string pyval)
    (c c' : string) (v d : pyval) :
  c' <> c ->
  Df.get ({[ c' ]} ∪ cols) (<[ c' := v ]> r) c d = Df.get cols r c d.
Proof.
  intros H. unfold Df.get. rewrite cell_insert_ne by exact H.
  destruct (decide (c ∈ cols)) as [Hin|Hin],
    (decide (c ∈ {[c']} ∪ cols)) as [Hin'|Hin']; try reflexivity.
  - exfalso. apply Hin'. apply elem_of_union_r. exact Hin.
  - exfalso. apply elem_of_union in Hin' as [Hin'|Hin']; [|tauto].
    apply elem_of_singleton in Hin'. congruence.
Qed.

Ltac col_neq := unfold Col.Full_Address, Col.Full_Address_With_BuildingName,
  Col.Matched_in, Col.Mismatch_Address, Col.Address_to_update,
  Col.Phone_to_update; discriminate.

Lemma prepare_federal_rows (d : frame) :
  rows (prepare_federal d) = map (prepared_federal_row (columns d)) (rows d).
Proof.
  unfold prepare_federal, Df.assign. cbn [rows columns].
  rewrite !map_map. reflexivity.
Qed.

Lemma prepare_federal_columns (d : frame) :
  columns (prepare_federal d)
  = {[ Col.Phone_to_update ]} ∪ ({[ Col.Address_to_update ]}
    ∪ ({[ Col.Mismatch_Address ]} ∪ ({[ Col.Matched_in ]}
    ∪ ({[ Col.Full_Address ]} ∪ columns d)))).
Proof. reflexivity. Qed.

Lemma gov_format_with_name_assign (cols : gset string)
    (r : gmap string pyval) (v : pyval) :
  gov_format_with_name ({[ Col.Full_Address ]} ∪ cols)
    (<[ Col.Full_Address := v ]> r)
  = gov_format_with_name cols r.
Proof.
  unfold gov_format_with_name, gov_zip.
  rewrite !get_assign_ne by col_neq. reflexivity.
Qed.

Lemma prepare_gov_rows (d : frame) :
  rows (prepare_gov d) = map (prepared_gov_row (columns d)) (rows d).
Proof.
  unfold prepare_gov, Df.assign. cbn [rows columns].
  rewrite map_map. apply map_ext. intros r.
  unfold prepared_gov_row. rewrite gov_format_with_name_assign. reflexivity.
Qed.

Lemma prepare_gov_columns (d : frame) :
  columns (prepare_gov d)
  = {[ Col.Full_Address_With_BuildingName ]}
    ∪ ({[ Col.Full_Address ]} ∪ columns d).
Proof. reflexivity. Qed.

(** ** The loop body *)

Lemma bind_ok {A B} (m : res A) (k : A -> res B) (b : B) :
  bind m k = Ok b -> exists a, m = Ok a /\ k a = Ok b.
Proof. destruct m as [a|e]; simpl; [eauto | discriminate]. Qed.

Lemma item_ok (cols : gset string) (r : gmap string pyval) (c : string)
    (v : pyval) :
  Df.item cols r c = Ok v -> c ∈ cols /\ v = Df.cell r c.
Proof.
  unfold Df.item. destruct (decide (c ∈ cols)); [|discriminate].
  intros [= <-]. split; [assumption | reflexivity].
Qed.

Lemma select_head_in (lowered : bool) (c : string) (v : pyval)
    (rs : list (gmap string pyval)) (g : gmap string pyval)
    (tl : list (gmap string pyval)) :
  select lowered c v rs = g :: tl -> In g rs.
Proof.
  unfold select. intros H.
  assert (Hin : In g (g :: tl)) by (left; reflexivity).
  rewrite <- H in Hin. apply filter_In in Hin. tauto.
Qed.

Lemma judge_cases (label : list ascii) (gcols : gset string)
    (g : gmap string pyval) (fa : pyval) (r r' : gmap string pyval) :
  judge label gcols g fa r = Ok r' ->
  r' = verdict_match label r \/ r' = verdict_mismatch label gcols g fa r.
Proof.
  unfold judge. intros H.
  apply bind_ok in H as (ga & Hga & H). apply item_ok in Hga as [_ ->].
  apply bind_ok in H as (gn & Hgn & H). apply item_ok in Hgn as [_ ->].
  apply bind_ok in H as (ba & _ & H).
  apply bind_ok in H as (valid & _ & H).
  destruct (valid && py_eq fa _); injection H as <-; [left | right];
    reflexivity.
Qed.

(** The second use of [.str] in the loop body reads the series of the
    first and raises nothing new. *)
Lemma compare_row_once (gov : frame) (fcols : gset string)
    (r : gmap string pyval) :
  compare_row gov fcols r
  = let key := Df.get fcols r "Key" empty_str in
    let* fed_address := Df.item fcols r Col.Full_Address in
    let* _ := has_column (columns gov) "Key" in
    let gov_matches := select false "Key" key (rows gov) in
    let* _ := has_column (columns gov) "CourtType" in
    let* _ := str_accessor (cells_of "CourtType" gov_matches) in
    match select true "CourtType" (VStr (lit "bankruptcy court")) gov_matches
    with
    | gov_row :: _ =>
        judge (lit "Gov (Bankruptcy Court)") (columns gov) gov_row
          fed_address r
    | [] =>
        match select true "CourtType" (VStr (lit "district court"))
                gov_matches with
        | gov_row :: _ =>
            judge (lit "Gov (District Court)") (columns gov) gov_row
              fed_address r
        | [] => Ok r
        end
    end.
Proof.
  unfold compare_row. cbv zeta.
  destruct (Df.item fcols r Col.Full_Address) as [fa|e]; [|reflexivity].
  destruct (has_column (columns gov) "Key") as [[]|e]; [|reflexivity].
  destruct (has_column (columns gov) "CourtType") as [[]|e]; [|reflexivity].
  cbn [bind].
  destruct (str_accessor _) as [[]|e] eqn:Ha; [|reflexivity].
  cbn [bind]. reflexivity.
Qed.

Lemma compare_row_cases (gov : frame) (fcols : gset string)
    (r r' : gmap string pyval) :
  compare_row gov fcols r = Ok r' ->
  r' = r \/
  exists label g fa,
    In g (rows gov) /\ judge label (columns gov) g fa r = Ok r'.
Proof.
  rewrite compare_row_once. cbv zeta. intros H.
  apply bind_ok in H as (fa & _ & H).
  apply bind_ok in H as (? & _ & H).
  apply bind_ok in H as (? & _ & H).
  apply bind_ok in H as (? & _ & H).
  destruct (select true "CourtType" (VStr (lit "bankruptcy court")) _)
    as [|g tl] eqn:Hb.
  - destruct (select true "CourtType" (VStr (lit "district court")) _)
      as [|g tl] eqn:Hd.
    + injection H as <-. left; reflexivity.
    + right. exists (lit "Gov (District Court)"), g, fa. split; [|exact H].
      apply select_head_in in Hd. unfold select in Hd.
      apply filter_In in Hd as [Hd _]. exact Hd.
  - right. exists (lit "Gov (Bankruptcy Court)"), g, fa. split; [|exact H].
    apply select_head_in in Hb. unfold select in Hb.
    apply filter_In in Hb as [Hb _]. exact Hb.
Qed.

Lemma item_in (cols : gset string) (r : gmap string pyval) (c : string) :
  c ∈ cols -> Df.item cols r c = Ok (Df.cell r c).
Proof. intros H. unfold Df.item. destruct (decide (c ∈ cols)); tauto. Qed.

Lemma has_column_in (cols : gset string) (c : string) :
  c ∈ cols -> has_column cols c = Ok tt.
Proof. intros H. unfold has_column. destruct (decide (c ∈ cols)); tauto. Qed.

Lemma compare_rows_rows (gov : frame) (fcols : gset string)
    (todo : list (gmap string pyval)) (row' : gmap string pyval) :
  In row' (fst (compare_rows gov fcols todo)) ->
  In row' todo \/
  exists r, In r todo /\ compare_row gov fcols r = Ok row'.
Proof.
  induction todo as [|r todo IH]; simpl; [tauto|].
  destruct (compare_row gov fcols r) as [r1|e] eqn:Hr.
  - destruct (compare_rows gov fcols todo) as [rest' o]. simpl in *.
    intros [<-|Hin].
    + right. exists r. tauto.
    + destruct (IH Hin) as [H|(r0 & H0 & H1)]; [tauto|].
      right. exists r0. tauto.
  - simpl. tauto.
Qed.

Lemma compare_data_rows (federal_data gov_data : frame) :
  rows (fst (compare_data federal_data gov_data))
  = fst (compare_rows (prepare_gov gov_data)
           (columns (prepare_federal federal_data))
           (rows (prepare_federal federal_data))).
Proof.
  unfold compare_data.
  destruct (compare_rows _ _ _) as [rs o]. reflexivity.
Qed.

Lemma needs_update_prepared (cols : gset string) (r : gmap string pyval) :
  needs_update (prepared_federal_row cols r) = false.
Proof.
  unfold needs_update, prepared_federal_row.
  rewrite !cell_insert_ne by col_neq. rewrite cell_insert_eq. reflexivity.
Qed.

Lemma needs_update_match (label : list ascii) (r : gmap string pyval) :
  needs_update (verdict_match label r) = false.
Proof.
  unfold needs_update, verdict_match.
  rewrite !cell_insert_ne by col_neq. rewrite cell_insert_eq. reflexivity.
Qed.

Lemma first_row_in (d : frame) :
  length (rows d) <> 0 -> In (first_row d) (rows d).
Proof.
  unfold first_row. destruct (rows d) as [|r l]; simpl; [congruence|tauto].
Qed.

Lemma second_row_split {A} (l : list A) (d : A) :
  1 < length l -> l = firstn 1 l ++ nth 1 l d :: skipn 2 l.
Proof. destruct l as [|a [|b l]]; simpl; [lia | lia | reflexivity]. Qed.

Lemma is_str_inv (v : pyval) : Py.is_str v = true -> exists s, v = VStr s.
Proof. destruct v; simpl; try discriminate. eauto. Qed.

(** ** Verdicts *)

(** C1, as first stated, fails: a candidate without building address gives
    a verdict of status Mismatch whose [Address_to_update] is the empty
    string. *)
Lemma mismatch_with_empty_address :
  let row := first_row (fst (compare_data sample_federal empty_address_gov)) in
  In row (rows (fst (compare_data sample_federal empty_address_gov)))
  /\ needs_update row = true
  /\ Df.cell row Col.Address_to_update = VStr [].
Proof.
  intros row. split; [|split].
  - apply first_row_in. vm_compute. discriminate.
  - vm_compute. reflexivity.
  - vm_compute. reflexivity.
Qed.

Lemma prepared_federal_cells (cols : gset string) (r : gmap string pyval) :
  let row := prepared_federal_row cols r in
  Df.cell row Col.Matched_in = VStr (lit "Not Found")
  /\ Df.cell row Col.Mismatch_Address = VStr (lit "Manual Research")
  /\ Df.cell row Col.Address_to_update = VStr (lit "Human review needed")
  /\ Df.cell row Col.Phone_to_update = VStr [].
Proof.
  unfold prepared_federal_row. cbv zeta.
  repeat split;
    rewrite ?cell_insert_ne by col_neq; rewrite cell_insert_eq;
    reflexivity.
Qed.




(** ** Priority of bankruptcy courts *)

Lemma select_select_none (court : list ascii) (key : pyval)
    (l : list (gmap string pyval)) :
  (forall g, In g l -> is_candidate court key g = false) ->
  select true "CourtType" (VStr court) (select false "Key" key l) = [].
Proof.
  unfold select. induction l as [|g l IH]; intros H; [reflexivity|].
  assert (Hg := H g (or_introl eq_refl)). unfold is_candidate in Hg.
  cbn [List.filter].
  destruct (Py.eq_cell (Df.cell g "Key") key) eqn:Hk.
  - cbn [List.filter]. simpl in Hg. rewrite Hg.
    apply IH. intros g' Hg'. apply H. right. exact Hg'.
  - apply IH. intros g' Hg'. apply H. right. exact Hg'.
Qed.

Lemma select_select_first (court : list ascii) (key : pyval)
    (pre post : list (gmap string pyval)) (b : gmap string pyval) :
  (forall g, In g pre -> is_candidate court key g = false) ->
  is_candidate court key b = true ->
  exists tl,
    select true "CourtType" (VStr court)
      (select false "Key" key (pre ++ b :: post)) = b :: tl.
Proof.
  intros Hpre Hb.
  pose proof (select_select_none court key pre Hpre) as Hnil.
  unfold select in *. rewrite !List.filter_app, Hnil. cbn [List.filter app].
  unfold is_candidate in Hb. apply andb_prop in Hb as [Hk Hc].
  rewrite Hk. cbn [List.filter]. rewrite Hc. eauto.
Qed.

Lemma judge_matched_in (label : list ascii) (gcols : gset string)
    (g : gmap string pyval) (fa : pyval) (r r' : gmap string pyval) :
  judge label gcols g fa r = Ok r' ->
  Df.cell r' Col.Matched_in = VStr label.
Proof.
  intros H. apply judge_cases in H as [-> | ->];
    unfold verdict_match, verdict_mismatch;
    rewrite !cell_insert_ne by col_neq; apply cell_insert_eq.
Qed.

Lemma accessor_candidate (court : list ascii) (key : pyval)
    (l : list (gmap string pyval)) (g : gmap string pyval) :
  In g l -> is_candidate court key g = true ->
  str_accessor (cells_of "CourtType" (select false "Key" key l)) = Ok tt.
Proof.
  intros Hin Hc. unfold is_candidate in Hc. apply andb_prop in Hc as [Hk Hc].
  assert (Hs : existsb Py.is_str
                 (cells_of "CourtType" (select false "Key" key l)) = true).
  { apply existsb_exists. exists (Df.cell g "CourtType"). split.
    - unfold cells_of. apply (in_map (fun r => Df.cell r "CourtType")).
      unfold select. apply filter_In.
      split; [exact Hin | exact Hk].
    - destruct (Df.cell g "CourtType"); try discriminate Hc. reflexivity. }
  unfold str_accessor. rewrite Hs. reflexivity.
Qed.




(** ** The update planner *)

Lemma plan_row_planned (cols : gset string) (row : gmap string pyval)
    (s : list ascii) :
  "courtid" ∈ cols -> Col.Address_to_update ∈ cols ->
  Col.Phone_to_update ∈ cols ->
  Df.cell row Col.Address_to_update = VStr s ->
  plan_row cols row = Ok (planned_action row).
Proof.
  intros Hc Ha Hp Hs. unfold plan_row, planned_action.
  rewrite (item_in _ _ _ Hc), (item_in _ _ _ Ha), (item_in _ _ _ Hp).
  cbn [bind]. rewrite Hs.
  destruct (map Str.strip (Str.split "," s))
    as [|a [|b [|c [|d [|e l]]]]]; reflexivity.
Qed.

Lemma plan_rows_planned (cols : gset string)
    (l : list (gmap string pyval)) :
  "courtid" ∈ cols -> Col.Address_to_update ∈ cols ->
  Col.Phone_to_update ∈ cols ->
  (forall row, In row l ->
     exists s, Df.cell row Col.Address_to_update = VStr s) ->
  plan_rows cols l = (map planned_action l, Ok tt).
Proof.
  intros Hc Ha Hp. induction l as [|row l IH]; intros Hl; [reflexivity|].
  destruct (Hl row (or_introl eq_refl)) as [s Hs].
  cbn [plan_rows map]. rewrite (plan_row_planned cols row s Hc Ha Hp Hs).
  rewrite IH; [reflexivity|]. intros r Hr. apply Hl. right. exact Hr.
Qed.

(** C5: on a comparison result that has the columns the planner reads and
    whose selected rows hold a string as address to update,
    [update_discrepancies] handles every row whose mismatch is neither
    ['No mismatch'] nor ['Manual Research'], in order, exactly as the
    specification words it (four parts: instruction without address2;
    five or more: address2 is the second part and the others shift; fewer:
    no instruction, the court id is reported), goes on to the end of the
    frame and reaches the commit. *)
Theorem update_discrepancies_follows_plan (comparison_results : frame) :
  Col.Mismatch_Address ∈ columns comparison_results ->
  "courtid" ∈ columns comparison_results ->
  Col.Address_to_update ∈ columns comparison_results ->
  Col.Phone_to_update ∈ columns comparison_results ->
  (forall row, In row (rows comparison_results) ->
     needs_update row = true ->
     exists s, Df.cell row Col.Address_to_update = VStr s) ->
  update_discrepancies comparison_results
  = (map planned_action
       (List.filter needs_update (rows comparison_results)), Ok tt).
Proof.
  intros Hm Hc Ha Hp Hstr. unfold update_discrepancies.
  rewrite (has_column_in _ _ Hm).
  apply plan_rows_planned; try assumption.
  intros row Hrow. apply filter_In in Hrow as [Hin Hneed].
  apply Hstr; assumption.
Qed.

Lemma update_discrepancies_follows_plan_witness :
  update_discrepancies sample_results
  = (map planned_action (List.filter needs_update (rows sample_results)),
     Ok tt).
Proof.
  apply (update_discrepancies_follows_plan sample_results).
  - vm_compute. reflexivity.
  - vm_compute. reflexivity.
  - vm_compute. reflexivity.
  - vm_compute. reflexivity.
  - assert (Hall : forallb
                     (fun row => Py.is_str (Df.cell row Col.Address_to_update))
                     (rows sample_results) = true)
      by (vm_compute; reflexivity).
    intros row Hin _. rewrite forallb_forall in Hall.
    apply is_str_inv. apply Hall. exact Hin.
Defined.

Example update_discrepancies_sample :
  update_discrepancies sample_results
  = ([ Execute (Instruction (VStr (lit "1 Main St")) VNone
                  (VStr (lit "Springfield")) (VStr (lit "Springfield"))
                  (VStr (lit "IL")) (VStr (lit "62701"))
                  (VStr (lit "555-0101")) (VInt 1));
       Execute (Instruction (VStr (lit "1 Main St")) (VStr (lit "Suite 2"))
                  (VStr (lit "Springfield")) (VStr (lit "Springfield"))
                  (VStr (lit "IL")) (VStr (lit "62701"))
                  (VStr (lit "555-0103")) (VInt 3));
       Skipped (VInt 5);
       Execute (Instruction (VStr (lit "8 Elm Rd")) (VStr (lit "Annex"))
                  (VStr (lit "Wing B")) (VStr (lit "Wing B"))
                  (VStr (lit "Peoria")) (VStr (lit "IL"))
                  (VStr []) (VInt 6)) ],
     Ok tt).
Proof. vm_compute. reflexivity. Qed.

(** ** Frame of the matching pass *)

Lemma same_outside_refl (r : gmap string pyval) : same_outside r r.
Proof. intros c _. reflexivity. Qed.

Lemma same_outside_insert (r r' : gmap string pyval) (c : string)
    (v : pyval) :
  In c derived_columns -> same_outside r r' ->
  same_outside r (<[ c := v ]> r').
Proof.
  intros Hc H c' Hc'. rewrite lookup_insert_ne; [apply H; exact Hc'|].
  intros ->. contradiction.
Qed.

Ltac derived :=
  unfold derived_columns; simpl; tauto.

Lemma same_outside_prepared (cols : gset string) (r : gmap string pyval) :
  same_outside r (prepared_federal_row cols r).
Proof.
  unfold prepared_federal_row.
  repeat (apply same_outside_insert; [derived|]). apply same_outside_refl.
Qed.

Lemma same_outside_judge (label : list ascii) (gcols : gset string)
    (g : gmap string pyval) (fa : pyval) (r0 r r' : gmap string pyval) :
  same_outside r0 r -> judge label gcols g fa r = Ok r' ->
  same_outside r0 r'.
Proof.
  intros H0 H. apply judge_cases in H as [-> | ->];
    unfold verdict_match, verdict_mismatch;
    repeat (apply same_outside_insert; [derived|]); exact H0.
Qed.

Lemma same_outside_compare_row (gov : frame) (fcols : gset string)
    (r0 r r' : gmap string pyval) :
  same_outside r0 r -> compare_row gov fcols r = Ok r' ->
  same_outside r0 r'.
Proof.
  intros H0 H. apply compare_row_cases in H as [->|(l & g & fa & _ & Hj)].
  - exact H0.
  - eapply same_outside_judge; eassumption.
Qed.

Lemma same_outside_compare_rows (gov : frame) (fcols : gset string)
    (orig todo : list (gmap string pyval)) :
  Forall2 same_outside orig todo ->
  Forall2 same_outside orig (fst (compare_rows gov fcols todo)).
Proof.
  intros H. induction H as [|r0 r orig todo Hr Hrest IH]; [constructor|].
  cbn [compare_rows].
  destruct (compare_row gov fcols r) as [r'|e] eqn:Hc.
  - destruct (compare_rows gov fcols todo) as [rest' o]. cbn [fst] in *.
    constructor; [|exact IH].
    eapply same_outside_compare_row; eassumption.
  - cbn [fst]. constructor; assumption.
Qed.

Lemma compare_data_columns (federal_data gov_data : frame) :
  columns (fst (compare_data federal_data gov_data))
  = columns (prepare_federal federal_data).
Proof.
  unfold compare_data. destruct (compare_rows _ _ _). reflexivity.
Qed.

(** C9: whether [compare_data] returns or raises, the federal frame it
    leaves has the rows of the input frame, in order and in number, and
    each of them holds under every column other than [Full_Address],
    [Matched_in], [Mismatch_Address], [Address_to_update] and
    [Phone_to_update] what the input row held; the frame has such a column
    exactly when the input frame had it. *)
Theorem compare_data_writes_only_derived_columns
    (federal_data gov_data : frame) :
  Forall2 same_outside (rows federal_data)
    (rows (fst (compare_data federal_data gov_data)))
  /\ (forall c, ~ In c derived_columns ->
        c ∈ columns (fst (compare_data federal_data gov_data))
        <-> c ∈ columns federal_data).
Proof.
  split.
  - rewrite compare_data_rows. apply same_outside_compare_rows.
    rewrite prepare_federal_rows.
    induction (rows federal_data) as [|r l IH]; constructor;
      [apply same_outside_prepared | exact IH].
  - intros c Hc. rewrite compare_data_columns, prepare_federal_columns.
    unfold derived_columns in Hc. simpl in Hc.
    rewrite !elem_of_union, !elem_of_singleton. split; [|tauto].
    intros H. repeat destruct H as [H|H]; try exact H;
      exfalso; apply Hc; subst c; tauto.
Qed.

Example compare_data_keeps_sample_fields :
  let out := fst (compare_data sample_federal district_first_gov) in
  map (fun r => (r !! "courtid", r !! "address1", r !! "zipcode",
                 r !! "phone", r !! "Key", r !! "Desc")) (rows out)
  = map (fun r => (r !! "courtid", r !! "address1", r !! "zipcode",
                   r !! "phone", r !! "Key", r !! "Desc"))
      (rows sample_federal).
Proof. vm_compute. reflexivity. Qed.

(** ** ZIP codes *)

Lemma get_insert_ne (cols : gset string) (r : gmap string pyval)
    (c c' : string) (v d : pyval) :
  c' <> c -> Df.get cols (<[ c' := v ]> r) c d = Df.get cols r c d.
Proof.
  intros H. unfold Df.get. rewrite cell_insert_ne by exact H. reflexivity.
Qed.

Lemma gov_zip_prefix (cols : gset string) (g : gmap string pyval)
    (z1 z2 : pyval) :
  Str.prefix 5 (Py.str z1) = Str.prefix 5 (Py.str z2) ->
  gov_zip cols (<[ "BuildingZip"%string := z1 ]> g)
  = gov_zip cols (<[ "BuildingZip"%string := z2 ]> g).
Proof.
  intros H. unfold gov_zip, Df.get.
  destruct (decide ("BuildingZip"%string ∈ cols)); [|reflexivity].
  rewrite !cell_insert_eq, H. reflexivity.
Qed.

Lemma same_but_zip_cell (g g' : gmap string pyval) (c : string) :
  same_but_zip g g' -> c <> "BuildingZip"%string -> Df.cell g c = Df.cell g' c.
Proof. intros H Hc. unfold Df.cell. rewrite (H c Hc). reflexivity. Qed.

Lemma same_but_zip_refl (g : gmap string pyval) : same_but_zip g g.
Proof. intros c _. reflexivity. Qed.

Lemma same_but_zip_insert (g g' : gmap string pyval) (c : string)
    (v : pyval) :
  same_but_zip g g' -> same_but_zip (<[ c := v ]> g) (<[ c := v ]> g').
Proof.
  intros H c' Hc'. destruct (decide (c = c')) as [->|Hne].
  - rewrite !lookup_insert_eq. reflexivity.
  - rewrite !lookup_insert_ne by exact Hne. apply H. exact Hc'.
Qed.

Lemma same_but_zip_zip (g : gmap string pyval) (z1 z2 : pyval) :
  same_but_zip (<[ "BuildingZip"%string := z1 ]> g)
    (<[ "BuildingZip"%string := z2 ]> g).
Proof.
  intros c Hc. rewrite !lookup_insert_ne by congruence. reflexivity.
Qed.

Lemma select_same_but_zip (lowered : bool) (c : string) (v : pyval)
    (rs rs' : list (gmap string pyval)) :
  c <> "BuildingZip"%string ->
  Forall2 same_but_zip rs rs' ->
  Forall2 same_but_zip (select lowered c v rs) (select lowered c v rs').
Proof.
  intros Hc H. unfold select.
  induction H as [|g g' rs rs' Hg Hrs IH]; [constructor|].
  cbn [List.filter]. rewrite (same_but_zip_cell g g' c Hg Hc).
  destruct (Py.eq_cell _ v); [constructor; assumption | exact IH].
Qed.

Lemma judge_same_but_zip (label : list ascii) (gcols : gset string)
    (g g' : gmap string pyval) (fa : pyval) (r : gmap string pyval) :
  same_but_zip g g' ->
  judge label gcols g fa r = judge label gcols g' fa r.
Proof.
  intros H. unfold judge, Df.item, Df.get.
  rewrite (same_but_zip_cell g g' Col.Full_Address H) by col_neq.
  rewrite (same_but_zip_cell g g' Col.Full_Address_With_BuildingName H)
    by col_neq.
  rewrite (same_but_zip_cell g g' "BuildingAddress" H) by discriminate.
  rewrite (same_but_zip_cell g g' "Phone" H) by discriminate.
  reflexivity.
Qed.

Lemma cells_same_but_zip (c : string) (rs rs' : list (gmap string pyval)) :
  c <> "BuildingZip"%string ->
  Forall2 same_but_zip rs rs' -> cells_of c rs = cells_of c rs'.
Proof.
  intros Hc H. unfold cells_of.
  induction H as [|g g' rs rs' Hg _ IH]; [reflexivity|]. cbn [map].
  rewrite (same_but_zip_cell g g' c Hg Hc), IH. reflexivity.
Qed.

Lemma compare_row_same_but_zip (gov gov' : frame) (fcols : gset string)
    (r : gmap string pyval) :
  columns gov = columns gov' ->
  Forall2 same_but_zip (rows gov) (rows gov') ->
  compare_row gov fcols r = compare_row gov' fcols r.
Proof.
  intros Hcols Hrows. rewrite !compare_row_once. cbv zeta. rewrite <- Hcols.
  set (key := Df.get fcols r "Key" empty_str).
  assert (Hm : Forall2 same_but_zip (select false "Key" key (rows gov))
                 (select false "Key" key (rows gov')))
    by (apply select_same_but_zip; [discriminate | exact Hrows]).
  assert (Hb := select_same_but_zip true "CourtType"
                  (VStr (lit "bankruptcy court")) _ _ ltac:(discriminate) Hm).
  assert (Hd := select_same_but_zip true "CourtType"
                  (VStr (lit "district court")) _ _ ltac:(discriminate) Hm).
  destruct (Df.item fcols r Col.Full_Address) as [fa|e]; [|reflexivity].
  destruct (has_column (columns gov) "Key"); [|reflexivity].
  destruct (has_column (columns gov) "CourtType"); [|reflexivity].
  cbn [bind].
  rewrite <- (cells_same_but_zip "CourtType" _ _ ltac:(discriminate) Hm).
  destruct (str_accessor _) as [[]|e]; [|reflexivity]. cbn [bind].
  destruct Hb as [|g g' ? ? Hg _].
  - destruct Hd as [|g g' ? ? Hg _]; [reflexivity|].
    apply judge_same_but_zip. exact Hg.
  - apply judge_same_but_zip. exact Hg.
Qed.

Lemma compare_rows_same_but_zip (gov gov' : frame) (fcols : gset string)
    (todo : list (gmap string pyval)) :
  columns gov = columns gov' ->
  Forall2 same_but_zip (rows gov) (rows gov') ->
  compare_rows gov fcols todo = compare_rows gov' fcols todo.
Proof.
  intros Hcols Hrows. induction todo as [|r todo IH]; [reflexivity|].
  cbn [compare_rows].
  rewrite (compare_row_same_but_zip gov gov' fcols r Hcols Hrows), IH.
  reflexivity.
Qed.

Lemma gov_formats_prefix (cols : gset string) (g : gmap string pyval)
    (z1 z2 : pyval) :
  Str.prefix 5 (Py.str z1) = Str.prefix 5 (Py.str z2) ->
  gov_format cols (<[ "BuildingZip"%string := z1 ]> g)
  = gov_format cols (<[ "BuildingZip"%string := z2 ]> g)
  /\ gov_format_with_name cols (<[ "BuildingZip"%string := z1 ]> g)
     = gov_format_with_name cols (<[ "BuildingZip"%string := z2 ]> g).
Proof.
  intros H. unfold gov_format, gov_format_with_name.
  rewrite (gov_zip_prefix cols g z1 z2 H).
  rewrite !get_insert_ne by discriminate. split; reflexivity.
Qed.


(** ** Character classes *)

Ltac all_chars c :=
  destruct c as [[] [] [] [] [] [] [] []]; vm_compute; reflexivity.

Lemma is_word_lower (c : ascii) : Chr.is_word (Chr.lower c) = Chr.is_word c.
Proof. all_chars c. Qed.

Lemma isspace_lower (c : ascii) : Chr.isspace (Chr.lower c) = Chr.isspace c.
Proof. all_chars c. Qed.

Lemma lower_lower (c : ascii) : Chr.lower (Chr.lower c) = Chr.lower c.
Proof. all_chars c. Qed.

Lemma is_hash_lower (c : ascii) : is_hash (Chr.lower c) = is_hash c.
Proof. all_chars c. Qed.

Lemma space_not_word (c : ascii) :
  Chr.isspace c && Chr.is_word c = false.
Proof. all_chars c. Qed.

Lemma hash_not_word (c : ascii) : is_hash c && Chr.is_word c = false.
Proof. all_chars c. Qed.

Lemma ci_eq_hash (c : ascii) : Chr.ci_eq c "#" = is_hash c.
Proof. all_chars c. Qed.

Lemma ci_eq_word (c p : ascii) :
  Chr.ci_eq c p = true -> Chr.is_word c = Chr.is_word p.
Proof.
  unfold Chr.ci_eq. intros H. apply bool_decide_eq_true in H.
  rewrite <- (is_word_lower c), <- (is_word_lower p), H. reflexivity.
Qed.

(** ** Tokens *)

Lemma untok_cons (t : token) (ts : list token) :
  untok (t :: ts) = snd t ++ untok ts.
Proof. reflexivity. Qed.

Lemma untok_tokens (s : list ascii) : untok (tokens s) = s.
Proof.
  induction s as [|c r IH]; [reflexivity|]. cbn [tokens].
  destruct (tokens r) as [|[k t] ts].
  - cbn in IH. subst r. reflexivity.
  - destruct (Bool.eqb k (Chr.is_word c)); rewrite <- IH; reflexivity.
Qed.

Lemma wf_tokens_cons (t : token) (ts : list token) :
  wf_tokens (t :: ts)
  <-> snd t <> []
      /\ Forall (fun c => Chr.is_word c = fst t) (snd t)
      /\ match ts with
         | t' :: _ => fst t' = negb (fst t)
         | [] => True
         end
      /\ wf_tokens ts.
Proof. reflexivity. Qed.

Lemma wf_tokens_tokens (s : list ascii) : wf_tokens (tokens s).
Proof.
  induction s as [|c r IH]; [exact I|]. cbn [tokens].
  destruct (tokens r) as [|[k t] ts].
  - apply wf_tokens_cons. cbn [fst snd].
    split; [discriminate|]. split; [|split; exact I].
    constructor; [reflexivity|constructor].
  - destruct (Bool.eqb k (Chr.is_word c)) eqn:Hk.
    + apply eqb_prop in Hk. apply wf_tokens_cons in IH.
      cbn [fst snd] in IH. destruct IH as (Hne & Hall & Hnext & Hwf).
      apply wf_tokens_cons. cbn [fst snd].
      split; [discriminate|]. split; [|split; assumption].
      constructor; [congruence | exact Hall].
    + apply eqb_false_iff in Hk. apply wf_tokens_cons. cbn [fst snd].
      split; [discriminate|]. split; [|split; [|exact IH]].
      * constructor; [reflexivity|constructor].
      * destruct k, (Chr.is_word c); simpl; try reflexivity;
          exfalso; apply Hk; reflexivity.
Qed.

Lemma ci_eqb_length (a b : list ascii) :
  ci_eqb a b = true -> length a = length b.
Proof.
  revert b. induction a as [|c a IH]; intros [|p b]; simpl;
    try discriminate; [reflexivity|].
  intros H. apply andb_prop in H as [_ H]. f_equal. apply IH. exact H.
Qed.

Lemma ci_eqb_lower (a b : list ascii) :
  ci_eqb a b = true <-> Str.lower a = Str.lower b.
Proof.
  revert b. induction a as [|c a IH]; intros [|p b]; simpl;
    try (split; [discriminate | discriminate]); [tauto|].
  unfold Chr.ci_eq. rewrite andb_true_iff, bool_decide_eq_true, IH.
  split; [intros [-> ->]; reflexivity | intros [= -> ->]; tauto].
Qed.

Lemma last_or_cons (prev : option ascii) (c : ascii) (u : list ascii) :
  last_or prev (c :: u) = last_or (Some c) u.
Proof.
  unfold last_or. destruct u as [|d u]; [reflexivity|].
  change (last (c :: d :: u)) with (last (d :: u)).
  destruct (last (d :: u)) eqn:H; [reflexivity|].
  apply last_None in H. discriminate.
Qed.

Lemma last_or_word (prev : option ascii) (u : list ascii) (k : bool) :
  u <> [] -> Forall (fun c => Chr.is_word c = k) u ->
  Re.word_opt (last_or prev u) = k.
Proof.
  revert prev. induction u as [|c u IH]; intros prev Hne Hall; [congruence|].
  rewrite last_or_cons. apply Forall_cons in Hall as [Hc Hu].
  destruct u as [|d u]; [exact Hc|]. apply IH; [discriminate | exact Hu].
Qed.

(** ** Matches of a word pattern *)

Lemma all_word_Forall (s : list ascii) :
  all_word s = true <-> Forall (fun c => Chr.is_word c = true) s.
Proof.
  unfold all_word. rewrite forallb_forall, Forall_forall.
  split; intros H c Hc; apply H; apply list_elem_of_In; exact Hc.
Qed.

Lemma ci_eqb_all_word (m pat : list ascii) :
  ci_eqb m pat = true -> all_word pat = true ->
  Forall (fun c => Chr.is_word c = true) m.
Proof.
  revert pat. induction m as [|c m IH]; intros [|p pat]; simpl;
    try discriminate; [constructor|].
  intros H Hp. apply andb_prop in H as [Hc Hm].
  apply andb_prop in Hp as [Hp Hpat].
  constructor; [rewrite (ci_eq_word c p Hc); exact Hp | eauto].
Qed.

Lemma match_lit_app (pat s rest : list ascii) :
  Re.match_lit pat s = Some rest ->
  exists m, s = m ++ rest /\ ci_eqb m pat = true.
Proof.
  revert s. induction pat as [|p pat IH]; intros s H; simpl in H.
  - injection H as <-. exists []. split; reflexivity.
  - destruct s as [|c s]; [discriminate|].
    destruct (Chr.ci_eq c p) eqn:Hc; [|discriminate].
    destruct (IH s H) as (m & -> & Hm). exists (c :: m).
    split; [reflexivity|]. simpl. rewrite Hc, Hm. reflexivity.
Qed.

Lemma last_nonempty_word (m : list ascii) :
  m <> [] -> Forall (fun c => Chr.is_word c = true) m ->
  Re.word_opt (last m) = true.
Proof.
  intros Hne Hall. pose proof (last_or_word None m true Hne Hall) as H.
  unfold last_or in H. destruct (last m); [exact H | discriminate].
Qed.

Lemma match_lit_last_word (pat s rest : list ascii) :
  pat <> [] -> all_word pat = true ->
  Re.match_lit pat s = Some rest ->
  Re.word_opt (last (firstn (length pat) s)) = true.
Proof.
  intros Hne Hw H. destruct (match_lit_app pat s rest H) as (m & -> & Hm).
  rewrite <- (ci_eqb_length m pat Hm).
  rewrite firstn_app, Nat.sub_diag, firstn_all. simpl. rewrite app_nil_r.
  apply last_nonempty_word.
  - apply ci_eqb_length in Hm. destruct m, pat; simpl in *; congruence.
  - apply (ci_eqb_all_word m pat Hm Hw).
Qed.

Lemma match_lit_word_token (pat t rest : list ascii) :
  all_word pat = true ->
  Forall (fun c => Chr.is_word c = true) t ->
  Re.word_opt (head rest) = false ->
  match Re.match_lit pat (t ++ rest) with
  | Some rest' => negb (Re.word_opt (head rest'))
  | None => false
  end = ci_eqb t pat.
Proof.
  intros Hpat Ht Hrest. revert t Ht.
  induction pat as [|p pat IH]; intros t Ht.
  - simpl. destruct t as [|c t]; simpl.
    + rewrite Hrest. reflexivity.
    + apply Forall_cons in Ht as [Hc _]. rewrite Hc. reflexivity.
  - simpl in Hpat. apply andb_prop in Hpat as [Hp Hpat].
    destruct t as [|c t].
    + simpl. destruct rest as [|c r]; [reflexivity|].
      destruct (Chr.ci_eq c p) eqn:Hc; [|reflexivity].
      apply ci_eq_word in Hc. simpl in Hrest. congruence.
    + apply Forall_cons in Ht as [_ Ht]. simpl.
      destruct (Chr.ci_eq c p); [apply IH; assumption | reflexivity].
Qed.

Lemma matches_at_word_token (pat t rest : list ascii)
    (prev : option ascii) :
  pat <> [] -> all_word pat = true ->
  t <> [] -> Forall (fun c => Chr.is_word c = true) t ->
  Re.word_opt prev = false ->
  Re.word_opt (head rest) = false ->
  Re.matches_at pat prev (t ++ rest) = ci_eqb t pat.
Proof.
  intros Hne Hpat Htne Ht Hprev Hrest. unfold Re.matches_at.
  pose proof (match_lit_word_token pat t rest Hpat Ht Hrest) as He.
  assert (Hb : Re.boundary prev (head (t ++ rest)) = true).
  { destruct t as [|c t]; [congruence|]. apply Forall_cons in Ht as [Hc _].
    unfold Re.boundary. simpl. rewrite Hprev, Hc. reflexivity. }
  rewrite Hb. cbn [andb].
  destruct (Re.match_lit pat (t ++ rest)) as [rest'|] eqn:Hm; [|exact He].
  unfold Re.boundary. rewrite (match_lit_last_word pat _ rest' Hne Hpat Hm).
  exact He.
Qed.

Lemma sub_from_skip (pat repl u rest : list ascii) (prev : option ascii) :
  Re.sub_from pat repl (length u) prev (u ++ rest)
  = Re.sub_from pat repl 0 (last_or prev u) rest.
Proof.
  revert prev. induction u as [|c u IH]; intros prev; [reflexivity|].
  rewrite last_or_cons. simpl. apply IH.
Qed.

Lemma sub_from_word_run (pat repl t rest : list ascii)
    (prev : option ascii) :
  Forall (fun c => Chr.is_word c = true) t ->
  Re.word_opt prev = true ->
  Re.sub_from pat repl 0 prev (t ++ rest)
  = t ++ Re.sub_from pat repl 0 (last_or prev t) rest.
Proof.
  revert prev. induction t as [|c t IH]; intros prev Ht Hprev;
    [reflexivity|].
  apply Forall_cons in Ht as [Hc Ht]. rewrite last_or_cons.
  cbn [app Re.sub_from]. unfold Re.matches_at at 1, Re.boundary at 1.
  cbn [head]. rewrite Hprev. cbn [Re.word_opt]. rewrite Hc. cbn [xorb andb].
  f_equal. apply IH; assumption.
Qed.

Lemma sub_from_nonword_run (p : ascii) (pat repl t rest : list ascii)
    (prev : option ascii) :
  Chr.is_word p = true ->
  Forall (fun c => Chr.is_word c = false) t ->
  Re.sub_from (p :: pat) repl 0 prev (t ++ rest)
  = t ++ Re.sub_from (p :: pat) repl 0 (last_or prev t) rest.
Proof.
  intros Hp. revert prev. induction t as [|c t IH]; intros prev Ht;
    [reflexivity|].
  apply Forall_cons in Ht as [Hc Ht]. rewrite last_or_cons.
  cbn [app Re.sub_from]. unfold Re.matches_at at 1. cbn [Re.match_lit].
  destruct (Chr.ci_eq c p) eqn:Hcp.
  - apply ci_eq_word in Hcp. congruence.
  - rewrite andb_false_r. f_equal. apply IH. exact Ht.
Qed.

Lemma head_untok (t : token) (ts : list token) :
  wf_tokens (t :: ts) -> Re.word_opt (head (untok (t :: ts))) = fst t.
Proof.
  intros H. apply wf_tokens_cons in H as (Hne & Hall & _ & _).
  rewrite untok_cons. destruct (snd t) as [|c u]; [congruence|].
  apply Forall_cons in Hall as [Hc _]. exact Hc.
Qed.

Lemma head_after_word (t : token) (ts : list token) :
  wf_tokens (t :: ts) -> fst t = true ->
  Re.word_opt (head (untok ts)) = false.
Proof.
  intros H Hk. apply wf_tokens_cons in H as (_ & _ & Hnext & Hwf).
  destruct ts as [|t' ts]; [reflexivity|].
  rewrite (head_untok t' ts Hwf), Hnext, Hk. reflexivity.
Qed.

Lemma ctx_ok_next (prev : option ascii) (t : token) (ts : list token) :
  wf_tokens (t :: ts) -> ctx_ok (last_or prev (snd t)) ts.
Proof.
  intros H. apply wf_tokens_cons in H as (Hne & Hall & Hnext & _).
  destruct ts as [|t' ts]; [exact I|]. intros Hk. cbn [ctx_ok].
  rewrite (last_or_word prev (snd t) (fst t) Hne Hall).
  rewrite Hk in Hnext. destruct (fst t); [discriminate | reflexivity].
Qed.

(** On a subject cut into tokens, a substitution of a word pattern is the
    replacement of the word tokens that equal the pattern up to case. *)
Lemma sub_from_tokens (pat repl : list ascii) (ts : list token)
    (prev : option ascii) :
  pat <> [] -> all_word pat = true ->
  wf_tokens ts -> ctx_ok prev ts ->
  Re.sub_from pat repl 0 prev (untok ts)
  = untok (map (expand pat repl) ts).
Proof.
  intros Hne Hpat. revert prev.
  induction ts as [|[k t] ts IH]; intros prev Hwf Hctx; [reflexivity|].
  pose proof (ctx_ok_next prev _ _ Hwf) as Hnext.
  pose proof Hwf as Hwf0.
  apply wf_tokens_cons in Hwf as (Htne & Hall & _ & Hwf').
  cbn [fst snd] in *. cbn [map]. rewrite !untok_cons. cbn [snd].
  destruct k.
  - (* a word token *)
    pose proof (head_after_word _ _ Hwf0 eq_refl) as Hrest.
    specialize (Hctx eq_refl).
    pose proof (matches_at_word_token pat t (untok ts) prev Hne Hpat Htne
                  Hall Hctx Hrest) as Hm.
    unfold expand. cbn [fst snd andb].
    destruct t as [|c t]; [congruence|]. cbn [app Re.sub_from].
    cbn [app] in Hm. rewrite Hm.
    destruct (ci_eqb (c :: t) pat) eqn:Heq.
    + apply ci_eqb_length in Heq. cbn [length] in Heq. rewrite <- Heq.
      cbn [Nat.sub]. rewrite Nat.sub_0_r, sub_from_skip.
      rewrite <- last_or_cons with (prev := prev).
      rewrite (IH _ Hwf' Hnext). reflexivity.
    + apply Forall_cons in Hall as [Hc Ht]. cbn [snd].
      rewrite sub_from_word_run by assumption.
      rewrite <- last_or_cons with (prev := prev).
      rewrite (IH _ Hwf' Hnext). reflexivity.
  - (* a token outside \w *)
    unfold expand at 1. cbn [fst snd andb].
    destruct pat as [|p pat]; [congruence|].
    cbn [all_word forallb] in Hpat. apply andb_prop in Hpat as [Hp Hpat'].
    rewrite (sub_from_nonword_run p pat repl t _ prev Hp Hall).
    rewrite (IH _ Hwf' Hnext). reflexivity.
Qed.

Lemma expand_fst (pat repl : list ascii) (t : token) :
  fst (expand pat repl t) = fst t.
Proof.
  unfold expand. destruct t as [[] t]; cbn [fst snd andb]; [|reflexivity].
  destruct (ci_eqb t pat); reflexivity.
Qed.

Lemma wf_tokens_expand (pat repl : list ascii) (ts : list token) :
  repl <> [] -> all_word repl = true ->
  wf_tokens ts -> wf_tokens (map (expand pat repl) ts).
Proof.
  intros Hne Hrepl. induction ts as [|t ts IH]; intros Hwf; [exact I|].
  apply wf_tokens_cons in Hwf as (Htne & Hall & Hnext & Hwf).
  cbn [map]. apply wf_tokens_cons. rewrite expand_fst.
  split; [|split; [|split; [|apply IH; exact Hwf]]].
  - unfold expand. destruct (fst t && ci_eqb (snd t) pat); assumption.
  - unfold expand. destruct (fst t && ci_eqb (snd t) pat) eqn:H;
      [|exact Hall].
    apply andb_prop in H as [-> _]. apply all_word_Forall. exact Hrepl.
  - destruct ts as [|t' ts]; [exact I|]. cbn [map]. rewrite expand_fst.
    exact Hnext.
Qed.

Lemma str_eqb_nil (s : list ascii) : str_eqb s [] = false <-> s <> [].
Proof. unfold str_eqb. apply bool_decide_eq_false. Qed.

Lemma apply_replacements_tokens (table : list (list ascii * list ascii))
    (ts : list token) :
  word_table table = true -> wf_tokens ts ->
  apply_replacements table (untok ts) = untok (map (expand_all table) ts)
  /\ wf_tokens (map (expand_all table) ts).
Proof.
  revert ts. induction table as [|[pat repl] table IH]; intros ts Htab Hwf.
  - unfold expand_all. cbn. rewrite map_id. split; [reflexivity | exact Hwf].
  - cbn [word_table forallb fst snd] in Htab.
    apply andb_prop in Htab as [Hpr Htab].
    apply andb_prop in Hpr as [Hpr Hrw].
    apply andb_prop in Hpr as [Hpr Hrne].
    apply andb_prop in Hpr as [Hpne Hpw].
    apply negb_true_iff, str_eqb_nil in Hpne, Hrne.
    destruct (IH (map (expand pat repl) ts) Htab
                (wf_tokens_expand pat repl ts Hrne Hrw Hwf)) as [Heq Hwf'].
    unfold apply_replacements in *. cbn [fold_left fst snd].
    unfold Re.sub_word.
    rewrite (sub_from_tokens pat repl ts None Hpne Hpw Hwf).
    2:{ destruct ts as [|t ts]; [exact I|]. intros _. reflexivity. }
    rewrite map_map in Heq, Hwf'. split; [exact Heq | exact Hwf'].
Qed.

Lemma replacements_split :
  replacements = word_replacements ++ [(lit "#", lit "Unit")].
Proof. reflexivity. Qed.


Lemma expand_all_other (table : list (list ascii * list ascii))
    (t : token) :
  fst t && existsb (fun pr => ci_eqb (snd t) (fst pr)) table = false ->
  expand_all table t = t.
Proof.
  unfold expand_all. induction table as [|[pat repl] table IH]; intros H;
    [reflexivity|].
  cbn [existsb fst snd] in H. rewrite andb_orb_distrib_r in H.
  apply orb_false_iff in H as [Hp Htab].
  cbn [fold_left fst snd]. unfold expand at 2. rewrite Hp. apply IH.
  exact Htab.
Qed.

(** ** Whole-word expansion *)

(** ** Words of a token list *)

Lemma words_from_word_run (cur t rest : list ascii) :
  Forall (fun c => Chr.is_word c = true) t ->
  words_from cur (t ++ rest) = words_from (cur ++ t) rest.
Proof.
  revert cur. induction t as [|c t IH]; intros cur Ht.
  - rewrite app_nil_r. reflexivity.
  - apply Forall_cons in Ht as [Hc Ht]. cbn [app words_from]. rewrite Hc.
    rewrite IH by exact Ht. rewrite <- app_assoc. reflexivity.
Qed.

Lemma words_from_nonword_run (cur t rest : list ascii) :
  t <> [] -> Forall (fun c => Chr.is_word c = false) t ->
  words_from cur (t ++ rest) = flush cur ++ words_from [] rest.
Proof.
  revert cur. induction t as [|c t IH]; intros cur Hne Ht; [congruence|].
  apply Forall_cons in Ht as [Hc Ht]. cbn [app words_from]. rewrite Hc.
  destruct t as [|d t]; [reflexivity|].
  rewrite IH by (discriminate || exact Ht). reflexivity.
Qed.

Lemma words_from_untok (ts : list token) (cur : list ascii) :
  wf_tokens ts ->
  (cur <> [] -> match ts with t :: _ => fst t = false | [] => True end) ->
  words_from cur (untok ts)
  = flush cur ++ map snd (List.filter fst ts).
Proof.
  revert cur. induction ts as [|[k t] ts IH]; intros cur Hwf Hcur.
  - cbn. rewrite app_nil_r. reflexivity.
  - pose proof Hwf as Hwf0.
    apply wf_tokens_cons in Hwf as (Hne & Hall & Hnext & Hwf).
    cbn [fst snd] in *. rewrite untok_cons. cbn [snd List.filter fst].
    destruct k.
    + assert (Hc : cur = []).
      { destruct cur; [reflexivity|].
        assert (true = false) by (apply Hcur; discriminate). discriminate. }
      subst cur. rewrite words_from_word_run by exact Hall. cbn [app].
      rewrite IH; [|exact Hwf|].
      * destruct t; [congruence | reflexivity].
      * intros _. destruct ts as [|t' ts]; [exact I | exact Hnext].
    + rewrite words_from_nonword_run by assumption.
      rewrite IH; [reflexivity | exact Hwf | congruence].
Qed.

Lemma words_of_tokens (ts : list token) :
  wf_tokens ts -> words_from [] (untok ts) = map snd (List.filter fst ts).
Proof.
  intros Hwf. rewrite words_from_untok; [reflexivity | exact Hwf | congruence].
Qed.

(** ** What the word patterns leave *)

Lemma expand_word (pat repl t : list ascii) :
  expand pat repl (true, t) = (true, if ci_eqb t pat then repl else t).
Proof. unfold expand. cbn. destruct (ci_eqb t pat); reflexivity. Qed.

Lemma expand_all_word_result (table : list (list ascii * list ascii))
    (t : list ascii) :
  exists r,
    expand_all table (true, t) = (true, r)
    /\ ((r = t /\ existsb (fun pr => ci_eqb t (fst pr)) table = false)
        \/ exists pr, In pr table /\ r = snd pr).
Proof.
  revert t. induction table as [|[pat repl] table IH]; intros t.
  - exists t. split; [reflexivity|]. left. split; reflexivity.
  - unfold expand_all. cbn [fold_left fst snd]. rewrite expand_word.
    fold (expand_all table (true, if ci_eqb t pat then repl else t)).
    destruct (ci_eqb t pat) eqn:Hm.
    + destruct (IH repl) as (r & Hr & [[Hrr _]|(pr & Hin & Hrr)]);
        exists r; (split; [exact Hr|]); right.
      * exists (pat, repl). split; [left; reflexivity | exact Hrr].
      * exists pr. split; [right; exact Hin | exact Hrr].
    + destruct (IH t) as (r & Hr & [[-> Hnone]|(pr & Hin & ->)]).
      * exists t. split; [exact Hr|]. left. split; [reflexivity|].
        cbn [existsb fst]. rewrite Hm, Hnone. reflexivity.
      * exists (snd pr). split; [exact Hr|]. right. exists pr.
        split; [right; exact Hin | reflexivity].
Qed.

Lemma stable_word_other (t : list ascii) :
  is_abbreviation t = false -> stable_word t = true.
Proof.
  unfold is_abbreviation, stable_word.
  induction word_replacements as [|pr l IH]; [reflexivity|].
  cbn [existsb forallb]. intros H. apply orb_false_iff in H as [-> H].
  cbn. apply IH. exact H.
Qed.

Lemma stable_word_replacement (pr : list ascii * list ascii) :
  In pr word_replacements -> stable_word (snd pr) = true.
Proof.
  assert (H : forallb (fun pr => stable_word (snd pr)) word_replacements
              = true) by (vm_compute; reflexivity).
  rewrite forallb_forall in H. apply H.
Qed.

Lemma stable_word_expand_all (t : list ascii) :
  exists r, expand_all word_replacements (true, t) = (true, r)
            /\ stable_word r = true.
Proof.
  destruct (expand_all_word_result word_replacements t)
    as (r & Hr & [[-> Hnone]|(pr & Hin & ->)]);
    eexists; (split; [exact Hr|]).
  - apply stable_word_other. exact Hnone.
  - apply stable_word_replacement. exact Hin.
Qed.

Lemma stable_word_long (t : list ascii) :
  5 <= length t -> stable_word t = true.
Proof.
  intros Hlen. apply stable_word_other. unfold is_abbreviation.
  assert (H : forallb (fun pr => length (fst pr) <=? 4) word_replacements
              = true) by (vm_compute; reflexivity).
  rewrite forallb_forall in H.
  destruct (existsb _ word_replacements) eqn:He; [|reflexivity].
  apply existsb_exists in He as (pr & Hin & Hm).
  apply ci_eqb_length in Hm. apply H in Hin. apply Nat.leb_le in Hin. lia.
Qed.

Lemma expand_all_fst (table : list (list ascii * list ascii)) (t : token) :
  fst (expand_all table t) = fst t.
Proof.
  unfold expand_all. revert t.
  induction table as [|pr table IH]; intros t; [reflexivity|].
  cbn [fold_left]. rewrite IH. apply expand_fst.
Qed.

Lemma stable_after_expand (ts : list token) :
  Forall (fun t => stable_word t = true)
    (map snd (List.filter fst (map (expand_all word_replacements) ts))).
Proof.
  induction ts as [|[k s] ts IH]; [constructor|]. cbn [map List.filter].
  pose proof (expand_all_fst word_replacements (k, s)) as Hk.
  destruct k.
  - destruct (stable_word_expand_all s) as (r & Hr & Hst). rewrite Hr.
    cbn [fst List.filter map snd]. constructor; assumption.
  - cbn [fst] in Hk. rewrite Hk. exact IH.
Qed.

Lemma lower_app (a b : list ascii) :
  Str.lower (a ++ b) = Str.lower a ++ Str.lower b.
Proof. apply map_app. Qed.

Lemma lower_expand_all_stable_from (table : list (list ascii * list ascii))
    (t acc : list ascii) :
  forallb (fun pr => implb (ci_eqb t (fst pr)) (ci_eqb (snd pr) (fst pr)))
    table = true ->
  Str.lower acc = Str.lower t ->
  Str.lower (snd (expand_all table (true, acc))) = Str.lower t.
Proof.
  revert acc. induction table as [|[pat repl] table IH]; intros acc Htab Hacc;
    [exact Hacc|].
  cbn [forallb fst snd] in Htab. apply andb_prop in Htab as [Hpr Htab].
  unfold expand_all. cbn [fold_left fst snd]. rewrite expand_word.
  apply (IH _ Htab). destruct (ci_eqb acc pat) eqn:Hm; [|exact Hacc].
  apply ci_eqb_lower in Hm.
  assert (Ht : ci_eqb t pat = true) by (apply ci_eqb_lower; congruence).
  rewrite Ht in Hpr. cbn in Hpr. apply ci_eqb_lower in Hpr. congruence.
Qed.

Lemma lower_untok_map (f : token -> token) (ts : list token) :
  (forall t, In t ts -> Str.lower (snd (f t)) = Str.lower (snd t)) ->
  Str.lower (untok (map f ts)) = Str.lower (untok ts).
Proof.
  induction ts as [|t ts IH]; intros H; [reflexivity|].
  cbn [map]. rewrite !untok_cons, !lower_app.
  rewrite (H t (or_introl eq_refl)), IH; [reflexivity|].
  intros t' Ht'. apply H. right. exact Ht'.
Qed.

(** On a string whose words are stable the word patterns change at most
    the case. *)
Lemma lower_apply_word_replacements (y : list ascii) :
  Forall (fun t => stable_word t = true) (words_from [] y) ->
  Str.lower (apply_replacements word_replacements y) = Str.lower y.
Proof.
  intros Hst. pose proof (wf_tokens_tokens y) as Hwf.
  rewrite <- (untok_tokens y) in Hst |- *.
  rewrite (words_of_tokens _ Hwf) in Hst.
  destruct (apply_replacements_tokens word_replacements (tokens y) eq_refl
              Hwf) as [-> _].
  apply lower_untok_map. intros [k s] Hin. destruct k.
  - apply lower_expand_all_stable_from; [|reflexivity].
    rewrite Forall_forall in Hst. apply (Hst s).
    apply list_elem_of_In. apply in_map_iff. exists (true, s).
    split; [reflexivity|]. apply filter_In. split; [exact Hin | reflexivity].
  - rewrite expand_all_other; reflexivity.
Qed.

(** ** The pattern [#] *)

Lemma sub_hash_cons (prev : option ascii) (c : ascii) (r : list ascii) :
  sub_hash prev (c :: r)
  = (if is_hash c && Re.word_opt prev && Re.word_opt (head r)
     then lit "Unit" else [c]) ++ sub_hash (Some c) r.
Proof.
  unfold sub_hash. change (lit "#") with ["#"%char].
  cbn [Re.sub_from length Nat.sub]. unfold Re.matches_at.
  cbn [Re.match_lit length firstn head]. rewrite ci_eq_hash.
  pose proof (hash_not_word c) as Hw.
  destruct (is_hash c); cbn [andb] in *.
  - unfold Re.boundary. change (take 0 r) with (@nil ascii).
    cbn [last Re.word_opt]. rewrite Hw, xorb_false_r, xorb_false_l.
    destruct (Re.word_opt prev && Re.word_opt (head r)); reflexivity.
  - rewrite andb_false_r. reflexivity.
Qed.

Lemma sub_hash_nil (prev : option ascii) : sub_hash prev [] = [].
Proof. reflexivity. Qed.

Lemma flush_stable (cur cur' : list ascii) :
  cur' = cur \/ 5 <= length cur' ->
  Forall (fun t => stable_word t = true) (flush cur) ->
  Forall (fun t => stable_word t = true) (flush cur').
Proof.
  intros [->|Hlong] H; [exact H|].
  destruct cur'; [constructor|]. constructor; [|constructor].
  apply stable_word_long. exact Hlong.
Qed.

Lemma words_sub_hash (v cur cur' : list ascii) (prev : option ascii) :
  Forall (fun t => stable_word t = true) (words_from cur v) ->
  cur' = cur \/ 5 <= length cur' ->
  (Re.word_opt prev = true -> cur' <> []) ->
  Forall (fun t => stable_word t = true)
    (words_from cur' (sub_hash prev v)).
Proof.
  revert cur cur' prev.
  induction v as [|c r IH]; intros cur cur' prev Hst Hcur Hprev.
  - cbn in *. eapply flush_stable; eassumption.
  - rewrite sub_hash_cons. cbn [words_from] in Hst.
    destruct (is_hash c && Re.word_opt prev && Re.word_opt (head r)) eqn:Hrep.
    + apply andb_prop in Hrep as [Hrep _].
      apply andb_prop in Hrep as [Hc Hp].
      pose proof (hash_not_word c) as Hw. rewrite Hc in Hw. cbn in Hw.
      rewrite Hw in Hst. apply Forall_app in Hst as [_ Hst].
      rewrite (words_from_word_run cur' (lit "Unit")).
      2:{ apply all_word_Forall. reflexivity. }
      apply (IH [] _ (Some c) Hst).
      * right. specialize (Hprev Hp). rewrite length_app.
        destruct cur'; [congruence|]. cbn. lia.
      * cbn. congruence.
    + cbn [app words_from]. destruct (Chr.is_word c) eqn:Hw.
      * apply (IH (cur ++ [c]) _ (Some c) Hst).
        -- destruct Hcur as [->|Hlong]; [left; reflexivity|].
           right. rewrite length_app. lia.
        -- intros _. destruct cur'; discriminate.
      * apply Forall_app in Hst as [Hfl Hst]. apply Forall_app. split.
        -- eapply flush_stable; eassumption.
        -- apply (IH [] [] (Some c) Hst); [left; reflexivity|].
           cbn. congruence.
Qed.

(** ** Words through [\s+] and [lower] *)

Lemma space_is_not_word (c : ascii) :
  Chr.isspace c = true -> Chr.is_word c = false.
Proof.
  intros H. pose proof (space_not_word c) as Hw. rewrite H in Hw. exact Hw.
Qed.

Lemma words_sub_spaces (s cur : list ascii) (b : bool) :
  (b = true -> cur = []) ->
  words_from cur (Re.sub_spaces_from b s) = words_from cur s.
Proof.
  revert cur b. induction s as [|c r IH]; intros cur b Hb; [reflexivity|].
  cbn [Re.sub_spaces_from words_from].
  destruct (Chr.isspace c) eqn:Hs.
  - rewrite (space_is_not_word c Hs). destruct b.
    + rewrite (Hb eq_refl). cbn [app flush]. apply IH. reflexivity.
    + cbn [app words_from]. change (Chr.is_word " ") with false.
      cbn iota. f_equal. apply IH. reflexivity.
  - cbn [words_from]. destruct (Chr.is_word c).
    + apply IH. discriminate.
    + f_equal. apply IH. discriminate.
Qed.

Lemma flush_lower (cur : list ascii) :
  flush (Str.lower cur) = map Str.lower (flush cur).
Proof. destruct cur; reflexivity. Qed.

Lemma words_lower (s cur : list ascii) :
  words_from (Str.lower cur) (Str.lower s)
  = map Str.lower (words_from cur s).
Proof.
  revert cur. induction s as [|c r IH]; intros cur.
  - apply flush_lower.
  - cbn [Str.lower map words_from]. rewrite is_word_lower.
    destruct (Chr.is_word c).
    + rewrite <- IH. rewrite lower_app. reflexivity.
    + rewrite map_app, <- flush_lower.
      change (map Chr.lower r) with (Str.lower r).
      change (@nil ascii) with (Str.lower []) at 1. rewrite IH. reflexivity.
Qed.

Lemma lower_idem (s : list ascii) : Str.lower (Str.lower s) = Str.lower s.
Proof.
  unfold Str.lower. rewrite map_map. apply map_ext. apply lower_lower.
Qed.

Lemma ci_eqb_lower_l (t p : list ascii) :
  ci_eqb (Str.lower t) p = ci_eqb t p.
Proof.
  destruct (ci_eqb t p) eqn:H.
  - apply ci_eqb_lower. rewrite lower_idem. apply ci_eqb_lower. exact H.
  - destruct (ci_eqb (Str.lower t) p) eqn:H'; [|reflexivity].
    apply ci_eqb_lower in H'. rewrite lower_idem in H'.
    apply ci_eqb_lower in H'. congruence.
Qed.

Lemma stable_word_lower (t : list ascii) :
  stable_word (Str.lower t) = stable_word t.
Proof.
  unfold stable_word. induction word_replacements as [|pr l IH];
    [reflexivity|].
  cbn [forallb]. rewrite ci_eqb_lower_l, IH. reflexivity.
Qed.

(** ** Fixed points of the pattern [#] *)

Lemma space_not_hash (c : ascii) : Chr.isspace c && is_hash c = false.
Proof. all_chars c. Qed.

Lemma sub_hash_fixed (z : list ascii) (prev : option ascii) :
  has_hash prev z = false -> sub_hash prev z = z.
Proof.
  revert prev. induction z as [|c r IH]; intros prev H; [reflexivity|].
  cbn [has_hash] in H. apply orb_false_iff in H as [Hc Hr].
  rewrite sub_hash_cons, Hc, (IH _ Hr). reflexivity.
Qed.

Lemma head_sub_hash (r : list ascii) (prev : option ascii) :
  Re.word_opt prev = false -> head (sub_hash prev r) = head r.
Proof.
  intros Hp. destruct r as [|d r]; [reflexivity|].
  rewrite sub_hash_cons, Hp, andb_false_r. reflexivity.
Qed.

Lemma has_hash_unit (prev : option ascii) (x : list ascii) :
  has_hash prev (lit "Unit" ++ x) = has_hash (Some "t"%char) x.
Proof. reflexivity. Qed.

Lemma has_hash_sub_hash (v : list ascii) (prev prev' : option ascii) :
  match v with
  | c :: _ => is_hash c = true -> Re.word_opt prev' = Re.word_opt prev
  | [] => True
  end ->
  has_hash prev' (sub_hash prev v) = false.
Proof.
  revert prev prev'. induction v as [|c r IH]; intros prev prev' Hctx;
    [reflexivity|].
  rewrite sub_hash_cons.
  destruct (is_hash c && Re.word_opt prev && Re.word_opt (head r)) eqn:Hrep.
  - rewrite has_hash_unit. apply IH.
    apply andb_prop in Hrep as [_ Hr]. destruct r as [|d r]; [exact I|].
    intros Hd. pose proof (hash_not_word d) as Hw. rewrite Hd in Hw.
    cbn in Hr, Hw. congruence.
  - cbn [app has_hash]. apply orb_false_iff. split.
    + destruct (is_hash c) eqn:Hc; [|reflexivity].
      pose proof (hash_not_word c) as Hw. rewrite Hc in Hw. cbn in Hw.
      rewrite (Hctx eq_refl), head_sub_hash by exact Hw. exact Hrep.
    + apply IH. destruct r; [exact I | reflexivity].
Qed.

Lemma head_lower_word (r : list ascii) :
  Re.word_opt (head (Str.lower r)) = Re.word_opt (head r).
Proof. destruct r as [|d r]; [reflexivity|]. apply is_word_lower. Qed.

Lemma has_hash_lower (z : list ascii) (prev prev' : option ascii) :
  Re.word_opt prev' = Re.word_opt prev ->
  has_hash prev' (Str.lower z) = has_hash prev z.
Proof.
  revert prev prev'. induction z as [|c r IH]; intros prev prev' Hp;
    [reflexivity|].
  cbn [Str.lower map has_hash]. change (map Chr.lower r) with (Str.lower r).
  rewrite is_hash_lower, Hp, head_lower_word. f_equal.
  apply IH. apply is_word_lower.
Qed.

Lemma head_sub_spaces_word (r : list ascii) :
  Re.word_opt (head (Re.sub_spaces_from false r)) = Re.word_opt (head r).
Proof.
  destruct r as [|d r]; [reflexivity|]. cbn [Re.sub_spaces_from].
  destruct (Chr.isspace d) eqn:Hd; [|reflexivity].
  cbn. rewrite (space_is_not_word d Hd). reflexivity.
Qed.

Lemma has_hash_sub_spaces (z : list ascii) (b : bool)
    (prev prev' : option ascii) :
  Re.word_opt prev' = Re.word_opt prev ->
  (b = true -> Re.word_opt prev = false) ->
  has_hash prev' (Re.sub_spaces_from b z) = has_hash prev z.
Proof.
  revert b prev prev'. induction z as [|c r IH]; intros b prev prev' Hp Hb;
    [reflexivity|].
  cbn [Re.sub_spaces_from has_hash].
  destruct (Chr.isspace c) eqn:Hs.
  - pose proof (space_not_hash c) as Hh. rewrite Hs in Hh. cbn in Hh.
    rewrite Hh. cbn [andb orb].
    pose proof (space_is_not_word c Hs) as Hw. destruct b.
    + cbn [app]. apply IH; [|intros _; exact Hw].
      cbn. rewrite Hp, Hw. apply Hb. reflexivity.
    + cbn [app has_hash]. change (is_hash " ") with false. cbn [andb orb].
      apply IH; [|intros _; exact Hw]. cbn. rewrite Hw. reflexivity.
  - cbn [has_hash]. rewrite Hp, head_sub_spaces_word. f_equal.
    apply IH; [reflexivity | discriminate].
Qed.

Lemma lower_sub_hash (z : list ascii) (prev prev' : option ascii) :
  Re.word_opt prev' = Re.word_opt prev ->
  Str.lower (sub_hash prev' (Str.lower z)) = Str.lower (sub_hash prev z).
Proof.
  revert prev prev'. induction z as [|c r IH]; intros prev prev' Hp;
    [reflexivity|].
  cbn [Str.lower map]. change (map Chr.lower r) with (Str.lower r).
  rewrite !sub_hash_cons, !lower_app.
  rewrite is_hash_lower, Hp, head_lower_word.
  rewrite (IH (Some c) (Some (Chr.lower c))) by apply is_word_lower.
  f_equal.
  destruct (is_hash c && Re.word_opt prev && Re.word_opt (head r));
    [reflexivity|].
  cbn. rewrite lower_lower. reflexivity.
Qed.

(** ** Fixed points of [\s+], of the punctuation rule and of [strip] *)

Lemma lower_sub_spaces (z : list ascii) (b : bool) :
  Str.lower (Re.sub_spaces_from b z) = Re.sub_spaces_from b (Str.lower z).
Proof.
  revert b. induction z as [|c r IH]; intros b; [reflexivity|].
  cbn [Str.lower map Re.sub_spaces_from]. rewrite isspace_lower.
  change (map Chr.lower r) with (Str.lower r).
  destruct (Chr.isspace c).
  - rewrite lower_app, IH. destruct b; reflexivity.
  - cbn [Str.lower map]. f_equal. apply IH.
Qed.

Lemma sub_spaces_idem (s : list ascii) (b b' : bool) :
  (b' = true -> b = true) ->
  Re.sub_spaces_from b' (Re.sub_spaces_from b s) = Re.sub_spaces_from b s.
Proof.
  revert b b'. induction s as [|c r IH]; intros b b' Hb; [reflexivity|].
  cbn [Re.sub_spaces_from]. destruct (Chr.isspace c) eqn:Hs.
  - destruct b.
    + cbn [app]. apply IH. reflexivity.
    + destruct b'; [discriminate (Hb eq_refl)|].
      cbn [app Re.sub_spaces_from]. change (Chr.isspace " ") with true.
      cbn iota. cbn [app]. f_equal. apply IH. reflexivity.
  - cbn [Re.sub_spaces_from]. rewrite Hs. f_equal. apply IH. discriminate.
Qed.

Lemma no_punct_lower (c : ascii) : no_punct (Chr.lower c) = no_punct c.
Proof. all_chars c. Qed.

Lemma sub_punct_fixed (z : list ascii) :
  Forall (fun c => no_punct c = true) z -> Re.sub_punct z = z.
Proof.
  induction 1 as [|c z Hc Hz IH]; [reflexivity|].
  cbn [Re.sub_punct map]. fold (Re.sub_punct z). rewrite IH.
  unfold no_punct in Hc. apply negb_true_iff in Hc. rewrite Hc. reflexivity.
Qed.

Lemma no_punct_sub_punct (x : list ascii) :
  Forall (fun c => no_punct c = true) (Re.sub_punct x).
Proof.
  induction x as [|c x IH]; [constructor|]. cbn [Re.sub_punct map].
  constructor; [|exact IH].
  destruct (Chr.is_code 44 c || Chr.is_code 46 c) eqn:H; [reflexivity|].
  unfold no_punct. rewrite H. reflexivity.
Qed.

Section Preserved.
Variable P : ascii -> Prop.

Lemma Forall_lstrip (s : list ascii) :
  Forall P s -> Forall P (Str.lstrip s).
Proof.
  induction 1 as [|c s Hc Hs IH]; [constructor|]. cbn [Str.lstrip].
  destruct (Chr.isspace c); [exact IH | constructor; assumption].
Qed.

Lemma Forall_rev' (s : list ascii) : Forall P s -> Forall P (rev s).
Proof.
  induction 1 as [|c s Hc Hs IH]; [constructor|]. cbn [rev].
  apply Forall_app. split; [exact IH | constructor; [exact Hc|constructor]].
Qed.

Lemma Forall_strip (s : list ascii) :
  Forall P s -> Forall P (Str.strip s).
Proof.
  intros H. unfold Str.strip.
  apply Forall_rev', Forall_lstrip, Forall_rev', Forall_lstrip, H.
Qed.

Lemma Forall_sub_from (pat repl s : list ascii) (k : nat)
    (prev : option ascii) :
  Forall P repl -> Forall P s ->
  Forall P (Re.sub_from pat repl k prev s).
Proof.
  intros Hrepl Hs. revert k prev.
  induction Hs as [|c s Hc Hs IH]; intros k prev; [constructor|].
  cbn [Re.sub_from]. destruct k; [|apply IH].
  destruct (Re.matches_at pat prev (c :: s)).
  - apply Forall_app. split; [exact Hrepl | apply IH].
  - constructor; [exact Hc | apply IH].
Qed.

Lemma Forall_apply_replacements
    (table : list (list ascii * list ascii)) (s : list ascii) :
  Forall (fun pr => Forall P (snd pr)) table ->
  Forall P s -> Forall P (apply_replacements table s).
Proof.
  unfold apply_replacements. intros Htab. revert s.
  induction Htab as [|pr table Hpr Htab IH]; intros s Hs; [exact Hs|].
  cbn [fold_left]. apply IH. apply Forall_sub_from; assumption.
Qed.

Lemma Forall_sub_spaces (s : list ascii) (b : bool) :
  P " "%char -> Forall P s -> Forall P (Re.sub_spaces_from b s).
Proof.
  intros Hsp Hs. revert b.
  induction Hs as [|c s Hc Hs IH]; intros b; [constructor|].
  cbn [Re.sub_spaces_from]. destruct (Chr.isspace c).
  - apply Forall_app. split; [|apply IH].
    destruct b; [constructor | constructor; [exact Hsp|constructor]].
  - constructor; [exact Hc | apply IH].
Qed.
End Preserved.

Lemma no_punct_replacements :
  Forall (fun pr => Forall (fun c => no_punct c = true) (snd pr))
    replacements.
Proof.
  apply Forall_forall. intros pr Hin. apply Forall_forall. intros c Hc.
  assert (H : forallb (fun pr => forallb no_punct (snd pr)) replacements
              = true) by (vm_compute; reflexivity).
  rewrite forallb_forall in H. apply list_elem_of_In in Hin, Hc.
  specialize (H pr Hin). rewrite forallb_forall in H. apply H. exact Hc.
Qed.

(** ** Trimmed strings *)

Lemma head_rev (z : list ascii) : head (rev z) = last z.
Proof.
  induction z as [|x l _] using rev_ind; [reflexivity|].
  rewrite rev_app_distr, last_snoc. reflexivity.
Qed.

Lemma last_rev (z : list ascii) : last (rev z) = head z.
Proof. destruct z as [|c z]; [reflexivity|]. cbn [rev]. apply last_snoc. Qed.

Lemma last_app_nonempty (l1 l2 : list ascii) :
  l2 <> [] -> last (l1 ++ l2) = last l2.
Proof.
  intros H. rewrite last_app. destruct (last l2) eqn:Hl; [reflexivity|].
  apply last_None in Hl. congruence.
Qed.

Lemma lstrip_fixed (z : list ascii) :
  space_opt (head z) = false -> Str.lstrip z = z.
Proof. destruct z as [|c z]; [reflexivity|]. cbn. intros ->. reflexivity. Qed.

Lemma lstrip_head (s : list ascii) : space_opt (head (Str.lstrip s)) = false.
Proof.
  induction s as [|c s IH]; [reflexivity|]. cbn [Str.lstrip].
  destruct (Chr.isspace c) eqn:Hc; [exact IH | exact Hc].
Qed.

Lemma lstrip_last (s : list ascii) :
  space_opt (last s) = false -> space_opt (last (Str.lstrip s)) = false.
Proof.
  induction s as [|c s IH]; [reflexivity|]. cbn [Str.lstrip]. intros H.
  destruct (Chr.isspace c) eqn:Hc; [|exact H].
  destruct s as [|d s]; [reflexivity|]. apply IH.
  rewrite last_cons_cons in H. exact H.
Qed.

Lemma strip_trimmed (s : list ascii) : trimmed (Str.strip s).
Proof.
  unfold trimmed, Str.strip. rewrite head_rev, last_rev. split.
  - apply lstrip_last. rewrite last_rev. apply lstrip_head.
  - apply lstrip_head.
Qed.

Lemma strip_fixed (z : list ascii) : trimmed z -> Str.strip z = z.
Proof.
  intros [Hh Hl]. unfold Str.strip. rewrite (lstrip_fixed z Hh).
  rewrite lstrip_fixed by (rewrite head_rev; exact Hl).
  apply rev_involutive.
Qed.

Lemma word_not_space (o : option ascii) :
  Re.word_opt o = true -> space_opt o = false.
Proof.
  destruct o as [c|]; [|reflexivity]. cbn. intros H.
  pose proof (space_not_word c) as Hs. rewrite H, andb_true_r in Hs.
  exact Hs.
Qed.

Lemma untok_nonempty (t : token) (ts : list token) :
  wf_tokens (t :: ts) -> untok (t :: ts) <> [].
Proof.
  intros H. apply wf_tokens_cons in H as (Hne & _). rewrite untok_cons.
  destruct (snd t); [congruence | discriminate].
Qed.

Lemma trimmed_expand_all (ts : list token) :
  wf_tokens ts ->
  wf_tokens (map (expand_all word_replacements) ts) ->
  trimmed (untok ts) ->
  trimmed (untok (map (expand_all word_replacements) ts)).
Proof.
  set (f := expand_all word_replacements).
  intros Hwf Hwf' [Hh Hl]. split.
  - destruct ts as [|t ts]; [reflexivity|]. cbn [map] in *.
    destruct (fst t) eqn:Hk.
    + apply word_not_space. rewrite (head_untok _ _ Hwf').
      unfold f. rewrite expand_all_fst. exact Hk.
    + unfold f at 1. rewrite expand_all_other by (rewrite Hk; reflexivity).
      rewrite untok_cons in Hh |- *.
      apply wf_tokens_cons in Hwf as (Hne & _).
      destruct (snd t); [congruence | exact Hh].
  - revert Hwf Hwf' Hl. clear Hh.
    induction ts as [|t ts IH]; intros Hwf Hwf' Hl; [reflexivity|].
    cbn [map] in *. rewrite untok_cons in Hl |- *.
    pose proof Hwf as Hwf0. pose proof Hwf' as Hwf0'.
    apply wf_tokens_cons in Hwf as (Hne & Hall & _ & Hwft).
    apply wf_tokens_cons in Hwf' as (Hne' & Hall' & _ & Hwft').
    destruct ts as [|t' ts].
    + cbn [map untok concat] in *. rewrite app_nil_r in *.
      destruct (fst t) eqn:Hk.
      * apply word_not_space. apply last_nonempty_word; [exact Hne'|].
        unfold f in Hall'. rewrite expand_all_fst, Hk in Hall'. exact Hall'.
      * unfold f. rewrite expand_all_other by (rewrite Hk; reflexivity).
        exact Hl.
    + rewrite last_app_nonempty in Hl by (apply untok_nonempty; exact Hwft).
      rewrite last_app_nonempty by (apply (untok_nonempty _ _ Hwft')).
      apply IH; assumption.
Qed.

Lemma last_sub_hash (z : list ascii) (prev : option ascii) :
  last (sub_hash prev z) = last z.
Proof.
  revert prev. induction z as [|c r IH]; intros prev; [reflexivity|].
  rewrite sub_hash_cons. destruct r as [|d r].
  - cbn [head Re.word_opt]. rewrite andb_false_r. reflexivity.
  - rewrite last_app_nonempty, IH, last_cons_cons; [reflexivity|].
    rewrite sub_hash_cons.
    destruct (is_hash d && _ && _); discriminate.
Qed.

Lemma trimmed_sub_hash (z : list ascii) :
  trimmed z -> trimmed (sub_hash None z).
Proof.
  intros [Hh Hl]. split.
  - rewrite head_sub_hash by reflexivity. exact Hh.
  - rewrite last_sub_hash. exact Hl.
Qed.

Lemma sub_spaces_nonempty (z : list ascii) (b : bool) :
  space_opt (last z) = false -> z <> [] -> Re.sub_spaces_from b z <> [].
Proof.
  revert b. induction z as [|c r IH]; intros b H Hne; [congruence|].
  cbn [Re.sub_spaces_from]. destruct (Chr.isspace c) eqn:Hc; [|discriminate].
  destruct r as [|d r]; [cbn in H; congruence|].
  rewrite last_cons_cons in H. intros Hnil.
  apply app_eq_nil in Hnil as [_ Hnil]. revert Hnil.
  apply IH; [exact H | discriminate].
Qed.

Lemma last_sub_spaces (z : list ascii) (b : bool) :
  space_opt (last z) = false -> last (Re.sub_spaces_from b z) = last z.
Proof.
  revert b. induction z as [|c r IH]; intros b H; [reflexivity|].
  cbn [Re.sub_spaces_from]. destruct r as [|d r].
  - cbn in H. rewrite H. reflexivity.
  - rewrite last_cons_cons in H |- *.
    assert (Hne : forall b', Re.sub_spaces_from b' (d :: r) <> [])
      by (intros b'; apply sub_spaces_nonempty; [exact H | discriminate]).
    destruct (Chr.isspace c).
    + rewrite last_app_nonempty by apply Hne. apply IH. exact H.
    + change (c :: Re.sub_spaces_from false (d :: r))
        with ([c] ++ Re.sub_spaces_from false (d :: r)).
      rewrite last_app_nonempty by apply Hne. apply IH. exact H.
Qed.

Lemma trimmed_sub_spaces (z : list ascii) :
  trimmed z -> trimmed (Re.sub_spaces z).
Proof.
  intros [Hh Hl]. unfold Re.sub_spaces. split.
  - destruct z as [|c z]; [reflexivity|]. cbn in Hh |- *. rewrite Hh.
    exact Hh.
  - rewrite last_sub_spaces; assumption.
Qed.

Lemma trimmed_lower (z : list ascii) : trimmed z -> trimmed (Str.lower z).
Proof.
  intros [Hh Hl]. split.
  - destruct z as [|c z]; [reflexivity|]. cbn. rewrite isspace_lower.
    exact Hh.
  - clear Hh. revert Hl. induction z as [|c z IH]; [reflexivity|].
    destruct z as [|d z].
    + cbn. rewrite isspace_lower. tauto.
    + cbn [Str.lower map] in *. rewrite !last_cons_cons. exact IH.
Qed.

(** ** Idempotence of the normalizer *)

Lemma normalize_steps_tokens (s : list ascii) :
  exists ts,
    wf_tokens ts /\ untok ts = Str.strip (Re.sub_punct s)
    /\ wf_tokens (map (expand_all word_replacements) ts)
    /\ normalize_steps s
       = Str.lower (Re.sub_spaces
                      (sub_hash None
                         (untok (map (expand_all word_replacements) ts)))).
Proof.
  exists (tokens (Str.strip (Re.sub_punct s))).
  pose proof (wf_tokens_tokens (Str.strip (Re.sub_punct s))) as Hwf.
  destruct (apply_replacements_tokens word_replacements _ eq_refl Hwf)
    as [Heq Hwf'].
  split; [exact Hwf|]. split; [apply untok_tokens|]. split; [exact Hwf'|].
  unfold normalize_steps. rewrite replacements_split.
  unfold apply_replacements at 1. rewrite fold_left_app.
  cbn [fold_left fst snd].
  fold (apply_replacements word_replacements (Str.strip (Re.sub_punct s))).
  rewrite <- Heq, untok_tokens. reflexivity.
Qed.

Lemma no_punct_lower_all (z : list ascii) :
  Forall (fun c => no_punct c = true) z ->
  Forall (fun c => no_punct c = true) (Str.lower z).
Proof.
  induction 1 as [|c z Hc Hz IH]; [constructor|]. cbn [Str.lower map].
  constructor; [rewrite no_punct_lower; exact Hc | exact IH].
Qed.

Lemma normal_nil : normal [].
Proof.
  unfold normal, trimmed. repeat split; constructor.
Qed.

Lemma normal_normalize_steps (s : list ascii) : normal (normalize_steps s).
Proof.
  destruct (normalize_steps_tokens s) as (ts & Hwf & Hu & Hwf' & Heq).
  split; [|split; [|split; [|split; [|split]]]].
  - unfold normalize_steps. apply no_punct_lower_all.
    apply Forall_sub_spaces; [reflexivity|].
    apply Forall_apply_replacements; [exact no_punct_replacements|].
    apply Forall_strip, no_punct_sub_punct.
  - rewrite Heq.
    apply trimmed_lower, trimmed_sub_spaces, trimmed_sub_hash,
      trimmed_expand_all; try assumption.
    rewrite Hu. apply strip_trimmed.
  - rewrite Heq. change (@nil ascii) with (Str.lower []) at 1.
    rewrite words_lower. unfold Re.sub_spaces.
    rewrite words_sub_spaces by discriminate.
    assert (Hw : Forall (fun t => stable_word t = true)
                   (words_from []
                      (sub_hash None
                         (untok (map (expand_all word_replacements) ts))))).
    { apply (words_sub_hash _ [] [] None).
      - rewrite (words_of_tokens _ Hwf'). apply stable_after_expand.
      - left. reflexivity.
      - discriminate. }
    induction Hw as [|t l Ht Hl IH]; constructor; [|exact IH].
    rewrite stable_word_lower. exact Ht.
  - rewrite Heq. rewrite (has_hash_lower _ None None) by reflexivity.
    unfold Re.sub_spaces.
    rewrite (has_hash_sub_spaces _ false None None)
      by (reflexivity || discriminate).
    apply has_hash_sub_hash.
    destruct (untok (map (expand_all word_replacements) ts));
      [exact I | reflexivity].
  - unfold normalize_steps, Re.sub_spaces. rewrite lower_sub_spaces.
    apply sub_spaces_idem. discriminate.
  - unfold normalize_steps. apply lower_idem.
Qed.

Lemma normalize_steps_fixed (y : list ascii) :
  normal y -> normalize_steps y = y.
Proof.
  intros (Hp & Ht & Hw & Hh & Hs & Hl). unfold normalize_steps.
  rewrite (sub_punct_fixed y Hp), (strip_fixed y Ht), replacements_split.
  unfold apply_replacements at 1. rewrite fold_left_app.
  cbn [fold_left fst snd].
  fold (apply_replacements word_replacements y).
  change (Re.sub_word (lit "#") (lit "Unit")
            (apply_replacements word_replacements y))
    with (sub_hash None (apply_replacements word_replacements y)).
  unfold Re.sub_spaces. rewrite lower_sub_spaces.
  rewrite <- (lower_sub_hash _ None None) by reflexivity.
  rewrite (lower_apply_word_replacements y Hw), Hl.
  rewrite (sub_hash_fixed y None Hh), Hl. exact Hs.
Qed.

Lemma clean_and_normalize_cases (part : pyval) :
  clean_and_normalize part = []
  \/ clean_and_normalize part = normalize_steps (Py.str part).
Proof.
  unfold clean_and_normalize.
  destruct (negb (Py.truthy part) || Py.isnull part);
    [left | right]; reflexivity.
Qed.

Lemma normal_clean_and_normalize (part : pyval) :
  normal (clean_and_normalize part).
Proof.
  destruct (clean_and_normalize_cases part) as [-> | ->];
    [apply normal_nil | apply normal_normalize_steps].
Qed.

(** C7: the normalizer is idempotent.  Whatever value [part] it is given,
    a string in particular, normalising its result again gives that
    result. *)
Theorem clean_and_normalize_idempotent (part : pyval) :
  clean_and_normalize (VStr (clean_and_normalize part))
  = clean_and_normalize part.
Proof.
  pose proof (normal_clean_and_normalize part) as Hn.
  set (y := clean_and_normalize part) in *.
  destruct (clean_and_normalize_cases (VStr y)) as [H|H]; rewrite H.
  - unfold clean_and_normalize in H. cbn [Py.truthy Py.isnull Py.str] in H.
    rewrite negb_involutive, orb_false_r in H.
    destruct (str_eqb y []) eqn:Hy.
    + unfold str_eqb in Hy. apply bool_decide_eq_true in Hy. congruence.
    + fold (normalize_steps y) in H. rewrite <- H.
      apply normalize_steps_fixed. exact Hn.
  - apply normalize_steps_fixed. exact Hn.
Qed.

Example clean_and_normalize_twice :
  clean_and_normalize (VStr (lit " 12 N.  Main St., Ste #4,a#b Unit 7 "))
  = lit "12 north main street suite #4 aunitb unit 7"
  /\ clean_and_normalize
       (VStr (lit "12 north main street suite #4 aunitb unit 7"))
     = lit "12 north main street suite #4 aunitb unit 7".
Proof. split; vm_compute; reflexivity. Qed.

(** ** Beyond Latin-1 *)

(** C7, as first stated, fails: on the string "İSt" the normalizer gives
    U+0069 U+0307 followed by "st", in which "st" has become a whole word,
    and on that result it gives U+0069 U+0307 followed by "street". *)
Lemma clean_and_normalize_not_idempotent :
  Wide.clean_and_normalize dotted_st = [105; 775; 115; 116]%N
  /\ Wide.clean_and_normalize (Wide.clean_and_normalize dotted_st)
     = ([105; 775] ++ Wide.encode (lit "street"))%N
  /\ Wide.clean_and_normalize (Wide.clean_and_normalize dotted_st)
     <> Wide.clean_and_normalize dotted_st.
Proof.
  split; [vm_compute; reflexivity|].
  split; [vm_compute; reflexivity|].
  vm_compute. discriminate.
Qed.

(** On Latin-1 the wide normalizer is [clean_and_normalize]. *)

Lemma wide_isspace (c : ascii) : Wide.isspace (Chr.code c) = Chr.isspace c.
Proof. all_chars c. Qed.

Lemma wide_is_word (c : ascii) : Wide.is_word (Chr.code c) = Chr.is_word c.
Proof. all_chars c. Qed.

Lemma wide_lower_char (c : ascii) :
  Wide.lower_char (Chr.code c) = [Chr.code (Chr.lower c)].
Proof. all_chars c. Qed.

Lemma wide_fold_case (c : ascii) :
  Wide.fold_case (Chr.code c) = Chr.code (Chr.lower c).
Proof. all_chars c. Qed.

Lemma code_inj (a b : ascii) : Chr.code a = Chr.code b -> a = b.
Proof.
  unfold Chr.code. intros H.
  rewrite <- (ascii_N_embedding a), <- (ascii_N_embedding b), H.
  reflexivity.
Qed.

Lemma wide_ci_eq (c p : ascii) :
  Wide.ci_eq (Chr.code c) (Chr.code p) = Chr.ci_eq c p.
Proof.
  unfold Wide.ci_eq, Chr.ci_eq. rewrite !wide_fold_case.
  destruct (N.eqb_spec (Chr.code (Chr.lower c)) (Chr.code (Chr.lower p)))
    as [H|H].
  - apply code_inj in H. symmetry. apply bool_decide_eq_true. exact H.
  - symmetry. apply bool_decide_eq_false. congruence.
Qed.

Lemma encode_app (a b : list ascii) :
  Wide.encode (a ++ b) = Wide.encode a ++ Wide.encode b.
Proof. apply map_app. Qed.

Lemma encode_lstrip (s : list ascii) :
  Wide.lstrip (Wide.encode s) = Wide.encode (Str.lstrip s).
Proof.
  induction s as [|c s IH]; [reflexivity|].
  cbn [Wide.encode map Wide.lstrip Str.lstrip]. rewrite wide_isspace.
  destruct (Chr.isspace c); [exact IH | reflexivity].
Qed.

Lemma encode_strip (s : list ascii) :
  Wide.strip (Wide.encode s) = Wide.encode (Str.strip s).
Proof.
  unfold Wide.strip, Str.strip.
  rewrite encode_lstrip. unfold Wide.encode at 1. rewrite <- map_rev.
  fold (Wide.encode (rev (Str.lstrip s))). rewrite encode_lstrip.
  unfold Wide.encode. rewrite <- map_rev. reflexivity.
Qed.

Lemma encode_sub_punct (s : list ascii) :
  Wide.sub_punct (Wide.encode s) = Wide.encode (Re.sub_punct s).
Proof.
  unfold Wide.sub_punct, Wide.encode, Re.sub_punct. rewrite !map_map.
  apply map_ext. intros c. unfold Chr.is_code.
  destruct ((Chr.code c =? 44)%N || (Chr.code c =? 46)%N); reflexivity.
Qed.

Lemma encode_match_lit (pat s : list ascii) :
  Wide.match_lit (Wide.encode pat) (Wide.encode s)
  = option_map Wide.encode (Re.match_lit pat s).
Proof.
  revert s. induction pat as [|p pat IH]; intros s; [reflexivity|].
  destruct s as [|c s]; [reflexivity|].
  cbn [Wide.encode map Wide.match_lit Re.match_lit]. rewrite wide_ci_eq.
  destruct (Chr.ci_eq c p); [apply IH | reflexivity].
Qed.

Lemma wide_word_opt (o : option ascii) :
  Wide.word_opt (option_map Chr.code o) = Re.word_opt o.
Proof. destruct o; [apply wide_is_word | reflexivity]. Qed.

Lemma encode_head (s : list ascii) :
  head (Wide.encode s) = option_map Chr.code (head s).
Proof. destruct s; reflexivity. Qed.

Lemma encode_last (s : list ascii) :
  last (Wide.encode s) = option_map Chr.code (last s).
Proof.
  induction s as [|c s IH]; [reflexivity|]. destruct s as [|d s].
  - reflexivity.
  - cbn [Wide.encode map] in *. rewrite !last_cons_cons. exact IH.
Qed.

Lemma encode_length (s : list ascii) :
  length (Wide.encode s) = length s.
Proof. apply length_map. Qed.

Lemma wide_boundary (a b : option ascii) :
  Wide.boundary (option_map Chr.code a) (option_map Chr.code b)
  = Re.boundary a b.
Proof. unfold Wide.boundary, Re.boundary. rewrite !wide_word_opt. reflexivity. Qed.

Lemma encode_matches_at (pat s : list ascii) (prev : option ascii) :
  Wide.matches_at (Wide.encode pat) (option_map Chr.code prev)
    (Wide.encode s)
  = Re.matches_at pat prev s.
Proof.
  unfold Wide.matches_at, Re.matches_at.
  rewrite encode_head, wide_boundary, encode_match_lit, encode_length.
  f_equal. destruct (Re.match_lit pat s) as [rest|]; [|reflexivity].
  cbn [option_map]. unfold Wide.encode at 1. rewrite firstn_map.
  fold (Wide.encode (firstn (length pat) s)).
  rewrite encode_last, encode_head, wide_boundary. reflexivity.
Qed.

Lemma encode_sub_from (pat repl s : list ascii) (k : nat)
    (prev : option ascii) :
  Wide.sub_from (Wide.encode pat) (Wide.encode repl) k
    (option_map Chr.code prev) (Wide.encode s)
  = Wide.encode (Re.sub_from pat repl k prev s).
Proof.
  revert k prev. induction s as [|c s IH]; intros k prev; [reflexivity|].
  change (Wide.encode (c :: s)) with (Chr.code c :: Wide.encode s).
  cbn [Wide.sub_from Re.sub_from]. destruct k.
  - change (Chr.code c :: Wide.encode s) with (Wide.encode (c :: s)).
    rewrite encode_matches_at, encode_length.
    destruct (Re.matches_at pat prev (c :: s)).
    + rewrite encode_app. f_equal. apply (IH _ (Some c)).
    + cbn [Wide.encode map]. f_equal. apply (IH 0 (Some c)).
  - apply (IH k (Some c)).
Qed.

Lemma encode_apply_replacements (table : list (list ascii * list ascii))
    (s : list ascii) :
  Wide.apply_replacements table (Wide.encode s)
  = Wide.encode (apply_replacements table s).
Proof.
  unfold Wide.apply_replacements, apply_replacements. revert s.
  induction table as [|pr table IH]; intros s; [reflexivity|].
  cbn [fold_left]. unfold Wide.sub_word at 2, Re.sub_word at 2.
  rewrite (encode_sub_from _ _ _ 0 None). apply IH.
Qed.

Lemma encode_sub_spaces_from (s : list ascii) (b : bool) :
  Wide.sub_spaces_from b (Wide.encode s)
  = Wide.encode (Re.sub_spaces_from b s).
Proof.
  revert b. induction s as [|c s IH]; intros b; [reflexivity|].
  cbn [Wide.encode map Wide.sub_spaces_from Re.sub_spaces_from].
  rewrite wide_isspace. destruct (Chr.isspace c).
  - fold (Wide.encode s). rewrite IH, encode_app. destruct b; reflexivity.
  - fold (Wide.encode s). rewrite IH. reflexivity.
Qed.

Lemma encode_lower (s : list ascii) :
  Wide.lower (Wide.encode s) = Wide.encode (Str.lower s).
Proof.
  induction s as [|c s IH]; [reflexivity|].
  cbn [Wide.encode map Wide.lower flat_map Str.lower].
  rewrite wide_lower_char. cbn [app]. f_equal. exact IH.
Qed.

Lemma wide_clean_and_normalize (s : list ascii) :
  Wide.clean_and_normalize (Wide.encode s)
  = Wide.encode (clean_and_normalize (VStr s)).
Proof.
  destruct s as [|c s]; [reflexivity|].
  unfold Wide.clean_and_normalize, clean_and_normalize.
  cbn [Wide.encode map]. fold (Wide.encode s).
  change (Chr.code c :: Wide.encode s) with (Wide.encode (c :: s)).
  cbn [Py.truthy Py.isnull Py.str]. rewrite negb_involutive, orb_false_r.
  replace (str_eqb (c :: s) []) with false
    by (symmetry; apply str_eqb_nil; discriminate).
  rewrite encode_sub_punct, encode_strip, encode_apply_replacements.
  unfold Wide.sub_spaces, Re.sub_spaces.
  rewrite encode_sub_spaces_from, encode_lower. reflexivity.
Qed.

Lemma latin1_encode (x : list N) :
  Wide.latin1 x -> exists s, x = Wide.encode s.
Proof.
  intros H. exists (map ascii_of_N x).
  induction H as [|n x Hn Hx IH]; [reflexivity|].
  cbn [map Wide.encode]. unfold Chr.code at 1.
  rewrite (N_ascii_embedding n Hn). f_equal. exact IH.
Qed.

(** C7, as amended: on every string whose code points are below 256 the
    normalizer is idempotent. *)
Theorem clean_and_normalize_idempotent_latin1 (x : list N) :
  Wide.latin1 x ->
  Wide.clean_and_normalize (Wide.clean_and_normalize x)
  = Wide.clean_and_normalize x.
Proof.
  intros H. destruct (latin1_encode x H) as [s ->].
  rewrite !wide_clean_and_normalize, clean_and_normalize_idempotent.
  reflexivity.
Qed.

Lemma clean_and_normalize_idempotent_latin1_witness :
  Wide.clean_and_normalize
    (Wide.clean_and_normalize (Wide.encode (lit " 12 N. Main St., #4 ")))
  = Wide.clean_and_normalize (Wide.encode (lit " 12 N. Main St., #4 ")).
Proof.
  apply (clean_and_normalize_idempotent_latin1
           (Wide.encode (lit " 12 N. Main St., #4 "))).
  unfold Wide.latin1. apply Forall_forall. intros n Hn.
  apply list_elem_of_In in Hn.
  assert (H : forallb (fun n => (n <? 256)%N)
                (Wide.encode (lit " 12 N. Main St., #4 ")) = true)
    by (vm_compute; reflexivity).
  rewrite forallb_forall in H. apply N.ltb_lt. apply H. exact Hn.
Defined.

(** * Further properties of the code *)

(** ** [is_valid_address] in full *)

(** X1: [is_valid_address] returns [True] exactly on a string whose
    stripped form starts with a digit, raises [IndexError] exactly on a
    non-empty string of whitespace, and returns [False] on every other
    value; the test against ['N/A'], ['Unknown'] and ['None'] decides
    nothing, no such string passing the digit test before it. *)
Theorem is_valid_address_cases (address : pyval) :
  is_valid_address address
  = match address with
    | VStr s =>
        match Str.strip s with
        | c :: _ => Ok (Chr.isdigit c)
        | [] => if str_eqb s [] then Ok false else Raise IndexError
        end
    | _ => Ok false
    end.
Proof.
  destruct address as [| |s|n]; try reflexivity.
  - unfold is_valid_address. cbn [Py.truthy Py.is_str Py.str negb orb].
    rewrite negb_involutive, orb_false_r.
    destruct (str_eqb s []) eqn:Hs.
    + unfold str_eqb in Hs. apply bool_decide_eq_true in Hs. subst s.
      reflexivity.
    + destruct (Str.strip s) as [|c t]; [reflexivity|].
      destruct (Chr.isdigit c) eqn:Hc; [|reflexivity]. cbn [negb].
      replace (str_eqb (c :: t) (lit "N/A")) with false.
      2:{ symmetry. apply bool_decide_eq_false. intros [= -> _].
          discriminate Hc. }
      replace (str_eqb (c :: t) (lit "Unknown")) with false.
      2:{ symmetry. apply bool_decide_eq_false. intros [= -> _].
          discriminate Hc. }
      replace (str_eqb (c :: t) (lit "None")) with false.
      2:{ symmetry. apply bool_decide_eq_false. intros [= -> _].
          discriminate Hc. }
      reflexivity.
  - unfold is_valid_address. cbn [Py.truthy Py.is_str negb].
    rewrite orb_true_r. reflexivity.
Qed.

(** ** [clean_address] *)

Lemma is_comma (c : ascii) : bool_decide (c = ","%char) = Chr.is_code 44 c.
Proof. all_chars c. Qed.

Lemma is_period (c : ascii) : bool_decide (c = "."%char) = Chr.is_code 46 c.
Proof. all_chars c. Qed.

Lemma no_punct_remove_replace (s : list ascii) :
  Forall (fun c => no_punct c = true)
    (Str.remove "."%char (Str.replace ","%char " "%char s)).
Proof.
  induction s as [|c s IH]; [constructor|].
  cbn [Str.replace map Str.remove List.filter].
  fold (Str.replace ","%char " "%char s).
  fold (Str.remove "."%char (Str.replace ","%char " "%char s)).
  rewrite is_comma. destruct (Chr.is_code 44 c) eqn:Hcomma.
  - cbn. constructor; [reflexivity | exact IH].
  - rewrite is_period. destruct (Chr.is_code 46 c) eqn:Hp; [exact IH|].
    cbn [negb]. constructor; [|exact IH].
    unfold no_punct. rewrite Hcomma, Hp. reflexivity.
Qed.

Lemma remove_replace_fixed (s : list ascii) :
  Forall (fun c => no_punct c = true) s ->
  Str.remove "."%char (Str.replace ","%char " "%char s) = s.
Proof.
  induction 1 as [|c s Hc Hs IH]; [reflexivity|].
  cbn [Str.replace map Str.remove List.filter].
  fold (Str.replace ","%char " "%char s).
  fold (Str.remove "."%char (Str.replace ","%char " "%char s)).
  unfold no_punct in Hc. apply negb_true_iff, orb_false_iff in Hc as [H1 H2].
  rewrite is_comma, H1, is_period, H2. cbn [negb]. rewrite IH. reflexivity.
Qed.

(** X2: whatever it is given, [clean_address] returns a string that holds
    no comma and no period, has no whitespace at its ends, holds
    whitespace only as single blanks and is in lower case; cleaning that
    string again leaves it as it is. *)
Theorem clean_address_normal_form (address : pyval) :
  let y := clean_address address in
  clean_address (VStr y) = y
  /\ Forall (fun c => no_punct c = true) y
  /\ trimmed y
  /\ Re.sub_spaces y = y
  /\ Str.lower y = y.
Proof.
  assert (Hfacts : forall s,
             let y := Str.lower (Re.sub_spaces (Str.strip
                        (Str.remove "."%char
                           (Str.replace ","%char " "%char s)))) in
             Forall (fun c => no_punct c = true) y /\ trimmed y
             /\ Re.sub_spaces y = y /\ Str.lower y = y).
  { intros s y. subst y. split; [|split; [|split]].
    - apply no_punct_lower_all, Forall_sub_spaces; [reflexivity|].
      apply Forall_strip, no_punct_remove_replace.
    - apply trimmed_lower, trimmed_sub_spaces, strip_trimmed.
    - unfold Re.sub_spaces. rewrite lower_sub_spaces.
      apply sub_spaces_idem. discriminate.
    - apply lower_idem. }
  assert (Hfix : forall y,
             Forall (fun c => no_punct c = true) y -> trimmed y ->
             Re.sub_spaces y = y -> Str.lower y = y ->
             clean_address (VStr y) = y).
  { intros y Hp Ht Hs Hl. unfold clean_address. cbn [Py.isnull Py.str].
    rewrite (remove_replace_fixed y Hp), (strip_fixed y Ht), Hs, Hl.
    reflexivity. }
  assert (Hy : Forall (fun c => no_punct c = true) (clean_address address)
               /\ trimmed (clean_address address)
               /\ Re.sub_spaces (clean_address address)
                  = clean_address address
               /\ Str.lower (clean_address address) = clean_address address).
  { unfold clean_address. destruct (Py.isnull address).
    - split; [constructor|]. split; [split; reflexivity|].
      split; reflexivity.
    - apply Hfacts. }
  intros y. subst y. destruct Hy as (Hp & Ht & Hs & Hl).
  split; [apply Hfix; assumption|]. tauto.
Qed.

(** ** Joining and splitting *)

Lemma split_from_cur (sep : ascii) (cur s : list ascii) :
  Str.split_from sep cur s
  = match Str.split_from sep [] s with
    | f :: r => (cur ++ f) :: r
    | [] => []
    end.
Proof.
  revert cur. induction s as [|c s IH]; intros cur.
  - cbn. rewrite app_nil_r. reflexivity.
  - cbn [Str.split_from]. destruct (bool_decide (c = sep)).
    + rewrite app_nil_r. reflexivity.
    + rewrite (IH (cur ++ [c])), (IH ([] ++ [c])).
      destruct (Str.split_from sep [] s); [reflexivity|].
      rewrite <- app_assoc. reflexivity.
Qed.

Lemma split_from_no_sep (sep : ascii) (cur a : list ascii) :
  Forall (fun c => c <> sep) a -> Str.split_from sep cur a = [cur ++ a].
Proof.
  revert cur. induction a as [|c a IH]; intros cur Ha.
  - cbn. rewrite app_nil_r. reflexivity.
  - apply Forall_cons in Ha as [Hc Ha]. cbn [Str.split_from].
    rewrite bool_decide_eq_false_2 by exact Hc.
    rewrite IH by exact Ha. rewrite <- app_assoc. reflexivity.
Qed.

Lemma split_from_app_sep (sep : ascii) (cur a rest : list ascii) :
  Forall (fun c => c <> sep) a ->
  Str.split_from sep cur (a ++ sep :: rest)
  = (cur ++ a) :: Str.split_from sep [] rest.
Proof.
  revert cur. induction a as [|c a IH]; intros cur Ha.
  - cbn [app Str.split_from]. rewrite bool_decide_eq_true_2 by reflexivity.
    rewrite app_nil_r. reflexivity.
  - apply Forall_cons in Ha as [Hc Ha]. cbn [app Str.split_from].
    rewrite bool_decide_eq_false_2 by exact Hc.
    rewrite IH by exact Ha. rewrite <- app_assoc. reflexivity.
Qed.

Lemma no_punct_no_comma (p : list ascii) :
  Forall (fun c => no_punct c = true) p ->
  Forall (fun c => c <> ","%char) p.
Proof.
  intros H. eapply Forall_impl; [exact H|]. intros c Hc ->. discriminate.
Qed.

Lemma strip_blank (s : list ascii) : Str.strip (" "%char :: s) = Str.strip s.
Proof. reflexivity. Qed.

Lemma split_join (ps : list (list ascii)) :
  Forall (fun p => Forall (fun c => no_punct c = true) p /\ trimmed p) ps ->
  ps <> [] ->
  map Str.strip (Str.split ","%char (Str.join (lit ", ") ps)) = ps.
Proof.
  unfold Str.split. induction ps as [|p ps IH]; intros Hps Hne; [congruence|].
  apply Forall_cons in Hps as [[Hp Ht] Hps]. destruct ps as [|q ps].
  - cbn [Str.join]. rewrite split_from_no_sep by (apply no_punct_no_comma, Hp).
    cbn [map app]. rewrite (strip_fixed p Ht). reflexivity.
  - change (Str.join (lit ", ") (p :: q :: ps))
      with (p ++ ","%char :: " "%char :: Str.join (lit ", ") (q :: ps)).
    rewrite split_from_app_sep by (apply no_punct_no_comma, Hp).
    cbn [map app]. rewrite (strip_fixed p Ht). f_equal.
    cbn [Str.split_from]. rewrite bool_decide_eq_false_2 by discriminate.
    rewrite split_from_cur.
    specialize (IH Hps ltac:(discriminate)).
    destruct (Str.split_from ","%char [] (Str.join (lit ", ") (q :: ps)))
      as [|f r]; [discriminate IH|].
    cbn [map app] in IH |- *. rewrite strip_blank. exact IH.
Qed.

Lemma kept_parts_normal (components : list pyval) :
  Forall (fun p => Forall (fun c => no_punct c = true) p /\ trimmed p)
    (kept_parts components).
Proof.
  unfold kept_parts. induction components as [|v l IH]; [constructor|].
  cbn [map List.filter].
  destruct (negb (str_eqb (clean_and_normalize v) [])); [|exact IH].
  constructor; [|exact IH].
  destruct (normal_clean_and_normalize v) as (Hp & Ht & _). tauto.
Qed.

Lemma format_address_joined (address1 address2 city state zipcode : pyval) :
  format_address address1 address2 city state zipcode
  = if required_given address1 city state zipcode
    then (joined (given_components address1 address2 city state zipcode),
          joined (given_components address1 address2 city state zipcode))
    else ([], []).
Proof.
  unfold format_address, required_given, given_components, joined.
  destruct (Py.truthy address1); [|reflexivity].
  destruct (Py.truthy city); [|reflexivity].
  destruct (Py.truthy state); [|reflexivity].
  destruct (Py.truthy zipcode); [|reflexivity].
  cbn [negb orb andb]. destruct (Py.truthy address2).
  - change [VStr (clean_and_normalize address1);
            VStr (clean_and_normalize address2);
            VStr (clean_and_normalize city);
            VStr (clean_and_normalize state);
            VStr (clean_and_normalize zipcode)]
      with (map VStr (map clean_and_normalize
                        [address1; address2; city; state; zipcode])).
    rewrite join_filter_truthy. reflexivity.
  - change (List.filter Py.truthy
              [VStr (clean_and_normalize address1); VNone;
               VStr (clean_and_normalize city);
               VStr (clean_and_normalize state);
               VStr (clean_and_normalize zipcode)])
      with (List.filter Py.truthy
              (map VStr (map clean_and_normalize
                           [address1; city; state; zipcode]))).
    rewrite join_filter_truthy. reflexivity.
Qed.

(** X3: the commas of a composed address are its separators and nothing
    else.  Splitting either string returned by [format_address] on commas
    and stripping the parts gives back the components it joined, that is
    the normalised components that are not empty, in order; it gives the
    one empty part when a required component is missing or every
    component normalises to the empty string. *)
Theorem format_address_splits_into_components
    (address1 address2 city state zipcode : pyval) :
  let parts :=
    kept_parts (given_components address1 address2 city state zipcode) in
  map Str.strip
    (Str.split ","%char
       (fst (format_address address1 address2 city state zipcode)))
  = (if required_given address1 city state zipcode
     then match parts with [] => [[]] | _ => parts end
     else [[]])
  /\ snd (format_address address1 address2 city state zipcode)
     = fst (format_address address1 address2 city state zipcode)
  /\ length parts <= 5.
Proof.
  intros parts. rewrite format_address_joined. split; [|split].
  - destruct (required_given address1 city state zipcode); [|reflexivity].
    cbn [fst]. unfold joined. fold (kept_parts
      (given_components address1 address2 city state zipcode)). fold parts.
    pose proof (kept_parts_normal
                  (given_components address1 address2 city state zipcode))
      as Hn. fold parts in Hn.
    destruct parts as [|p ps] eqn:Hparts; [reflexivity|].
    apply split_join; [exact Hn | discriminate].
  - destruct (required_given address1 city state zipcode); reflexivity.
  - subst parts. unfold kept_parts, given_components.
    etransitivity; [apply filter_length_le|].
    rewrite length_map. destruct (Py.truthy address2); cbn; lia.
Qed.

(** ** Every row that the matching pass leaves *)

Lemma judge_outcome (label : list ascii) (gcols : gset string)
    (g : gmap string pyval) (fa : pyval) (r r' : gmap string pyval) :
  judge label gcols g fa r = Ok r' ->
  exists valid,
    is_valid_address (Df.cell g "BuildingAddress") = Ok valid
    /\ r' = if valid && py_eq fa (Df.cell g Col.Full_Address)
            then verdict_match label r
            else verdict_mismatch label gcols g fa r.
Proof.
  unfold judge. intros H.
  apply bind_ok in H as (ga & Hga & H). apply item_ok in Hga as [_ ->].
  apply bind_ok in H as (gn & Hgn & H). apply item_ok in Hgn as [_ ->].
  apply bind_ok in H as (ba & Hba & H). apply item_ok in Hba as [_ ->].
  apply bind_ok in H as (valid & Hv & H). exists valid. split; [exact Hv|].
  destruct (valid && py_eq fa _); injection H as <-; reflexivity.
Qed.

Lemma select_select_head (court : list ascii) (key : pyval)
    (l tl : list (gmap string pyval)) (g : gmap string pyval) :
  select true "CourtType" (VStr court) (select false "Key" key l) = g :: tl ->
  In g l /\ is_candidate court key g = true.
Proof.
  intros H. assert (Hin : In g (g :: tl)) by (left; reflexivity).
  rewrite <- H in Hin. unfold select in Hin.
  apply filter_In in Hin as [Hin Hc]. apply filter_In in Hin as [Hin Hk].
  split; [exact Hin|]. unfold is_candidate. rewrite Hk, Hc. reflexivity.
Qed.

Lemma compare_row_outcome (gov : frame) (fcols : gset string)
    (r r' : gmap string pyval) :
  compare_row gov fcols r = Ok r' ->
  r' = r \/
  exists k g,
    In g (rows gov)
    /\ is_candidate (court_type k) (Df.get fcols r "Key" empty_str) g = true
    /\ judge (court_label k) (columns gov) g (Df.cell r Col.Full_Address) r
       = Ok r'.
Proof.
  rewrite compare_row_once. cbv zeta. intros H.
  apply bind_ok in H as (fa & Hfa & H). apply item_ok in Hfa as [_ ->].
  apply bind_ok in H as (? & _ & H).
  apply bind_ok in H as (? & _ & H).
  apply bind_ok in H as (? & _ & H).
  destruct (select true "CourtType" (VStr (lit "bankruptcy court")) _)
    as [|g tl] eqn:Hb.
  - destruct (select true "CourtType" (VStr (lit "district court")) _)
      as [|g tl] eqn:Hd.
    + injection H as <-. left; reflexivity.
    + right. exists District, g. apply select_select_head in Hd as [Hin Hc].
      split; [exact Hin|]. split; [exact Hc | exact H].
  - right. exists Bankruptcy, g. apply select_select_head in Hb as [Hin Hc].
    split; [exact Hin|]. split; [exact Hc | exact H].
Qed.

Lemma prepared_federal_key (cols : gset string) (r0 : gmap string pyval)
    (cols' : gset string) :
  cols' = {[ Col.Phone_to_update ]} ∪ ({[ Col.Address_to_update ]}
    ∪ ({[ Col.Mismatch_Address ]} ∪ ({[ Col.Matched_in ]}
    ∪ ({[ Col.Full_Address ]} ∪ cols)))) ->
  Df.get cols' (prepared_federal_row cols r0) "Key" empty_str
  = Df.get cols r0 "Key" empty_str.
Proof.
  intros ->. unfold prepared_federal_row.
  rewrite !get_assign_ne by col_neq. reflexivity.
Qed.

Lemma prepared_federal_full_address (cols : gset string)
    (r0 : gmap string pyval) :
  Df.cell (prepared_federal_row cols r0) Col.Full_Address
  = VStr (fst (fed_format cols r0)).
Proof.
  unfold prepared_federal_row. rewrite !cell_insert_ne by col_neq.
  apply cell_insert_eq.
Qed.

Lemma prepared_gov_cell (cols : gset string) (g0 : gmap string pyval)
    (c : string) :
  c <> Col.Full_Address -> c <> Col.Full_Address_With_BuildingName ->
  Df.cell (prepared_gov_row cols g0) c = Df.cell g0 c.
Proof.
  intros H1 H2. unfold prepared_gov_row.
  rewrite !cell_insert_ne by congruence. reflexivity.
Qed.

Lemma prepared_gov_full_address (cols : gset string)
    (g0 : gmap string pyval) :
  Df.cell (prepared_gov_row cols g0) Col.Full_Address
  = VStr (fst (gov_format cols g0)).
Proof.
  unfold prepared_gov_row. rewrite cell_insert_ne by col_neq.
  apply cell_insert_eq.
Qed.

Lemma prepared_gov_candidate (cols : gset string) (g0 : gmap string pyval)
    (court : list ascii) (key : pyval) :
  is_candidate court key (prepared_gov_row cols g0)
  = is_candidate court key g0.
Proof.
  unfold is_candidate.
  rewrite !prepared_gov_cell by (unfold Col.Full_Address,
    Col.Full_Address_With_BuildingName; discriminate).
  reflexivity.
Qed.

Lemma py_eq_str (a b : list ascii) :
  py_eq (VStr a) (VStr b) = true <-> a = b.
Proof.
  cbn. rewrite bool_decide_eq_true. split; [intros [= ->] | intros ->];
    reflexivity.
Qed.

(** Every row of the federal frame that [compare_data] leaves is of one
    of the three kinds of [left_row]. *)
Lemma compare_data_left_rows (federal_data gov_data : frame)
    (row : gmap string pyval) :
  In row (rows (fst (compare_data federal_data gov_data))) ->
  left_row federal_data gov_data row.
Proof.
  rewrite compare_data_rows, prepare_federal_rows. intros Hin.
  apply compare_rows_rows in Hin as [Hin|(r & Hr & Hc)].
  { apply in_map_iff in Hin as (r0 & <- & H0). constructor. exact H0. }
  apply in_map_iff in Hr as (r0 & <- & H0).
  apply compare_row_outcome in Hc as [->|(k & g & Hg & Hcand & Hj)].
  { constructor. exact H0. }
  rewrite prepare_gov_rows in Hg. apply in_map_iff in Hg as (g0 & <- & Hg0).
  rewrite prepared_gov_candidate in Hcand.
  rewrite (prepared_federal_key _ _ _ (prepare_federal_columns federal_data))
    in Hcand.
  rewrite prepared_federal_full_address in Hj.
  apply judge_outcome in Hj as (valid & Hv & ->).
  rewrite prepared_gov_cell in Hv
    by (unfold Col.Full_Address, Col.Full_Address_With_BuildingName;
        discriminate).
  rewrite prepared_gov_full_address.
  destruct valid.
  - cbn [andb]. destruct (py_eq _ _) eqn:He.
    + apply py_eq_str in He. eapply left_match; eassumption.
    + eapply left_mismatch; try eassumption. right. intros Heq.
      rewrite Heq in He. cbn in He.
      rewrite bool_decide_eq_true_2 in He by reflexivity. discriminate.
  - cbn [andb]. eapply left_mismatch; try eassumption. left. reflexivity.
Qed.

Lemma verdict_match_cells (label : list ascii) (r : gmap string pyval) :
  Df.cell (verdict_match label r) Col.Matched_in = VStr label
  /\ Df.cell (verdict_match label r) Col.Mismatch_Address
     = VStr (lit "No mismatch")
  /\ Df.cell (verdict_match label r) Col.Address_to_update
     = VStr (lit "No update needed")
  /\ Df.cell (verdict_match label r) Col.Phone_to_update
     = Df.cell r Col.Phone_to_update
  /\ Df.cell (verdict_match label r) Col.Full_Address
     = Df.cell r Col.Full_Address.
Proof.
  unfold verdict_match.
  repeat split; rewrite ?cell_insert_ne by col_neq;
    try apply cell_insert_eq; reflexivity.
Qed.

Lemma verdict_mismatch_cells (label : list ascii) (gcols : gset string)
    (g : gmap string pyval) (fa : pyval) (r : gmap string pyval) :
  let row := verdict_mismatch label gcols g fa r in
  Df.cell row Col.Matched_in = VStr label
  /\ Df.cell row Col.Mismatch_Address
     = VStr (mismatch_text fa (Df.cell g Col.Full_Address))
  /\ Df.cell row Col.Address_to_update
     = Df.cell g Col.Full_Address_With_BuildingName
  /\ Df.cell row Col.Phone_to_update = Df.get gcols g "Phone" empty_str
  /\ Df.cell row Col.Full_Address = Df.cell r Col.Full_Address.
Proof.
  unfold verdict_mismatch. cbv zeta.
  repeat split; rewrite ?cell_insert_ne by col_neq;
    try apply cell_insert_eq; reflexivity.
Qed.

Lemma needs_update_mismatch (label : list ascii) (gcols : gset string)
    (g : gmap string pyval) (fa : pyval) (r : gmap string pyval) :
  needs_update (verdict_mismatch label gcols g fa r) = true.
Proof.
  unfold needs_update.
  destruct (verdict_mismatch_cells label gcols g fa r) as (_ & -> & _).
  unfold mismatch_text. cbn [Py.eq_cell].
  unfold str_eqb. rewrite !bool_decide_eq_false_2; [reflexivity | |];
    cbn; discriminate.
Qed.

Lemma court_label_found (k : court) : court_label k <> lit "Not Found".
Proof. destruct k; discriminate. Qed.

(** ** The verdicts, read back *)

(** X4: in the federal frame that [compare_data] leaves, [Matched_in] is
    ['Not Found'] exactly in the rows whose [Mismatch_Address] is
    ['Manual Research']; these rows and the rows of ['No mismatch'] have
    an empty [Phone_to_update]; and a row has one of the three values
    ['Not Found'], ['Gov (Bankruptcy Court)'], ['Gov (District Court)'] in
    [Matched_in]. *)
Theorem not_found_iff_manual_research (federal_data gov_data : frame)
    (row : gmap string pyval) :
  In row (rows (fst (compare_data federal_data gov_data))) ->
  (Df.cell row Col.Matched_in = VStr (lit "Not Found")
   <-> Df.cell row Col.Mismatch_Address = VStr (lit "Manual Research"))
  /\ (needs_update row = false ->
      Df.cell row Col.Phone_to_update = VStr [])
  /\ (Df.cell row Col.Matched_in = VStr (lit "Not Found")
      \/ exists k, Df.cell row Col.Matched_in = VStr (court_label k)).
Proof.
  intros Hin. apply compare_data_left_rows in Hin.
  destruct Hin as [r0 H0 | r0 g0 k H0 Hg Hc Hv He | r0 g0 k valid H0 Hg Hc Hv He].
  - destruct (prepared_federal_cells (columns federal_data) r0)
      as (Hm & Hmm & _ & Hp).
    cbv zeta in *. rewrite Hm, Hmm, Hp. tauto.
  - destruct (verdict_match_cells (court_label k)
                (prepared_federal_row (columns federal_data) r0))
      as (Hm & Hmm & _ & Hp & _).
    destruct (prepared_federal_cells (columns federal_data) r0)
      as (_ & _ & _ & Hp0).
    rewrite Hm, Hmm, Hp, Hp0. split; [|split].
    + split; [intros [= H]; destruct k; discriminate H | discriminate].
    + reflexivity.
    + right. exists k. reflexivity.
  - rewrite needs_update_mismatch.
    destruct (verdict_mismatch_cells (court_label k)
                (columns (prepare_gov gov_data))
                (prepared_gov_row (columns gov_data) g0)
                (VStr (fst (fed_format (columns federal_data) r0)))
                (prepared_federal_row (columns federal_data) r0))
      as (Hm & Hmm & _).
    cbv zeta in *. rewrite Hm, Hmm. split; [|split].
    + split; [intros [= H]; destruct k; discriminate H|].
      unfold mismatch_text. cbn. discriminate.
    + discriminate.
    + right. exists k. reflexivity.
Qed.

Lemma not_found_iff_manual_research_witness :
  let row := first_row (fst (compare_data sample_federal other_court_gov)) in
  (Df.cell row Col.Matched_in = VStr (lit "Not Found")
   <-> Df.cell row Col.Mismatch_Address = VStr (lit "Manual Research"))
  /\ (needs_update row = false ->
      Df.cell row Col.Phone_to_update = VStr [])
  /\ (Df.cell row Col.Matched_in = VStr (lit "Not Found")
      \/ exists k, Df.cell row Col.Matched_in = VStr (court_label k)).
Proof.
  apply (not_found_iff_manual_research sample_federal other_court_gov).
  apply first_row_in. vm_compute. discriminate.
Defined.

(** X5: a row is left with ['No mismatch'] only when a government row
    under its key, of a bankruptcy or district court, has a building
    address that [is_valid_address] accepts and composes to the very
    address that the federal row composes to; the row then names that
    court type in [Matched_in]. *)
Theorem no_mismatch_is_sound (federal_data gov_data : frame)
    (row : gmap string pyval) :
  In row (rows (fst (compare_data federal_data gov_data))) ->
  Df.cell row Col.Mismatch_Address = VStr (lit "No mismatch") ->
  exists r0 g0 k,
    In r0 (rows federal_data) /\ In g0 (rows gov_data)
    /\ is_candidate (court_type k)
         (Df.get (columns federal_data) r0 "Key" empty_str) g0 = true
    /\ is_valid_address (Df.cell g0 "BuildingAddress") = Ok true
    /\ fst (fed_format (columns federal_data) r0)
       = fst (gov_format (columns gov_data) g0)
    /\ Df.cell row Col.Full_Address
       = VStr (fst (gov_format (columns gov_data) g0))
    /\ Df.cell row Col.Matched_in = VStr (court_label k)
    /\ Df.cell row Col.Address_to_update = VStr (lit "No update needed").
Proof.
  intros Hin Hno. apply compare_data_left_rows in Hin.
  destruct Hin as [r0 H0 | r0 g0 k H0 Hg Hc Hv He | r0 g0 k valid H0 Hg Hc Hv He].
  - destruct (prepared_federal_cells (columns federal_data) r0)
      as (_ & Hmm & _). cbv zeta in Hmm. rewrite Hmm in Hno. discriminate.
  - exists r0, g0, k.
    destruct (verdict_match_cells (court_label k)
                (prepared_federal_row (columns federal_data) r0))
      as (Hm & _ & Ha & _ & Hf).
    rewrite Hm, Ha, Hf, prepared_federal_full_address, He. tauto.
  - pose proof (needs_update_mismatch (court_label k)
                  (columns (prepare_gov gov_data))
                  (prepared_gov_row (columns gov_data) g0)
                  (VStr (fst (fed_format (columns federal_data) r0)))
                  (prepared_federal_row (columns federal_data) r0)) as Hn.
    unfold needs_update in Hn. rewrite Hno in Hn. discriminate.
Qed.

Lemma no_mismatch_is_sound_witness :
  let federal_data := sample_federal in
  let gov_data := district_first_gov in
  let row := first_row (fst (compare_data federal_data
                               (sample_gov [hd ∅ (rows gov_data)]))) in
  exists r0 g0 k,
    In r0 (rows federal_data)
    /\ In g0 (rows (sample_gov [hd ∅ (rows gov_data)]))
    /\ is_candidate (court_type k)
         (Df.get (columns federal_data) r0 "Key" empty_str) g0 = true
    /\ is_valid_address (Df.cell g0 "BuildingAddress") = Ok true
    /\ fst (fed_format (columns federal_data) r0)
       = fst (gov_format (columns (sample_gov [hd ∅ (rows gov_data)])) g0)
    /\ Df.cell row Col.Full_Address
       = VStr (fst (gov_format
                      (columns (sample_gov [hd ∅ (rows gov_data)])) g0))
    /\ Df.cell row Col.Matched_in = VStr (court_label k)
    /\ Df.cell row Col.Address_to_update = VStr (lit "No update needed").
Proof.
  intros federal_data gov_data row.
  apply (no_mismatch_is_sound federal_data
           (sample_gov [hd ∅ (rows gov_data)]) row).
  - apply first_row_in. vm_compute. discriminate.
  - vm_compute. reflexivity.
Defined.

Lemma prepared_gov_phone (gov_data : frame) (g0 : gmap string pyval) :
  Df.get (columns (prepare_gov gov_data))
    (prepared_gov_row (columns gov_data) g0) "Phone" empty_str
  = Df.get (columns gov_data) g0 "Phone" empty_str.
Proof.
  rewrite prepare_gov_columns. unfold prepared_gov_row.
  rewrite !get_assign_ne by col_neq. reflexivity.
Qed.

(** X6: a row left with a mismatch (neither ['No mismatch'] nor
    ['Manual Research']) comes from a government row under its key, of a
    bankruptcy or district court, whose building address
    [is_valid_address] refuses or whose composed address differs from the
    federal one.  Its [Mismatch_Address] is the text
    ["Fed: <federal address> | Gov: <government address>"] of the two
    composed addresses and its [Phone_to_update] is the [Phone] of that
    government row, the empty string when the frame has no such column. *)
Theorem mismatch_verdict_content (federal_data gov_data : frame)
    (row : gmap string pyval) :
  In row (rows (fst (compare_data federal_data gov_data))) ->
  needs_update row = true ->
  exists r0 g0 k valid,
    In r0 (rows federal_data) /\ In g0 (rows gov_data)
    /\ is_candidate (court_type k)
         (Df.get (columns federal_data) r0 "Key" empty_str) g0 = true
    /\ is_valid_address (Df.cell g0 "BuildingAddress") = Ok valid
    /\ (valid = false
        \/ fst (fed_format (columns federal_data) r0)
           <> fst (gov_format (columns gov_data) g0))
    /\ Df.cell row Col.Mismatch_Address
       = VStr (lit "Fed: " ++ fst (fed_format (columns federal_data) r0)
               ++ lit " | Gov: "
               ++ fst (gov_format (columns gov_data) g0))
    /\ Df.cell row Col.Phone_to_update
       = Df.get (columns gov_data) g0 "Phone" empty_str
    /\ Df.cell row Col.Matched_in = VStr (court_label k).
Proof.
  intros Hin Hneed. apply compare_data_left_rows in Hin.
  destruct Hin as [r0 H0 | r0 g0 k H0 Hg Hc Hv He | r0 g0 k valid H0 Hg Hc Hv He].
  - rewrite needs_update_prepared in Hneed. discriminate.
  - rewrite needs_update_match in Hneed. discriminate.
  - exists r0, g0, k, valid.
    destruct (verdict_mismatch_cells (court_label k)
                (columns (prepare_gov gov_data))
                (prepared_gov_row (columns gov_data) g0)
                (VStr (fst (fed_format (columns federal_data) r0)))
                (prepared_federal_row (columns federal_data) r0))
      as (Hm & Hmm & _ & Hp & _).
    cbv zeta in *.
    rewrite Hm, Hmm, Hp, prepared_gov_full_address, prepared_gov_phone.
    repeat (split; [assumption|]).
    split; [reflexivity|]. split; reflexivity.
Qed.

Lemma mismatch_verdict_content_witness :
  let federal_data := sample_federal in
  let gov_data := moved_gov in
  let row := first_row (fst (compare_data federal_data gov_data)) in
  exists r0 g0 k valid,
    In r0 (rows federal_data) /\ In g0 (rows gov_data)
    /\ is_candidate (court_type k)
         (Df.get (columns federal_data) r0 "Key" empty_str) g0 = true
    /\ is_valid_address (Df.cell g0 "BuildingAddress") = Ok valid
    /\ (valid = false
        \/ fst (fed_format (columns federal_data) r0)
           <> fst (gov_format (columns gov_data) g0))
    /\ Df.cell row Col.Mismatch_Address
       = VStr (lit "Fed: " ++ fst (fed_format (columns federal_data) r0)
               ++ lit " | Gov: "
               ++ fst (gov_format (columns gov_data) g0))
    /\ Df.cell row Col.Phone_to_update
       = Df.get (columns gov_data) g0 "Phone" empty_str
    /\ Df.cell row Col.Matched_in = VStr (court_label k).
Proof.
  intros federal_data gov_data row.
  apply (mismatch_verdict_content federal_data gov_data row).
  - apply first_row_in. vm_compute. discriminate.
  - vm_compute. reflexivity.
Defined.

(** ** The planner on the frame of the matching pass *)

Lemma left_row_address_is_str (federal_data gov_data : frame)
    (row : gmap string pyval) :
  left_row federal_data gov_data row ->
  exists s, Df.cell row Col.Address_to_update = VStr s.
Proof.
  intros [r0 H0 | r0 g0 k H0 Hg Hc Hv He | r0 g0 k valid H0 Hg Hc Hv He].
  - destruct (prepared_federal_cells (columns federal_data) r0)
      as (_ & _ & Ha & _). eexists. exact Ha.
  - destruct (verdict_match_cells (court_label k)
                (prepared_federal_row (columns federal_data) r0))
      as (_ & _ & Ha & _). eexists. exact Ha.
  - destruct (verdict_mismatch_cells (court_label k)
                (columns (prepare_gov gov_data))
                (prepared_gov_row (columns gov_data) g0)
                (VStr (fst (fed_format (columns federal_data) r0)))
                (prepared_federal_row (columns federal_data) r0))
      as (_ & _ & Ha & _).
    cbv zeta in Ha. rewrite Ha. unfold prepared_gov_row.
    rewrite cell_insert_eq. eexists. reflexivity.
Qed.

Lemma in_prepared_columns (federal_data : frame) (c : string) :
  c ∈ columns federal_data \/ In c derived_columns ->
  c ∈ columns (prepare_federal federal_data).
Proof.
  rewrite prepare_federal_columns, !elem_of_union, !elem_of_singleton.
  unfold derived_columns. cbn [In]. intuition congruence.
Qed.

(** X7: [update_discrepancies] never rolls back on the frame that
    [compare_data] leaves, whether that call returned or raised, when the
    federal frame has a column [courtid]: every row of it holds a string
    as address to update, so the [try] block handles each selected row and
    reaches the commit, with one statement or skip per selected row. *)
Theorem update_discrepancies_after_compare_data
    (federal_data gov_data : frame) :
  "courtid" ∈ columns federal_data ->
  rows federal_data <> [] -> rows gov_data <> [] ->
  let results := fst (compare_data federal_data gov_data) in
  update_discrepancies results
  = (map planned_action (List.filter needs_update (rows results)), Ok tt).
Proof.
  intros Hc _ _ results. unfold update_discrepancies.
  assert (Hcols : columns results = columns (prepare_federal federal_data))
    by apply compare_data_columns.
  rewrite Hcols, has_column_in
    by (apply in_prepared_columns; right; unfold derived_columns;
        cbn; tauto).
  apply plan_rows_planned.
  - apply in_prepared_columns. left. exact Hc.
  - apply in_prepared_columns. right. unfold derived_columns. cbn. tauto.
  - apply in_prepared_columns. right. unfold derived_columns. cbn. tauto.
  - intros row Hrow. apply filter_In in Hrow as [Hin _].
    apply (left_row_address_is_str federal_data gov_data).
    apply compare_data_left_rows. exact Hin.
Qed.

Lemma update_discrepancies_after_compare_data_witness :
  let results := fst (compare_data sample_federal blank_address_gov) in
  update_discrepancies results
  = (map planned_action (List.filter needs_update (rows results)), Ok tt).
Proof.
  apply (update_discrepancies_after_compare_data sample_federal
           blank_address_gov).
  - vm_compute. reflexivity.
  - discriminate.
  - discriminate.
Defined.

(** ** Exceptions of the matching pass *)

Lemma is_valid_address_raise (v : pyval) (e : exn) :
  is_valid_address v = Raise e ->
  e = IndexError
  /\ exists s, v = VStr s /\ s <> [] /\ Str.strip s = [].
Proof.
  destruct v as [| |s|n]; try discriminate.
  - unfold is_valid_address. cbn [Py.truthy Py.is_str Py.str negb orb].
    rewrite negb_involutive, orb_false_r.
    destruct (str_eqb s []) eqn:Hs; [discriminate|].
    apply str_eqb_nil in Hs.
    destruct (Str.strip s) as [|c t] eqn:Hst.
    + intros [= <-]. split; [reflexivity|]. exists s. tauto.
    + destruct (negb (Chr.isdigit c)); [discriminate|].
      destruct (_ || _ || _); discriminate.
  - unfold is_valid_address. cbn [Py.truthy Py.is_str negb].
    rewrite orb_true_r. discriminate.
Qed.

Lemma bind_raise {A B} (m : res A) (k : A -> res B) (e : exn) :
  bind m k = Raise e -> m = Raise e \/ exists a, m = Ok a /\ k a = Raise e.
Proof. destruct m as [a|e']; simpl; [eauto | intros [= ->]; tauto]. Qed.

Lemma item_raise (cols : gset string) (r : gmap string pyval) (c : string)
    (e : exn) :
  Df.item cols r c = Raise e -> e = KeyError /\ c ∉ cols.
Proof.
  unfold Df.item. destruct (decide (c ∈ cols)); [discriminate|].
  intros [= <-]. tauto.
Qed.

Lemma has_column_raise (cols : gset string) (c : string) (e : exn) :
  has_column cols c = Raise e -> e = KeyError /\ c ∉ cols.
Proof.
  unfold has_column. destruct (decide (c ∈ cols)); [discriminate|].
  intros [= <-]. tauto.
Qed.

Lemma judge_raise (label : list ascii) (gcols : gset string)
    (g : gmap string pyval) (fa : pyval) (r : gmap string pyval) (e : exn) :
  judge label gcols g fa r = Raise e ->
  (e = KeyError
   /\ (Col.Full_Address ∉ gcols
       \/ Col.Full_Address_With_BuildingName ∉ gcols
       \/ "BuildingAddress" ∉ gcols))
  \/ (e = IndexError /\ blank_address g).
Proof.
  unfold judge. intros H.
  apply bind_raise in H as [H|(ga & _ & H)];
    [apply item_raise in H; left; tauto|].
  apply bind_raise in H as [H|(gn & _ & H)];
    [apply item_raise in H; left; tauto|].
  apply bind_raise in H as [H|(ba & Hba & H)];
    [apply item_raise in H; left; tauto|].
  apply item_ok in Hba as [_ ->].
  apply bind_raise in H as [H|(valid & _ & H)].
  - apply is_valid_address_raise in H as (-> & s & Hs & Hne & Hst).
    right. split; [reflexivity|]. exists s. tauto.
  - destruct (valid && py_eq fa _); discriminate.
Qed.

Lemma str_accessor_refused (key : pyval) (l : list (gmap string pyval)) :
  str_accessor (cells_of "CourtType" (select false "Key" key l))
  = Raise AttributeError
  <-> refused_courts key l.
Proof.
  unfold str_accessor, refused_courts, cells_of, select.
  destruct (existsb Py.is_str _) eqn:Hs.
  - split; [discriminate|]. intros [Hno _]. exfalso.
    apply existsb_exists in Hs as (v & Hv & Hstr).
    apply in_map_iff in Hv as (g & <- & Hg).
    apply filter_In in Hg as [Hg Hk]. rewrite (Hno g Hg Hk) in Hstr.
    discriminate.
  - cbn [orb].
    assert (Hno : forall g, In g l ->
              Py.eq_cell (Df.cell g "Key") key = true ->
              Py.is_str (Df.cell g "CourtType") = false).
    { intros g Hg Hk. destruct (Py.is_str (Df.cell g "CourtType")) eqn:E;
        [|reflexivity].
      assert (Hex : existsb Py.is_str
                (map (fun r => Df.cell r "CourtType")
                   (List.filter
                      (fun r => Py.eq_cell (Df.cell r "Key") key) l))
              = true).
      { apply existsb_exists. exists (Df.cell g "CourtType").
        split; [|exact E].
        apply (in_map (fun r => Df.cell r "CourtType")). apply filter_In.
        split; assumption. }
      congruence. }
    destruct (forallb Py.isnull _) eqn:Hn.
    + split; [discriminate|]. intros [_ (g & Hg & Hk & Hnull)]. exfalso.
      rewrite forallb_forall in Hn.
      rewrite Hn in Hnull; [discriminate|].
      apply (in_map (fun r => Df.cell r "CourtType")). apply filter_In.
      split; assumption.
    + split; [|reflexivity]. intros _. split; [exact Hno|].
      assert (Hex : existsb (fun v => negb (Py.isnull v))
                (map (fun r => Df.cell r "CourtType")
                   (List.filter
                      (fun r => Py.eq_cell (Df.cell r "Key") key) l))
              = true).
      { clear Hs Hno.
        induction (map (fun r => Df.cell r "CourtType") _) as [|v vs IH];
          [discriminate|].
        cbn [forallb existsb] in *. destruct (Py.isnull v); cbn [andb negb orb] in *;
          [apply IH; exact Hn | reflexivity]. }
      apply existsb_exists in Hex as (v & Hv & Hnn).
      apply in_map_iff in Hv as (g & <- & Hg).
      apply filter_In in Hg as [Hg Hk]. exists g.
      split; [exact Hg|]. split; [exact Hk|].
      destruct (Py.isnull _); [discriminate | reflexivity].
Qed.

Lemma str_accessor_raise (cells : list pyval) (e : exn) :
  str_accessor cells = Raise e -> e = AttributeError.
Proof.
  unfold str_accessor. destruct (_ || _); [discriminate|]. congruence.
Qed.

Lemma compare_row_raise (gov : frame) (fcols : gset string)
    (r : gmap string pyval) (e : exn) :
  compare_row gov fcols r = Raise e ->
  (e = KeyError
   /\ (Col.Full_Address ∉ fcols
       \/ "Key" ∉ columns gov \/ "CourtType" ∉ columns gov
       \/ Col.Full_Address ∉ columns gov
       \/ Col.Full_Address_With_BuildingName ∉ columns gov
       \/ "BuildingAddress" ∉ columns gov))
  \/ (e = IndexError
      /\ exists k g,
           In g (rows gov)
           /\ is_candidate (court_type k)
                (Df.get fcols r "Key" empty_str) g = true
           /\ blank_address g)
  \/ (e = AttributeError
      /\ refused_courts (Df.get fcols r "Key" empty_str) (rows gov)).
Proof.
  rewrite compare_row_once. cbv zeta. intros H.
  apply bind_raise in H as [H|(fa & _ & H)];
    [apply item_raise in H; left; tauto|].
  apply bind_raise in H as [H|(? & _ & H)];
    [apply has_column_raise in H; left; tauto|].
  apply bind_raise in H as [H|(? & _ & H)];
    [apply has_column_raise in H; left; tauto|].
  apply bind_raise in H as [H|(? & _ & H)].
  { right. right. pose proof (str_accessor_raise _ _ H) as ->.
    split; [reflexivity|]. apply str_accessor_refused. exact H. }
  destruct (select true "CourtType" (VStr (lit "bankruptcy court")) _)
    as [|g tl] eqn:Hb.
  - destruct (select true "CourtType" (VStr (lit "district court")) _)
      as [|g tl] eqn:Hd; [discriminate|].
    apply select_select_head in Hd as [Hin Hc].
    apply judge_raise in H as [[-> H]|[-> H]]; [left; tauto|].
    right. left. split; [reflexivity|]. exists District, g. tauto.
  - apply select_select_head in Hb as [Hin Hc].
    apply judge_raise in H as [[-> H]|[-> H]]; [left; tauto|].
    right. left. split; [reflexivity|]. exists Bankruptcy, g. tauto.
Qed.

Lemma compare_rows_raise (gov : frame) (fcols : gset string)
    (todo : list (gmap string pyval)) (e : exn) :
  snd (compare_rows gov fcols todo) = Raise e ->
  exists r, In r todo /\ compare_row gov fcols r = Raise e.
Proof.
  induction todo as [|r todo IH]; [discriminate|]. cbn [compare_rows].
  destruct (compare_row gov fcols r) as [r'|e'] eqn:Hr.
  - destruct (compare_rows gov fcols todo) as [rest o]. cbn [snd] in *.
    intros H. destruct (IH H) as (r1 & Hin & Hr1). exists r1.
    split; [right; exact Hin | exact Hr1].
  - cbn [snd]. intros [= ->]. exists r. split; [left; reflexivity | exact Hr].
Qed.

Lemma compare_data_outcome (federal_data gov_data : frame) :
  snd (compare_data federal_data gov_data)
  = snd (compare_rows (prepare_gov gov_data)
           (columns (prepare_federal federal_data))
           (rows (prepare_federal federal_data))).
Proof.
  unfold compare_data. destruct (compare_rows _ _ _). reflexivity.
Qed.

Lemma blank_address_prepared (cols : gset string) (g0 : gmap string pyval) :
  blank_address (prepared_gov_row cols g0) -> blank_address g0.
Proof.
  unfold blank_address.
  rewrite prepared_gov_cell
    by (unfold Col.Full_Address, Col.Full_Address_With_BuildingName;
        discriminate).
  tauto.
Qed.

Lemma refused_courts_prepared (cols : gset string) (key : pyval)
    (gov_rows : list (gmap string pyval)) :
  refused_courts key (map (prepared_gov_row cols) gov_rows) ->
  refused_courts key gov_rows.
Proof.
  intros [Hno (g & Hg & Hk & Hn)].
  apply in_map_iff in Hg as (g0 & <- & Hg0).
  rewrite !prepared_gov_cell in Hk, Hn by col_neq. split.
  - intros g1 Hg1 Hk1.
    specialize (Hno (prepared_gov_row cols g1) (in_map _ _ _ Hg1)).
    rewrite !prepared_gov_cell in Hno by col_neq. apply Hno. exact Hk1.
  - exists g0. tauto.
Qed.

Lemma compare_data_raise (federal_data gov_data : frame) (e : exn) :
  snd (compare_data federal_data gov_data) = Raise e ->
  (e = KeyError
   /\ ("Key" ∉ columns gov_data \/ "CourtType" ∉ columns gov_data
       \/ "BuildingAddress" ∉ columns gov_data))
  \/ (e = IndexError
      /\ exists r0 g0 k,
           In r0 (rows federal_data) /\ In g0 (rows gov_data)
           /\ is_candidate (court_type k)
                (Df.get (columns federal_data) r0 "Key" empty_str) g0 = true
           /\ blank_address g0)
  \/ (e = AttributeError
      /\ exists r0,
           In r0 (rows federal_data)
           /\ refused_courts
                (Df.get (columns federal_data) r0 "Key" empty_str)
                (rows gov_data)).
Proof.
  rewrite compare_data_outcome. intros H.
  apply compare_rows_raise in H as (r & Hr & H).
  rewrite prepare_federal_rows in Hr.
  apply in_map_iff in Hr as (r0 & <- & H0).
  apply compare_row_raise
    in H as [[-> H]|[[-> (k & g & Hg & Hc & Hb)]|[-> H]]].
  - left. split; [reflexivity|].
    rewrite prepare_federal_columns, prepare_gov_columns in H.
    rewrite !not_elem_of_union, !not_elem_of_singleton in H.
    unfold Col.Full_Address, Col.Full_Address_With_BuildingName,
      Col.Matched_in, Col.Mismatch_Address, Col.Address_to_update,
      Col.Phone_to_update in H.
    intuition congruence.
  - right. left. split; [reflexivity|].
    rewrite prepare_gov_rows in Hg.
    apply in_map_iff in Hg as (g0 & <- & Hg0).
    rewrite prepared_gov_candidate in Hc.
    rewrite (prepared_federal_key _ _ _
               (prepare_federal_columns federal_data)) in Hc.
    apply blank_address_prepared in Hb. exists r0, g0, k. tauto.
  - right. right. split; [reflexivity|]. exists r0. split; [exact H0|].
    rewrite (prepared_federal_key _ _ _
               (prepare_federal_columns federal_data)) in H.
    rewrite prepare_gov_rows in H.
    apply refused_courts_prepared in H. exact H.
Qed.

(** X8: on a federal frame with a row and a government frame whose court
    types are a column of text, the matching pass of [compare_data] (steps
    1 to 4, before the export) can raise three exceptions and no other.  It raises [KeyError]
    only when the government frame lacks the column [Key], [CourtType] or
    [BuildingAddress]; [IndexError] only when a government row that is a
    candidate for some federal row (same key, bankruptcy or district
    court) has a building address that is a non-empty string of
    whitespace; and [AttributeError] only when, under the key of some
    federal row, no government row holds a string as [CourtType] and one
    holds a value that is not missing, which the accessor [.str]
    refuses. *)
Theorem compare_data_exceptions (federal_data gov_data : frame) (e : exn) :
  rows federal_data <> [] ->
  text_courts (rows gov_data) = true ->
  snd (compare_data federal_data gov_data) = Raise e ->
  (e = KeyError
   /\ ("Key" ∉ columns gov_data \/ "CourtType" ∉ columns gov_data
       \/ "BuildingAddress" ∉ columns gov_data))
  \/ (e = IndexError
      /\ exists r0 g0 k,
           In r0 (rows federal_data) /\ In g0 (rows gov_data)
           /\ is_candidate (court_type k)
                (Df.get (columns federal_data) r0 "Key" empty_str) g0 = true
           /\ blank_address g0)
  \/ (e = AttributeError
      /\ exists r0,
           In r0 (rows federal_data)
           /\ refused_courts
                (Df.get (columns federal_data) r0 "Key" empty_str)
                (rows gov_data)).
Proof. intros _ _. apply compare_data_raise. Qed.

Lemma compare_data_exceptions_witness :
  let federal_data := sample_federal in
  let gov_data := number_court_gov in
  let e := AttributeError in
  (e = KeyError
   /\ ("Key" ∉ columns gov_data \/ "CourtType" ∉ columns gov_data
       \/ "BuildingAddress" ∉ columns gov_data))
  \/ (e = IndexError
      /\ exists r0 g0 k,
           In r0 (rows federal_data) /\ In g0 (rows gov_data)
           /\ is_candidate (court_type k)
                (Df.get (columns federal_data) r0 "Key" empty_str) g0 = true
           /\ blank_address g0)
  \/ (e = AttributeError
      /\ exists r0,
           In r0 (rows federal_data)
           /\ refused_courts
                (Df.get (columns federal_data) r0 "Key" empty_str)
                (rows gov_data)).
Proof.
  intros federal_data gov_data e.
  apply (compare_data_exceptions federal_data gov_data e).
  - discriminate.
  - vm_compute. reflexivity.
  - vm_compute. reflexivity.
Defined.

Lemma blank_addressb_false (g : gmap string pyval) :
  blank_addressb g = false -> ~ blank_address g.
Proof.
  unfold blank_addressb, blank_address. intros H (s & Hs & Hne & Hst).
  rewrite Hs, Hst in H. apply str_eqb_nil in Hne. rewrite Hne in H.
  discriminate.
Qed.

(** X9: the matching pass of [compare_data] (steps 1 to 4, before the
    export) ends without an exception, with a verdict on every federal
    row, when the government frame has the columns [Key], [CourtType] and
    [BuildingAddress], every [CourtType] is a string or missing, one at
    least being a string, and no building address is a non-empty string of
    whitespace. *)
Theorem compare_data_returns (federal_data gov_data : frame) :
  "Key" ∈ columns gov_data -> "CourtType" ∈ columns gov_data ->
  "BuildingAddress" ∈ columns gov_data ->
  rows federal_data <> [] -> rows gov_data <> [] ->
  text_courts (rows gov_data) = true ->
  forallb court_type_is_text (rows gov_data) = true ->
  forallb (fun g => negb (blank_addressb g)) (rows gov_data) = true ->
  snd (compare_data federal_data gov_data) = Ok tt.
Proof.
  intros Hk Hc Hb _ _ _ Htext Hall.
  destruct (snd (compare_data federal_data gov_data)) as [[]|e] eqn:Ho;
    [reflexivity|].
  apply compare_data_raise
    in Ho as [[_ H]|[[_ (r0 & g0 & k & _ & Hg & _ & Hbl)]
                    |[_ (r0 & _ & Hno & g & Hg & Hkey & Hnull)]]].
  - tauto.
  - rewrite forallb_forall in Hall. apply Hall in Hg.
    apply negb_true_iff, blank_addressb_false in Hg. contradiction.
  - rewrite forallb_forall in Htext. pose proof (Htext g Hg) as Ht.
    unfold court_type_is_text in Ht. rewrite (Hno g Hg Hkey), Hnull in Ht.
    discriminate.
Qed.

Lemma compare_data_returns_witness :
  snd (compare_data sample_federal district_first_gov) = Ok tt.
Proof.
  apply (compare_data_returns sample_federal district_first_gov);
    try (vm_compute; reflexivity); discriminate.
Defined.

(** ** District courts and other courts *)

(** X10: when no government row under the key of a federal row is a
    bankruptcy court, the loop body judges the federal row against the
    first district-court row under that key, in input order, and a verdict
    it leaves has [Matched_in] equal to ['Gov (District Court)']. *)
Theorem district_court_is_the_fallback (gov_data : frame)
    (fcols : gset string) (federal_row : gmap string pyval)
    (pre post : list (gmap string pyval)) (d : gmap string pyval) :
  Col.Full_Address ∈ fcols ->
  "Key" ∈ columns gov_data ->
  "CourtType" ∈ columns gov_data ->
  (forall g, In g (rows gov_data) ->
     is_candidate (court_type Bankruptcy)
       (Df.get fcols federal_row "Key" empty_str) g = false) ->
  rows gov_data = pre ++ d :: post ->
  (forall g, In g pre ->
     is_candidate (court_type District)
       (Df.get fcols federal_row "Key" empty_str) g = false) ->
  is_candidate (court_type District)
    (Df.get fcols federal_row "Key" empty_str) d = true ->
  compare_row gov_data fcols federal_row
  = judge (lit "Gov (District Court)") (columns gov_data) d
      (Df.cell federal_row Col.Full_Address) federal_row
  /\ (forall row',
        compare_row gov_data fcols federal_row = Ok row' ->
        Df.cell row' Col.Matched_in = VStr (lit "Gov (District Court)")).
Proof.
  intros Hfa Hkey Hct Hnob Hrows Hpre Hd.
  assert (Heq : compare_row gov_data fcols federal_row
                = judge (lit "Gov (District Court)") (columns gov_data) d
                    (Df.cell federal_row Col.Full_Address) federal_row).
  { rewrite compare_row_once. cbv zeta.
    rewrite (item_in _ _ _ Hfa), (has_column_in _ _ Hkey),
      (has_column_in _ _ Hct). cbn [bind].
    rewrite (accessor_candidate _ _ (rows gov_data) d
               ltac:(rewrite Hrows; apply in_elt) Hd). cbn [bind].
    change (lit "bankruptcy court") with (court_type Bankruptcy).
    rewrite (select_select_none _ _ _ Hnob). rewrite Hrows.
    change (lit "district court") with (court_type District).
    destruct (select_select_first _ _ pre post d Hpre Hd) as [tl ->].
    reflexivity. }
  split; [exact Heq|]. intros row' Hrow'. rewrite Heq in Hrow'.
  apply judge_matched_in in Hrow'. exact Hrow'.
Qed.

Lemma district_court_is_the_fallback_witness :
  let gov := prepare_gov district_and_tax_gov in
  let fcols := columns (prepare_federal sample_federal) in
  let federal_row := first_row (prepare_federal sample_federal) in
  let d := nth 1 (rows gov) ∅ in
  compare_row gov fcols federal_row
  = judge (lit "Gov (District Court)") (columns gov) d
      (Df.cell federal_row Col.Full_Address) federal_row
  /\ (forall row',
        compare_row gov fcols federal_row = Ok row' ->
        Df.cell row' Col.Matched_in = VStr (lit "Gov (District Court)")).
Proof.
  intros gov fcols federal_row d.
  apply (district_court_is_the_fallback gov fcols federal_row
           (firstn 1 (rows gov)) (skipn 2 (rows gov)) d).
  - vm_compute. reflexivity.
  - vm_compute. reflexivity.
  - vm_compute. reflexivity.
  - assert (Hall : forallb
                     (fun g => negb (is_candidate (court_type Bankruptcy)
                                       (Df.get fcols federal_row "Key"
                                          empty_str) g))
                     (rows gov) = true)
      by (vm_compute; reflexivity).
    intros g Hg. rewrite forallb_forall in Hall.
    apply Hall in Hg. apply negb_true_iff in Hg. exact Hg.
  - apply second_row_split. vm_compute. lia.
  - assert (Hall : forallb
                     (fun g => negb (is_candidate (court_type District)
                                       (Df.get fcols federal_row "Key"
                                          empty_str) g))
                     (firstn 1 (rows gov)) = true)
      by (vm_compute; reflexivity).
    intros g Hg. rewrite forallb_forall in Hall.
    apply Hall in Hg. apply negb_true_iff in Hg. exact Hg.
  - vm_compute. reflexivity.
Defined.

Lemma filter_filter_filter {A} (p q k : A -> bool) (l : list A) :
  (forall x, p x = true -> k x = true) ->
  List.filter p (List.filter q (List.filter k l))
  = List.filter p (List.filter q l).
Proof.
  intros H. induction l as [|x l IH]; [reflexivity|]. cbn [List.filter].
  destruct (k x) eqn:Hk.
  - cbn [List.filter]. destruct (q x); [|exact IH].
    cbn [List.filter]. rewrite IH. reflexivity.
  - rewrite IH. destruct (q x); [|reflexivity]. cbn [List.filter].
    destruct (p x) eqn:Hp; [|reflexivity].
    rewrite (H x Hp) in Hk. discriminate.
Qed.

Lemma accessor_text (key : pyval) (l : list (gmap string pyval)) :
  (forall g, In g l -> court_type_is_text g = true) ->
  str_accessor (cells_of "CourtType" (select false "Key" key l)) = Ok tt.
Proof.
  intros Htext.
  destruct (str_accessor _) as [[]|e] eqn:Ha; [reflexivity|]. exfalso.
  pose proof (str_accessor_raise _ _ Ha) as ->.
  apply str_accessor_refused in Ha as [Hno (g & Hg & Hk & Hnull)].
  pose proof (Htext g Hg) as Ht. unfold court_type_is_text in Ht.
  rewrite (Hno g Hg Hk), Hnull in Ht. discriminate.
Qed.

Lemma compare_row_court_relevant (gcols fcols : gset string)
    (rs : list (gmap string pyval)) (r : gmap string pyval) :
  (forall g, In g rs -> court_type_is_text g = true) ->
  compare_row (Frame gcols (List.filter court_relevant rs)) fcols r
  = compare_row (Frame gcols rs) fcols r.
Proof.
  intros Htext. rewrite !compare_row_once. cbv zeta. cbn [rows columns].
  rewrite (accessor_text _ rs Htext).
  rewrite (accessor_text _ (List.filter court_relevant rs))
    by (intros g Hg; apply filter_In in Hg as [Hg _]; apply Htext, Hg).
  unfold select.
  rewrite !filter_filter_filter; [reflexivity | |].
  - intros g H. unfold court_relevant. cbn [court_type].
    rewrite H. apply orb_true_r.
  - intros g H. unfold court_relevant. cbn [court_type].
    rewrite H. reflexivity.
Qed.

Lemma court_relevant_prepared (cols : gset string)
    (g0 : gmap string pyval) :
  court_relevant (prepared_gov_row cols g0) = court_relevant g0.
Proof.
  unfold court_relevant.
  rewrite prepared_gov_cell
    by (unfold Col.Full_Address, Col.Full_Address_With_BuildingName;
        discriminate).
  reflexivity.
Qed.

Lemma map_filter_comm {A B} (f : A -> B) (k : B -> bool) (k0 : A -> bool)
    (l : list A) :
  (forall x, k (f x) = k0 x) ->
  map f (List.filter k0 l) = List.filter k (map f l).
Proof.
  intros H. induction l as [|x l IH]; [reflexivity|].
  cbn [List.filter map]. rewrite H. destruct (k0 x); cbn [map];
    rewrite IH; reflexivity.
Qed.

Lemma frame_eq (a b : frame) :
  columns a = columns b -> rows a = rows b -> a = b.
Proof. destruct a, b; cbn; intros -> ->; reflexivity. Qed.

Lemma prepare_gov_court_relevant (gcols : gset string)
    (rs : list (gmap string pyval)) :
  prepare_gov (Frame gcols (List.filter court_relevant rs))
  = Frame (columns (prepare_gov (Frame gcols rs)))
      (List.filter court_relevant (rows (prepare_gov (Frame gcols rs)))).
Proof.
  apply frame_eq; [reflexivity|]. rewrite !prepare_gov_rows.
  cbn [rows columns].
  apply (map_filter_comm (prepared_gov_row gcols) court_relevant
           court_relevant).
  intros x. apply court_relevant_prepared.
Qed.

Lemma court_type_is_text_prepared (cols : gset string)
    (g0 : gmap string pyval) :
  court_type_is_text (prepared_gov_row cols g0) = court_type_is_text g0.
Proof.
  unfold court_type_is_text.
  rewrite prepared_gov_cell by col_neq. reflexivity.
Qed.

(** X11: in a government frame whose court types are strings or missing,
    the rows of a court type other than bankruptcy court and district
    court (compared in lower case) have no part in the matching pass:
    [compare_data] leaves the same federal frame and ends the same way
    with or without them. *)
Theorem other_court_types_are_ignored (federal_data : frame)
    (gcols : gset string) (rs : list (gmap string pyval)) :
  rows federal_data <> [] -> List.filter court_relevant rs <> [] ->
  forallb court_type_is_text rs = true ->
  compare_data federal_data (Frame gcols (List.filter court_relevant rs))
  = compare_data federal_data (Frame gcols rs).
Proof.
  intros _ _ Htext. unfold compare_data.
  assert (Hprep : forall g,
             In g (rows (prepare_gov (Frame gcols rs))) ->
             court_type_is_text g = true).
  { intros g Hg. rewrite prepare_gov_rows in Hg.
    apply in_map_iff in Hg as (g0 & <- & Hg0).
    rewrite court_type_is_text_prepared. rewrite forallb_forall in Htext.
    apply Htext. exact Hg0. }
  assert (Hrows : forall todo,
             compare_rows
               (prepare_gov (Frame gcols (List.filter court_relevant rs)))
               (columns (prepare_federal federal_data)) todo
             = compare_rows (prepare_gov (Frame gcols rs))
                 (columns (prepare_federal federal_data)) todo).
  { induction todo as [|r todo IH]; [reflexivity|]. cbn [compare_rows].
    rewrite IH.
    rewrite (prepare_gov_court_relevant gcols rs).
    rewrite compare_row_court_relevant by exact Hprep.
    destruct (prepare_gov (Frame gcols rs)); reflexivity. }
  rewrite Hrows. reflexivity.
Qed.

Lemma other_court_types_are_ignored_witness :
  compare_data sample_federal
    (Frame gov_columns
       (List.filter court_relevant (rows district_and_tax_gov)))
  = compare_data sample_federal (Frame gov_columns (rows district_and_tax_gov)).
Proof.
  apply (other_court_types_are_ignored sample_federal gov_columns
           (rows district_and_tax_gov)).
  - discriminate.
  - assert (H : length (List.filter court_relevant
                          (rows district_and_tax_gov)) = 1)
      by (vm_compute; reflexivity).
    intros Hnil. rewrite Hnil in H. discriminate.
  - vm_compute. reflexivity.
Defined.

(** ** Statements of the planner *)

Lemma split_from_parts (sep : ascii) (cur s : list ascii)
    (p : list ascii) :
  Forall (fun c => c <> sep) cur ->
  In p (Str.split_from sep cur s) -> Forall (fun c => c <> sep) p.
Proof.
  revert cur. induction s as [|c s IH]; intros cur Hcur Hin.
  - cbn in Hin. destruct Hin as [<-|[]]. exact Hcur.
  - cbn [Str.split_from] in Hin.
    destruct (bool_decide (c = sep)) eqn:Hc.
    + destruct Hin as [<-|Hin]; [exact Hcur|].
      apply (IH []); [constructor | exact Hin].
    + apply bool_decide_eq_false in Hc.
      apply (IH (cur ++ [c])); [|exact Hin].
      apply Forall_app. split; [exact Hcur|]. constructor; [exact Hc|].
      constructor.
Qed.

Lemma part_clean_field (s : list ascii) (i : nat) :
  i < length (map Str.strip (Str.split ","%char s)) ->
  clean_field (part (map Str.strip (Str.split ","%char s)) i).
Proof.
  intros Hi. unfold part. eexists. split; [reflexivity|].
  assert (Hin : In (nth i (map Str.strip (Str.split ","%char s)) [])
                  (map Str.strip (Str.split ","%char s)))
    by (apply nth_In; exact Hi).
  apply in_map_iff in Hin as (p & <- & Hp). split.
  - apply Forall_strip. apply (split_from_parts _ [] s p); [constructor|].
    exact Hp.
  - apply strip_trimmed.
Qed.

Lemma plan_rows_log (cols : gset string) (l : list (gmap string pyval))
    (a : action) :
  In a (fst (plan_rows cols l)) ->
  exists row, In row l /\ plan_row cols row = Ok a.
Proof.
  induction l as [|row l IH]; [intros []|]. cbn [plan_rows].
  destruct (plan_row cols row) as [a0|e] eqn:Hrow; [|intros []].
  destruct (plan_rows cols l) as [log o]. cbn [fst] in *.
  intros [<-|Hin].
  - exists row. split; [left; reflexivity | exact Hrow].
  - destruct (IH Hin) as (r & Hr & Hp). exists r.
    split; [right; exact Hr | exact Hp].
Qed.

(** X12: every statement that [update_discrepancies] executes, and every
    skip it prints, stems from a row whose [Mismatch_Address] is neither
    ['No mismatch'] nor ['Manual Research'] and carries the [courtid] of
    that row.  In a statement [city] equals [filingcity], the phone is
    the [Phone_to_update] of the row, [address2] is [None] or a string,
    and every string written from the address holds no comma and no
    whitespace at its ends. *)
Theorem executed_statements_are_clean (comparison_results : frame)
    (a : action) :
  In a (fst (update_discrepancies comparison_results)) ->
  exists row,
    In row (rows comparison_results) /\ needs_update row = true
    /\ match a with
       | Skipped court_id => court_id = Df.cell row "courtid"
       | Execute i =>
           p_courtid i = Df.cell row "courtid"
           /\ p_phone i = Df.cell row Col.Phone_to_update
           /\ p_city i = p_filingcity i
           /\ clean_field (p_address1 i) /\ clean_field (p_city i)
           /\ clean_field (p_state i) /\ clean_field (p_zipcode i)
           /\ (p_address2 i = VNone \/ clean_field (p_address2 i))
       end.
Proof.
  unfold update_discrepancies.
  destruct (has_column (columns comparison_results) Col.Mismatch_Address);
    [|intros []].
  intros Hin. apply plan_rows_log in Hin as (row & Hrow & Hplan).
  apply filter_In in Hrow as [Hrow Hneed]. exists row.
  split; [exact Hrow|]. split; [exact Hneed|].
  unfold plan_row in Hplan.
  apply bind_ok in Hplan as (cid & Hcid & Hplan).
  apply item_ok in Hcid as [_ ->].
  apply bind_ok in Hplan as (addr & _ & Hplan).
  apply bind_ok in Hplan as (ph & Hph & Hplan).
  apply item_ok in Hph as [_ ->].
  destruct addr as [| |s|n]; try discriminate.
  set (parts := map Str.strip (Str.split ","%char s)) in *.
  destruct (length parts =? 4) eqn:H4.
  - apply Nat.eqb_eq in H4. injection Hplan as <-. cbn.
    repeat (split; [reflexivity|]).
    repeat (split; [apply part_clean_field; fold parts; lia|]).
    left. reflexivity.
  - destruct (5 <=? length parts) eqn:H5.
    + apply Nat.leb_le in H5. injection Hplan as <-. cbn.
      repeat (split; [reflexivity|]).
      repeat (split; [apply part_clean_field; fold parts; lia|]).
      right. apply part_clean_field. fold parts. lia.
    + injection Hplan as <-. reflexivity.
Qed.

Lemma executed_statements_are_clean_witness :
  exists row,
    In row (rows sample_results) /\ needs_update row = true
    /\ match hd (Skipped VNone) (fst (update_discrepancies sample_results))
       with
       | Skipped court_id => court_id = Df.cell row "courtid"
       | Execute i =>
           p_courtid i = Df.cell row "courtid"
           /\ p_phone i = Df.cell row Col.Phone_to_update
           /\ p_city i = p_filingcity i
           /\ clean_field (p_address1 i) /\ clean_field (p_city i)
           /\ clean_field (p_state i) /\ clean_field (p_zipcode i)
           /\ (p_address2 i = VNone \/ clean_field (p_address2 i))
       end.
Proof.
  apply (executed_statements_are_clean sample_results).
  assert (H : length (fst (update_discrepancies sample_results)) = 4)
    by (vm_compute; reflexivity).
  destruct (fst (update_discrepancies sample_results)) as [|a l];
    [discriminate H | left; reflexivity].
Defined.

(** ** From the components of an address to the fields of a statement *)

Lemma split_format_address (address1 address2 city state zipcode : pyval) :
  map Str.strip
    (Str.split ","%char
       (fst (format_address address1 address2 city state zipcode)))
  = if required_given address1 city state zipcode
    then match
           kept_parts (given_components address1 address2 city state zipcode)
         with [] => [[]] | ps => ps end
    else [[]].
Proof.
  rewrite format_address_joined.
  destruct (required_given address1 city state zipcode); [|reflexivity].
  cbn [fst]. unfold joined.
  fold (kept_parts (given_components address1 address2 city state zipcode)).
  pose proof (kept_parts_normal
                (given_components address1 address2 city state zipcode))
    as Hn.
  destruct (kept_parts
              (given_components address1 address2 city state zipcode))
    as [|p ps] eqn:Hparts; [reflexivity|].
  apply split_join; [exact Hn | discriminate].
Qed.

Lemma kept_parts_length (address1 address2 city state zipcode : pyval) :
  length (kept_parts (given_components address1 address2 city state zipcode))
  <= 5.
Proof.
  unfold kept_parts, given_components.
  etransitivity; [apply filter_length_le|].
  rewrite length_map. destruct (Py.truthy address2); cbn; lia.
Qed.

Lemma snd_format_address (address1 address2 city state zipcode : pyval) :
  snd (format_address address1 address2 city state zipcode)
  = fst (format_address address1 address2 city state zipcode).
Proof.
  rewrite format_address_joined.
  destruct (required_given address1 city state zipcode); reflexivity.
Qed.

Lemma plan_row_format_address (cols : gset string)
    (row : gmap string pyval) (address1 address2 city state zipcode : pyval) :
  "courtid" ∈ cols -> Col.Address_to_update ∈ cols ->
  Col.Phone_to_update ∈ cols ->
  Df.cell row Col.Address_to_update
  = VStr (snd (format_address address1 address2 city state zipcode)) ->
  plan_row cols row
  = Ok (action_of_parts
          (if required_given address1 city state zipcode
           then kept_parts
                  (given_components address1 address2 city state zipcode)
           else [])
          (Df.cell row Col.Phone_to_update) (Df.cell row "courtid")).
Proof.
  intros Hc Ha Hp Hs. unfold plan_row.
  rewrite (item_in _ _ _ Hc), (item_in _ _ _ Ha), (item_in _ _ _ Hp).
  cbn [bind]. rewrite Hs, snd_format_address, split_format_address.
  pose proof (kept_parts_length address1 address2 city state zipcode) as Hl.
  destruct (required_given address1 city state zipcode); [|reflexivity].
  destruct (kept_parts
              (given_components address1 address2 city state zipcode))
    as [|a [|b [|c [|d [|e [|f l]]]]]]; try reflexivity.
  cbn in Hl. lia.
Qed.

Lemma normalized_truthy (v : pyval) :
  clean_and_normalize v <> [] -> Py.truthy v = true.
Proof.
  unfold clean_and_normalize. destruct (Py.truthy v); [reflexivity|].
  cbn. congruence.
Qed.

Lemma str_eqb_not_nil (s : list ascii) : s <> [] -> str_eqb s [] = false.
Proof.
  intros H. unfold str_eqb. apply bool_decide_eq_false_2. exact H.
Qed.

(** X13: the planner reads back the components that [format_address]
    joined.  For a row whose [Address_to_update] is an address composed
    from components of which the four required ones normalise to non-empty
    strings, the statement has [address1], [city] = [filingcity], [state]
    and [zipcode] set to the normalised components, and [address2] set to
    the normalised [address2] when that is not empty and to [None]
    otherwise. *)
Theorem planned_fields_are_the_components (cols : gset string)
    (row : gmap string pyval) (address1 address2 city state zipcode : pyval) :
  "courtid" ∈ cols -> Col.Address_to_update ∈ cols ->
  Col.Phone_to_update ∈ cols ->
  Df.cell row Col.Address_to_update
  = VStr (snd (format_address address1 address2 city state zipcode)) ->
  clean_and_normalize address1 <> [] -> clean_and_normalize city <> [] ->
  clean_and_normalize state <> [] -> clean_and_normalize zipcode <> [] ->
  plan_row cols row
  = Ok (Execute
          (Instruction (VStr (clean_and_normalize address1))
             (if str_eqb (clean_and_normalize address2) [] then VNone
              else VStr (clean_and_normalize address2))
             (VStr (clean_and_normalize city))
             (VStr (clean_and_normalize city))
             (VStr (clean_and_normalize state))
             (VStr (clean_and_normalize zipcode))
             (Df.cell row Col.Phone_to_update) (Df.cell row "courtid"))).
Proof.
  intros Hc Ha Hp Hs H1 H2 H3 H4.
  rewrite (plan_row_format_address cols row address1 address2 city state
             zipcode Hc Ha Hp Hs).
  unfold required_given.
  rewrite !normalized_truthy by assumption. cbn [andb].
  unfold kept_parts, given_components.
  destruct (Py.truthy address2) eqn:Ht.
  - cbn [app map List.filter].
    rewrite (str_eqb_not_nil _ H1), (str_eqb_not_nil _ H2), (str_eqb_not_nil _ H3),
      (str_eqb_not_nil _ H4). cbn [negb].
    destruct (str_eqb (clean_and_normalize address2) []); reflexivity.
  - cbn [app map List.filter].
    rewrite (str_eqb_not_nil _ H1), (str_eqb_not_nil _ H2), (str_eqb_not_nil _ H3),
      (str_eqb_not_nil _ H4). cbn [negb].
    assert (Hn : clean_and_normalize address2 = []).
    { unfold clean_and_normalize. rewrite Ht. reflexivity. }
    rewrite Hn. reflexivity.
Qed.

Lemma planned_fields_are_the_components_witness :
  let row := result_row 7 (lit "Fed: a | Gov: b")
               (lit "9 elm road, federal building, springfield, il, 62701")
               (lit "555-0199") in
  plan_row (columns sample_results) row
  = Ok (Execute
          (Instruction (VStr (lit "9 elm road"))
             (VStr (lit "federal building"))
             (VStr (lit "springfield")) (VStr (lit "springfield"))
             (VStr (lit "il")) (VStr (lit "62701"))
             (Df.cell row Col.Phone_to_update) (Df.cell row "courtid"))).
Proof.
  intros row.
  apply (planned_fields_are_the_components (columns sample_results) row
           (VStr (lit "9 Elm Rd.")) (VStr (lit "Federal Bldg"))
           (VStr (lit "Springfield")) (VStr (lit "IL"))
           (VStr (lit "62701"))).
  - vm_compute. reflexivity.
  - vm_compute. reflexivity.
  - vm_compute. reflexivity.
  - vm_compute. reflexivity.
  - vm_compute. discriminate.
  - vm_compute. discriminate.
  - vm_compute. discriminate.
  - vm_compute. discriminate.
Defined.

Lemma verdict_mismatch_courtid (label : list ascii) (gcols : gset string)
    (g : gmap string pyval) (fa : pyval) (cols : gset string)
    (r0 : gmap string pyval) :
  Df.cell (verdict_mismatch label gcols g fa (prepared_federal_row cols r0))
    "courtid"
  = Df.cell r0 "courtid".
Proof.
  unfold verdict_mismatch, prepared_federal_row.
  rewrite !cell_insert_ne by col_neq. reflexivity.
Qed.

Lemma prepared_gov_with_name (cols : gset string) (g0 : gmap string pyval) :
  Df.cell (prepared_gov_row cols g0) Col.Full_Address_With_BuildingName
  = VStr (snd (gov_format_with_name cols g0)).
Proof. unfold prepared_gov_row. apply cell_insert_eq. Qed.

(** X14: what the synchronisation writes for a mismatch.  For every row of
    the frame [compare_data] leaves that [update_discrepancies] selects,
    there are the federal row it stems from and a government row under its
    key, of a bankruptcy or district court, such that the planner's action
    is read off that government row alone: the parts are the non-empty
    normalised [BuildingAddress], [BuildingName] (when given),
    [BuildingCity], [BuildingState] and the first five characters of
    [BuildingZip], none when a required one is missing; four parts give a
    statement without [address2], five a statement with it, any other
    number a skip.  The phone is that row's [Phone] and the [courtid] is
    the federal row's. *)
Theorem mismatch_is_planned_from_candidate (federal_data gov_data : frame)
    (row : gmap string pyval) :
  "courtid" ∈ columns federal_data ->
  let results := fst (compare_data federal_data gov_data) in
  In row (rows results) -> needs_update row = true ->
  exists r0 g0 k,
    In r0 (rows federal_data) /\ In g0 (rows gov_data)
    /\ is_candidate (court_type k)
         (Df.get (columns federal_data) r0 "Key" empty_str) g0 = true
    /\ plan_row (columns results) row
       = Ok (action_of_parts
               (if candidate_required (columns gov_data) g0
                then kept_parts (candidate_components (columns gov_data) g0)
                else [])
               (Df.get (columns gov_data) g0 "Phone" empty_str)
               (Df.cell r0 "courtid")).
Proof.
  intros Hcid results Hin Hneed. subst results.
  apply compare_data_left_rows in Hin.
  destruct Hin as [r0 H0 | r0 g0 k H0 Hg Hc Hv He | r0 g0 k valid H0 Hg Hc Hv He].
  - rewrite needs_update_prepared in Hneed. discriminate.
  - rewrite needs_update_match in Hneed. discriminate.
  - exists r0, g0, k. repeat (split; [assumption|]).
    destruct (verdict_mismatch_cells (court_label k)
                (columns (prepare_gov gov_data))
                (prepared_gov_row (columns gov_data) g0)
                (VStr (fst (fed_format (columns federal_data) r0)))
                (prepared_federal_row (columns federal_data) r0))
      as (_ & _ & Ha & Hp & _).
    cbv zeta in *.
    rewrite prepared_gov_with_name in Ha. rewrite prepared_gov_phone in Hp.
    unfold gov_format_with_name in Ha.
    rewrite compare_data_columns.
    assert (Hc1 : "courtid" ∈ columns (prepare_federal federal_data))
      by (apply in_prepared_columns; left; exact Hcid).
    assert (Hc2 : Col.Address_to_update
                  ∈ columns (prepare_federal federal_data))
      by (apply in_prepared_columns; right; unfold derived_columns;
          cbn; tauto).
    assert (Hc3 : Col.Phone_to_update
                  ∈ columns (prepare_federal federal_data))
      by (apply in_prepared_columns; right; unfold derived_columns;
          cbn; tauto).
    rewrite (plan_row_format_address _ _ _ _ _ _ _ Hc1 Hc2 Hc3 Ha).
    rewrite Hp, verdict_mismatch_courtid. reflexivity.
Qed.

Lemma mismatch_is_planned_from_candidate_witness :
  let federal_data := sample_federal in
  let gov_data := moved_gov in
  let results := fst (compare_data federal_data gov_data) in
  let row := first_row results in
  exists r0 g0 k,
    In r0 (rows federal_data) /\ In g0 (rows gov_data)
    /\ is_candidate (court_type k)
         (Df.get (columns federal_data) r0 "Key" empty_str) g0 = true
    /\ plan_row (columns results) row
       = Ok (action_of_parts
               (if candidate_required (columns gov_data) g0
                then kept_parts (candidate_components (columns gov_data) g0)
                else [])
               (Df.get (columns gov_data) g0 "Phone" empty_str)
               (Df.cell r0 "courtid")).
Proof.
  intros federal_data gov_data results row.
  apply (mismatch_is_planned_from_candidate federal_data gov_data row).
  - vm_compute. reflexivity.
  - apply first_row_in. vm_compute. discriminate.
  - vm_compute. reflexivity.
Defined.

(** ** Cleaning the government frame *)

Lemma key_of_ok (city_col state_col : string) (cols : gset string)
    (row : gmap string pyval) (v : pyval) :
  key_of city_col state_col cols row = Ok v ->
  city_col ∈ cols /\ state_col ∈ cols
  /\ exists c, Df.cell row city_col = VStr c
               /\ v = VStr (key_text c (Df.cell row state_col)).
Proof.
  unfold key_of. intros H.
  apply bind_ok in H as (city & Hc & H). apply item_ok in Hc as [Hc ->].
  destruct (Df.cell row city_col) as [| |c|n] eqn:E; try discriminate.
  apply bind_ok in H as (st & Hs & H). apply item_ok in Hs as [Hs ->].
  injection H as <-. split; [exact Hc|]. split; [exact Hs|].
  exists c. split; reflexivity.
Qed.


Lemma key_of_raise (city_col state_col : string) (cols : gset string)
    (row : gmap string pyval) (e : exn) :
  key_of city_col state_col cols row = Raise e ->
  (e = KeyError /\ (city_col ∉ cols \/ state_col ∉ cols))
  \/ (e = AttributeError /\ Py.is_str (Df.cell row city_col) = false).
Proof.
  unfold key_of. intros H.
  apply bind_raise in H as [H|(city & Hc & H)].
  { apply item_raise in H as [-> H]. left. tauto. }
  apply item_ok in Hc as [Hc ->].
  destruct (Df.cell row city_col) as [| |c|n] eqn:E;
    try (injection H as <-; right; split; reflexivity).
  apply bind_raise in H as [H|(st & _ & H)]; [|discriminate].
  apply item_raise in H as [-> H]. left. tauto.
Qed.

Lemma apply_rows_ok (f : gmap string pyval -> res pyval)
    (rs : list (gmap string pyval)) (vs : list pyval) :
  apply_rows f rs = Ok vs -> Forall2 (fun r v => f r = Ok v) rs vs.
Proof.
  revert vs. induction rs as [|r rs IH]; intros vs H.
  - injection H as <-. constructor.
  - cbn [apply_rows] in H. apply bind_ok in H as (v & Hv & H).
    apply bind_ok in H as (vs' & Hvs & H). injection H as <-.
    constructor; [exact Hv | apply IH; exact Hvs].
Qed.

Lemma apply_rows_raise (f : gmap string pyval -> res pyval)
    (rs : list (gmap string pyval)) (e : exn) :
  apply_rows f rs = Raise e -> exists r, In r rs /\ f r = Raise e.
Proof.
  induction rs as [|r rs IH]; [discriminate|]. cbn [apply_rows]. intros H.
  apply bind_raise in H as [H|(v & _ & H)].
  { exists r. split; [left; reflexivity | exact H]. }
  apply bind_raise in H as [H|(vs & _ & H)]; [|discriminate].
  destruct (IH H) as (r' & Hr & Hf). exists r'.
  split; [right; exact Hr | exact Hf].
Qed.


Lemma assign_apply_ok (c : string)
    (f : gset string -> gmap string pyval -> res pyval) (df df' : frame) :
  assign_apply c f df = Ok df' ->
  columns df' = {[ c ]} ∪ columns df
  /\ Forall2 (fun r r' => exists v, f (columns df) r = Ok v
                                    /\ r' = <[ c := v ]> r)
       (rows df) (rows df').
Proof.
  unfold assign_apply. intros H. apply bind_ok in H as (vs & Hvs & H).
  injection H as <-. split; [reflexivity|]. cbn [rows set_column].
  apply apply_rows_ok in Hvs.
  induction Hvs as [|r v rs vs Hv _ IH]; [constructor|].
  cbn [zip_with]. constructor; [|exact IH]. exists v. split; [exact Hv|].
  reflexivity.
Qed.

Lemma assign_apply_raise (c : string)
    (f : gset string -> gmap string pyval -> res pyval) (df : frame)
    (e : exn) :
  assign_apply c f df = Raise e ->
  exists r, In r (rows df) /\ f (columns df) r = Raise e.
Proof.
  unfold assign_apply. intros H.
  apply bind_raise in H as [H|(vs & _ & H)]; [|discriminate].
  apply apply_rows_raise. exact H.
Qed.



Lemma drop_duplicates_from_sublist (subset : list string)
    (seen rs : list (gmap string pyval)) :
  sublist (drop_duplicates_from subset seen rs) rs.
Proof.
  revert seen. induction rs as [|r rs IH]; intros seen; [constructor|].
  cbn [drop_duplicates_from].
  destruct (existsb (same_on subset r) seen); constructor; apply IH.
Qed.






Lemma drop_duplicates_ok (subset : list string) (df df' : frame) :
  drop_duplicates subset df = Ok df' ->
  df' = Frame (columns df) (drop_duplicates_from subset [] (rows df))
  /\ forall c, In c subset -> c ∈ columns df.
Proof.
  unfold drop_duplicates.
  destruct (forallb _ subset) eqn:E; [|discriminate].
  intros [= <-]. split; [reflexivity|]. intros c Hc.
  rewrite forallb_forall in E. apply E in Hc.
  apply bool_decide_eq_true in Hc. exact Hc.
Qed.



Lemma sublist_In {A} (l1 l2 : list A) (x : A) :
  sublist l1 l2 -> In x l1 -> In x l2.
Proof.
  intros Hs. induction Hs as [|y l1 l2 _ IH|y l1 l2 _ IH]; intros Hin.
  - destruct Hin.
  - destruct Hin as [->|Hin]; [left; reflexivity | right; apply IH, Hin].
  - right. apply IH, Hin.
Qed.






(** ** Processing the federal frame *)

Lemma Forall2_In_right {A B} (P : A -> B -> Prop) (l : list A)
    (k : list B) (y : B) :
  Forall2 P l k -> In y k -> exists x, In x l /\ P x y.
Proof.
  intros H. induction H as [|a b l k Hab _ IH]; [intros []|].
  intros [<-|Hin].
  - exists a. split; [left; reflexivity | exact Hab].
  - destruct (IH Hin) as (x & Hx & Hp). exists x.
    split; [right; exact Hx | exact Hp].
Qed.

Lemma desc_of_ok (cols : gset string) (row : gmap string pyval)
    (v : pyval) :
  desc_of cols row = Ok v ->
  "filingcity" ∈ cols /\ "city" ∈ cols
  /\ v = VStr (if py_eq (Df.cell row "filingcity") (Df.cell row "city")
               then lit "Main" else lit "Branch").
Proof.
  unfold desc_of. intros H.
  apply bind_ok in H as (fc & Hfc & H). apply item_ok in Hfc as [Hfc ->].
  apply bind_ok in H as (c & Hc & H). apply item_ok in Hc as [Hc ->].
  injection H as <-. split; [exact Hfc|]. split; [exact Hc|].
  destruct (py_eq _ _); reflexivity.
Qed.

Lemma desc_of_raise (cols : gset string) (row : gmap string pyval)
    (e : exn) :
  desc_of cols row = Raise e ->
  e = KeyError /\ ("filingcity" ∉ cols \/ "city" ∉ cols).
Proof.
  unfold desc_of. intros H.
  apply bind_raise in H as [H|(fc & _ & H)].
  { apply item_raise in H as [-> H]. tauto. }
  apply bind_raise in H as [H|(c & _ & H)]; [|discriminate].
  apply item_raise in H as [-> H]. tauto.
Qed.

Lemma desc_of_in (cols : gset string) (row : gmap string pyval) :
  "filingcity" ∈ cols -> "city" ∈ cols ->
  exists v, desc_of cols row = Ok v.
Proof.
  intros Hfc Hc. unfold desc_of.
  rewrite (item_in _ _ _ Hfc), (item_in _ _ _ Hc). eexists. reflexivity.
Qed.

Lemma py_eq_str_l (s : list ascii) (v : pyval) :
  py_eq (VStr s) v = true <-> v = VStr s.
Proof.
  unfold py_eq. destruct v as [| |t|n]; cbn;
    try (split; [intros H; apply bool_decide_eq_true in H; congruence
                | discriminate]);
    try (split; discriminate).
  split.
  - intros H. apply bool_decide_eq_true in H. congruence.
  - intros H. apply bool_decide_eq_true_2. congruence.
Qed.

(** X17: step 2 of [clean_and_merge_data] on a federal frame with a row.
    When it returns, the frame has the two new columns [Desc] and [Key]
    and its rows are those of the input in order, each with a string as
    [filingcity], with [Desc] set to ['Main'] exactly when [city] is that
    same string and to ['Branch'] otherwise, with [Key] computed from
    [filingcity] and [state], and with every other cell as it was.  It
    raises nothing but [KeyError], for a missing column [filingcity],
    [city] or [state], and [AttributeError], for a row that holds no
    string as [filingcity]. *)
Theorem process_federal_outcome (federal_data : frame) :
  rows federal_data <> [] ->
  (forall federal',
     process_federal federal_data = Ok federal' ->
     columns federal'
     = {[ "Key"%string ]} ∪ ({[ "Desc"%string ]} ∪ columns federal_data)
     /\ Forall2
          (fun r r' =>
             exists fc,
               Df.cell r "filingcity" = VStr fc
               /\ Df.cell r' "Desc"
                  = VStr (if bool_decide (Df.cell r "city" = VStr fc)
                          then lit "Main" else lit "Branch")
               /\ Df.cell r' "Key"
                  = VStr (key_text fc (Df.cell r "state"))
               /\ forall c, c <> "Desc"%string -> c <> "Key"%string ->
                    r' !! c = r !! c)
          (rows federal_data) (rows federal'))
  /\ forall e,
       process_federal federal_data = Raise e ->
       (e = KeyError
        /\ ("filingcity" ∉ columns federal_data
            \/ "city" ∉ columns federal_data
            \/ "state" ∉ columns federal_data))
       \/ (e = AttributeError
           /\ exists r, In r (rows federal_data)
                        /\ Py.is_str (Df.cell r "filingcity") = false).
Proof.
  intros _. unfold process_federal. split.
  - intros federal' H. apply bind_ok in H as (wd & Hwd & H).
    apply assign_apply_ok in Hwd as [Hc1 Hr1].
    apply assign_apply_ok in H as [Hc2 Hr2].
    split; [rewrite Hc2, Hc1; reflexivity|].
    revert Hr2. generalize (rows federal'). generalize (columns wd).
    induction Hr1 as [|r m rs ms (v & Hv & ->) _ IH]; intros cols l Hr2.
    + inversion Hr2. constructor.
    + inversion Hr2 as [|m0 r' ms0 l' (k & Hk & ->) Hrest]; subst.
      constructor; [|apply (IH cols); exact Hrest].
      apply desc_of_ok in Hv as (_ & _ & ->).
      apply key_of_ok in Hk as (_ & _ & fc & Hfc & ->).
      rewrite !cell_insert_ne in Hfc by discriminate.
      exists fc. split; [exact Hfc|]. split; [|split].
      * rewrite cell_insert_ne by discriminate. rewrite cell_insert_eq.
        rewrite Hfc. f_equal.
        destruct (py_eq (VStr fc) (Df.cell r "city")) eqn:E.
        -- apply py_eq_str_l in E. rewrite bool_decide_eq_true_2 by exact E.
           reflexivity.
        -- rewrite bool_decide_eq_false_2; [reflexivity|]. intros E'.
           apply py_eq_str_l in E'. congruence.
      * rewrite cell_insert_eq. rewrite !cell_insert_ne by discriminate.
        reflexivity.
      * intros c Hd Hk. rewrite !lookup_insert_ne by congruence.
        reflexivity.
  - intros e H. apply bind_raise in H as [H|(wd & Hwd & H)].
    { apply assign_apply_raise in H as (r & _ & H).
      apply desc_of_raise in H as [-> H]. left. tauto. }
    apply assign_apply_ok in Hwd as [Hc1 Hr1].
    apply assign_apply_raise in H as (r' & Hr' & H).
    apply key_of_raise in H as [[-> H]|[-> H]].
    + left. split; [reflexivity|]. rewrite Hc1 in H.
      rewrite !not_elem_of_union, !not_elem_of_singleton in H. tauto.
    + right. split; [reflexivity|].
      apply (Forall2_In_right _ _ _ _ Hr1) in Hr' as (r & Hr & v & _ & ->).
      exists r. split; [exact Hr|].
      rewrite cell_insert_ne in H by discriminate. exact H.
Qed.

Lemma process_federal_outcome_witness :
  let federal_data := sample_federal in
  (forall federal',
     process_federal federal_data = Ok federal' ->
     columns federal'
     = {[ "Key"%string ]} ∪ ({[ "Desc"%string ]} ∪ columns federal_data)
     /\ Forall2
          (fun r r' =>
             exists fc,
               Df.cell r "filingcity" = VStr fc
               /\ Df.cell r' "Desc"
                  = VStr (if bool_decide (Df.cell r "city" = VStr fc)
                          then lit "Main" else lit "Branch")
               /\ Df.cell r' "Key"
                  = VStr (key_text fc (Df.cell r "state"))
               /\ forall c, c <> "Desc"%string -> c <> "Key"%string ->
                    r' !! c = r !! c)
          (rows federal_data) (rows federal'))
  /\ forall e,
       process_federal federal_data = Raise e ->
       (e = KeyError
        /\ ("filingcity" ∉ columns federal_data
            \/ "city" ∉ columns federal_data
            \/ "state" ∉ columns federal_data))
       \/ (e = AttributeError
           /\ exists r, In r (rows federal_data)
                        /\ Py.is_str (Df.cell r "filingcity") = false).
Proof.
  intros federal_data. apply (process_federal_outcome federal_data).
  discriminate.
Defined.

(** ** Steps 3 to 6 of [main] *)

Lemma plan_selected_row (federal_data gov_data : frame)
    (row : gmap string pyval) (a : action) :
  In row (rows (fst (compare_data federal_data gov_data))) ->
  needs_update row = true ->
  plan_row (columns (fst (compare_data federal_data gov_data))) row = Ok a ->
  exists r0 g0 k,
    In r0 (rows federal_data) /\ In g0 (rows gov_data)
    /\ is_candidate (court_type k)
         (Df.get (columns federal_data) r0 "Key" empty_str) g0 = true
    /\ a = action_of_parts
             (if candidate_required (columns gov_data) g0
              then kept_parts (candidate_components (columns gov_data) g0)
              else [])
             (Df.get (columns gov_data) g0 "Phone" empty_str)
             (Df.cell r0 "courtid").
Proof.
  intros Hin Hneed Hplan. apply compare_data_left_rows in Hin.
  destruct Hin as [r0 H0 | r0 g0 k H0 Hg Hc Hv He | r0 g0 k valid H0 Hg Hc Hv He].
  - rewrite needs_update_prepared in Hneed. discriminate.
  - rewrite needs_update_match in Hneed. discriminate.
  - exists r0, g0, k. repeat (split; [assumption|]).
    destruct (verdict_mismatch_cells (court_label k)
                (columns (prepare_gov gov_data))
                (prepared_gov_row (columns gov_data) g0)
                (VStr (fst (fed_format (columns federal_data) r0)))
                (prepared_federal_row (columns federal_data) r0))
      as (_ & _ & Ha & Hp & _).
    cbv zeta in *.
    rewrite prepared_gov_with_name in Ha. rewrite prepared_gov_phone in Hp.
    unfold gov_format_with_name in Ha.
    rewrite compare_data_columns in Hplan.
    assert (Hc1 : "courtid" ∈ columns (prepare_federal federal_data)).
    { unfold plan_row in Hplan. apply bind_ok in Hplan as (c & Hcid & _).
      apply item_ok in Hcid as [Hcid _]. exact Hcid. }
    assert (Hc2 : Col.Address_to_update
                  ∈ columns (prepare_federal federal_data))
      by (apply in_prepared_columns; right; unfold derived_columns;
          cbn; tauto).
    assert (Hc3 : Col.Phone_to_update
                  ∈ columns (prepare_federal federal_data))
      by (apply in_prepared_columns; right; unfold derived_columns;
          cbn; tauto).
    rewrite (plan_row_format_address _ _ _ _ _ _ _ Hc1 Hc2 Hc3 Ha) in Hplan.
    rewrite Hp, verdict_mismatch_courtid in Hplan.
    injection Hplan as <-. reflexivity.
Qed.

Lemma process_federal_rows (federal_data federal' : frame)
    (r' : gmap string pyval) :
  process_federal federal_data = Ok federal' ->
  In r' (rows federal') ->
  "Key" ∈ columns federal'
  /\ exists r fc d,
       In r (rows federal_data) /\ Df.cell r "filingcity" = VStr fc
       /\ r' = <[ "Key" := VStr (key_text fc (Df.cell r "state")) ]>
                 (<[ "Desc" := d ]> r).
Proof.
  unfold process_federal. intros H Hin.
  apply bind_ok in H as (wd & Hwd & H).
  apply assign_apply_ok in Hwd as [Hc1 Hr1].
  apply assign_apply_ok in H as [Hc2 Hr2].
  split; [rewrite Hc2; apply elem_of_union_l, elem_of_singleton;
          reflexivity|].
  apply (Forall2_In_right _ _ _ _ Hr2) in Hin as (m & Hm & k & Hk & ->).
  apply (Forall2_In_right _ _ _ _ Hr1) in Hm as (r & Hr & d & _ & ->).
  apply key_of_ok in Hk as (_ & _ & fc & Hfc & ->).
  rewrite !cell_insert_ne in Hfc by discriminate.
  rewrite cell_insert_ne by discriminate.
  exists r, fc, d. split; [exact Hr|]. split; [exact Hfc | reflexivity].
Qed.

Lemma clean_gov_rows (deduplicate_columns : list string)
    (exclude_values : list (list ascii)) (gov_data gov' : frame)
    (g' : gmap string pyval) :
  clean_gov deduplicate_columns exclude_values gov_data = Ok gov' ->
  In g' (rows gov') ->
  columns gov' = {[ "Key"%string ]} ∪ columns gov_data
  /\ exists g, In g (rows gov_data)
               /\ not_excluded exclude_values g = true
               /\ with_key "BuildingCity" "BuildingState" g g'.
Proof.
  unfold clean_gov. intros H Hin.
  apply bind_ok in H as ([] & _ & H).
  apply bind_ok in H as (dd & Hdd & H).
  apply drop_duplicates_ok in Hdd as [-> _].
  apply assign_apply_ok in H as [Hcols Hrows]. cbn [columns rows] in *.
  split; [exact Hcols|].
  apply (Forall2_In_right _ _ _ _ Hrows) in Hin as (g & Hg & v & Hv & ->).
  apply (sublist_In _ _ _ (drop_duplicates_from_sublist _ _ _)) in Hg.
  apply filter_In in Hg as [Hg Hne].
  apply key_of_ok in Hv as (_ & _ & c & Hc & ->).
  exists g. split; [exact Hg|]. split; [exact Hne|].
  exists c. split; [exact Hc | reflexivity].
Qed.

Lemma eq_cell_str (a : pyval) (s : list ascii) :
  Py.eq_cell a (VStr s) = true -> a = VStr s.
Proof.
  destruct a as [| |t|n]; cbn; try discriminate. unfold str_eqb.
  intros H. apply bool_decide_eq_true in H. congruence.
Qed.

Lemma candidate_with_key (cols : gset string) (g : gmap string pyval)
    (v : pyval) :
  candidate_required ({[ "Key"%string ]} ∪ cols) (<[ "Key" := v ]> g)
  = candidate_required cols g
  /\ candidate_components ({[ "Key"%string ]} ∪ cols) (<[ "Key" := v ]> g)
     = candidate_components cols g
  /\ Df.get ({[ "Key"%string ]} ∪ cols) (<[ "Key" := v ]> g) "Phone"
       empty_str
     = Df.get cols g "Phone" empty_str.
Proof.
  unfold candidate_required, candidate_components, gov_zip.
  rewrite !get_assign_ne by discriminate. repeat split; reflexivity.
Qed.

(** X18: steps 3 to 6 of [main] on a federal and a government frame.  When
    the cleaning and the matching pass return, every statement executed
    and every skip printed joins one federal row with one government row
    of the input: both hold a string as city, their keys (city with blanks
    as underscores, an underscore, the state; all in lower case) are the
    same text, the government row is a bankruptcy or district court up to
    case, and the action is the one read off that government row, with its
    [Phone] and with the [courtid] of the federal row. *)
Theorem reconcile_statements_are_sound (federal_data gov_data : frame)
    (log : list action) (outcome : res unit) (a : action) :
  rows federal_data <> [] ->
  (exists g, In g (rows gov_data)
             /\ not_excluded main_exclude_values g = true) ->
  reconcile federal_data gov_data = Ok (log, outcome) ->
  In a log ->
  exists r g fc bc k,
    In r (rows federal_data) /\ In g (rows gov_data)
    /\ Df.cell r "filingcity" = VStr fc
    /\ Df.cell g "BuildingCity" = VStr bc
    /\ key_text fc (Df.cell r "state")
       = key_text bc (Df.cell g "BuildingState")
    /\ Py.str_lower_cell (Df.cell g "CourtType") = VStr (court_type k)
    /\ a = action_of_parts
             (if candidate_required (columns gov_data) g
              then kept_parts (candidate_components (columns gov_data) g)
              else [])
             (Df.get (columns gov_data) g "Phone" empty_str)
             (Df.cell r "courtid").
Proof.
  intros _ _ H Hin. unfold reconcile in H.
  apply bind_ok in H as ([federal' gov'] & Hclean & H).
  unfold clean_and_merge_data in Hclean.
  apply bind_ok in Hclean as (gov0 & Hgov & Hclean).
  apply bind_ok in Hclean as (fed0 & Hfed & Hclean).
  assert (Hpair : federal' = fed0 /\ gov' = gov0) by (split; congruence).
  destruct Hpair as [-> ->]. clear Hclean. cbn [fst snd] in H.
  destruct (compare_data fed0 gov0) as [results out] eqn:Hcmp.
  apply bind_ok in H as ([] & _ & H). injection H as H.
  assert (Hlog : fst (update_discrepancies results) = log)
    by (rewrite H; reflexivity).
  clear H.
  assert (Hres : results = fst (compare_data fed0 gov0))
    by (rewrite Hcmp; reflexivity).
  clear Hcmp. subst results.
  assert (Hin' : In a (fst (update_discrepancies
                              (fst (compare_data fed0 gov0)))))
    by (rewrite Hlog; exact Hin).
  clear Hlog Hin. unfold update_discrepancies in Hin'.
  destruct (has_column _ Col.Mismatch_Address); [|destruct Hin'].
  apply plan_rows_log in Hin' as (row & Hrow & Hplan).
  apply filter_In in Hrow as [Hrow Hneed].
  destruct (plan_selected_row fed0 gov0 row a Hrow Hneed Hplan)
    as (r' & g' & k & Hr' & Hg' & Hcand & ->).
  destruct (process_federal_rows _ _ _ Hfed Hr')
    as (Hkey & r & fc & d & Hr & Hfc & ->).
  destruct (clean_gov_rows _ _ _ _ _ Hgov Hg')
    as (Hcols & g & Hg & _ & bc & Hbc & ->).
  exists r, g, fc, bc, k. repeat (split; [assumption|]).
  unfold is_candidate in Hcand. apply andb_true_iff in Hcand as [Hk Hct].
  rewrite cell_insert_eq in Hk. rewrite cell_insert_ne in Hct by discriminate.
  unfold Df.get in Hk. destruct (decide ("Key" ∈ columns fed0)); [|tauto].
  rewrite cell_insert_eq in Hk. cbn [Py.eq_cell] in Hk.
  unfold str_eqb in Hk. apply bool_decide_eq_true in Hk.
  split; [symmetry; exact Hk|]. split; [apply eq_cell_str; exact Hct|].
  rewrite Hcols.
  destruct (candidate_with_key (columns gov_data) g
              (VStr (key_text bc (Df.cell g "BuildingState"))))
    as (-> & -> & ->).
  rewrite !cell_insert_ne by discriminate. reflexivity.
Qed.

Lemma reconcile_statements_are_sound_witness :
  let federal_data := sample_federal in
  let gov_data := moved_gov in
  let done :=
    match reconcile federal_data gov_data with
    | Ok p => p
    | Raise _ => ([], Ok tt)
    end in
  let a := hd (Skipped VNone) (fst done) in
  exists r g fc bc k,
    In r (rows federal_data) /\ In g (rows gov_data)
    /\ Df.cell r "filingcity" = VStr fc
    /\ Df.cell g "BuildingCity" = VStr bc
    /\ key_text fc (Df.cell r "state")
       = key_text bc (Df.cell g "BuildingState")
    /\ Py.str_lower_cell (Df.cell g "CourtType") = VStr (court_type k)
    /\ a = action_of_parts
             (if candidate_required (columns gov_data) g
              then kept_parts (candidate_components (columns gov_data) g)
              else [])
             (Df.get (columns gov_data) g "Phone" empty_str)
             (Df.cell r "courtid").
Proof.
  intros federal_data gov_data done a.
  apply (reconcile_statements_are_sound federal_data gov_data (fst done)
           (snd done) a).
  - discriminate.
  - exists (first_row gov_data). split.
    + apply first_row_in. vm_compute. discriminate.
    + vm_compute. reflexivity.
  - subst done.
    assert (H : is_ok (reconcile federal_data gov_data) = true)
      by (vm_compute; reflexivity).
    destruct (reconcile federal_data gov_data) as [[l o]|e];
      [reflexivity | discriminate H].
  - subst a.
    assert (H : length (fst done) = 1) by (vm_compute; reflexivity).
    destruct (fst done) as [|a0 l]; [discriminate H | left; reflexivity].
Defined.

(** ** Rows without a candidate *)

Lemma filter_nil {A} (p : A -> bool) (l : list A) (x : A) :
  List.filter p l = [] -> In x l -> p x = false.
Proof.
  induction l as [|a l IH]; [intros _ []|]. cbn [List.filter].
  destruct (p a) eqn:E; [discriminate|].
  intros H [<-|Hin]; [exact E | apply IH; assumption].
Qed.

Lemma select_select_nil (court : list ascii) (key : pyval)
    (l : list (gmap string pyval)) (g : gmap string pyval) :
  select true "CourtType" (VStr court) (select false "Key" key l) = [] ->
  In g l -> is_candidate court key g = false.
Proof.
  intros H Hin. unfold is_candidate.
  destruct (Py.eq_cell (Df.cell g "Key") key) eqn:Hk; [|reflexivity].
  cbn [andb].
  apply (filter_nil _ _ g H). unfold select. apply filter_In.
  split; [exact Hin | exact Hk].
Qed.

Lemma compare_row_candidates (gov : frame) (fcols : gset string)
    (r r' : gmap string pyval) :
  compare_row gov fcols r = Ok r' ->
  (r' = r
   /\ forall g k, In g (rows gov) ->
        is_candidate (court_type k) (Df.get fcols r "Key" empty_str) g
        = false)
  \/ exists k g,
       In g (rows gov)
       /\ is_candidate (court_type k) (Df.get fcols r "Key" empty_str) g
          = true
       /\ judge (court_label k) (columns gov) g
            (Df.cell r Col.Full_Address) r = Ok r'.
Proof.
  rewrite compare_row_once. cbv zeta. intros H.
  apply bind_ok in H as (fa & Hfa & H). apply item_ok in Hfa as [_ ->].
  apply bind_ok in H as (? & _ & H).
  apply bind_ok in H as (? & _ & H).
  apply bind_ok in H as (? & _ & H).
  destruct (select true "CourtType" (VStr (lit "bankruptcy court")) _)
    as [|g tl] eqn:Hb.
  - destruct (select true "CourtType" (VStr (lit "district court")) _)
      as [|g tl] eqn:Hd.
    + injection H as <-. left. split; [reflexivity|].
      intros g [|] Hg;
        [apply (select_select_nil _ _ _ g Hb Hg)
        | apply (select_select_nil _ _ _ g Hd Hg)].
    + right. exists District, g. apply select_select_head in Hd as [Hin Hc].
      split; [exact Hin|]. split; [exact Hc | exact H].
  - right. exists Bankruptcy, g. apply select_select_head in Hb as [Hin Hc].
    split; [exact Hin|]. split; [exact Hc | exact H].
Qed.

Lemma compare_rows_ok (gov : frame) (fcols : gset string)
    (todo : list (gmap string pyval)) :
  snd (compare_rows gov fcols todo) = Ok tt ->
  Forall2 (fun r r' => compare_row gov fcols r = Ok r') todo
    (fst (compare_rows gov fcols todo)).
Proof.
  induction todo as [|r todo IH]; [constructor|]. cbn [compare_rows].
  destruct (compare_row gov fcols r) as [r'|e] eqn:Hc; [|discriminate].
  destruct (compare_rows gov fcols todo) as [rest' o]. cbn [fst snd] in *.
  intros Ho. constructor; [exact Hc | apply IH; exact Ho].
Qed.

Lemma Forall2_map_left {A B C} (P : B -> C -> Prop) (f : A -> B)
    (l : list A) (k : list C) :
  Forall2 P (map f l) k -> Forall2 (fun a c => P (f a) c) l k.
Proof.
  revert k. induction l as [|a l IH]; intros k H; inversion H; subst;
    constructor; [assumption | apply IH; assumption].
Qed.

(** X19: when [compare_data] returns, a federal row is left with
    [Matched_in] = ['Not Found'] exactly when no government row has its
    [Key] and a court type that is, in lower case, ['bankruptcy court'] or
    ['district court'].  The rows of the result are read in the order of
    the federal rows. *)
Theorem not_found_iff_no_candidate (federal_data gov_data : frame) :
  rows federal_data <> [] -> rows gov_data <> [] ->
  snd (compare_data federal_data gov_data) = Ok tt ->
  Forall2
    (fun r0 row =>
       Df.cell row Col.Matched_in = VStr (lit "Not Found")
       <-> forall g k, In g (rows gov_data) ->
             is_candidate (court_type k)
               (Df.get (columns federal_data) r0 "Key" empty_str) g
             = false)
    (rows federal_data)
    (rows (fst (compare_data federal_data gov_data))).
Proof.
  intros _ _ Hret. rewrite compare_data_outcome in Hret.
  apply compare_rows_ok in Hret. rewrite <- compare_data_rows in Hret.
  rewrite prepare_federal_rows in Hret. apply Forall2_map_left in Hret.
  eapply Forall2_impl; [exact Hret|]. cbv beta. intros r0 row Hrow.
  apply compare_row_candidates in Hrow
    as [[-> Hno]|(k & g & Hg & Hcand & Hj)].
  - destruct (prepared_federal_cells (columns federal_data) r0)
      as (Hm & _). split; [|intros _; exact Hm].
    intros _ g0 k Hg0.
    specialize (Hno (prepared_gov_row (columns gov_data) g0) k).
    rewrite prepared_gov_candidate in Hno.
    rewrite (prepared_federal_key _ _ _
               (prepare_federal_columns federal_data)) in Hno.
    apply Hno. rewrite prepare_gov_rows. apply in_map. exact Hg0.
  - rewrite prepare_gov_rows in Hg.
    apply in_map_iff in Hg as (g0 & <- & Hg0).
    rewrite prepared_gov_candidate in Hcand.
    rewrite (prepared_federal_key _ _ _
               (prepare_federal_columns federal_data)) in Hcand.
    apply judge_outcome in Hj as (valid & _ & ->).
    split.
    + intros Hnf. exfalso. apply (court_label_found k).
      destruct (valid && py_eq _ _).
      * destruct (verdict_match_cells (court_label k)
                    (prepared_federal_row (columns federal_data) r0))
          as (Hm & _). rewrite Hm in Hnf. congruence.
      * destruct (verdict_mismatch_cells (court_label k)
                    (columns (prepare_gov gov_data))
                    (prepared_gov_row (columns gov_data) g0)
                    (Df.cell (prepared_federal_row (columns federal_data) r0)
                       Col.Full_Address)
                    (prepared_federal_row (columns federal_data) r0))
          as (Hm & _). cbv zeta in Hm. rewrite Hm in Hnf. congruence.
    + intros Hno. rewrite (Hno g0 k Hg0) in Hcand. discriminate.
Qed.

Lemma not_found_iff_no_candidate_witness :
  let federal_data := sample_federal in
  let gov_data := other_court_gov in
  Forall2
    (fun r0 row =>
       Df.cell row Col.Matched_in = VStr (lit "Not Found")
       <-> forall g k, In g (rows gov_data) ->
             is_candidate (court_type k)
               (Df.get (columns federal_data) r0 "Key" empty_str) g
             = false)
    (rows federal_data)
    (rows (fst (compare_data federal_data gov_data))).
Proof.
  intros federal_data gov_data.
  apply (not_found_iff_no_candidate federal_data gov_data).
  - discriminate.
  - discriminate.
  - vm_compute. reflexivity.
Defined.

(** ** Repeated government rows *)








(** ** The zip column of the fetched data *)

Lemma decimal_char (c : ascii) (u : Decimal.uint) :
  is_decimal c = true ->
  exists u', uint_of_char c (Some u) = Some u'
             /\ Decimal.nb_digits u' = S (Decimal.nb_digits u)
             /\ u' <> Decimal.Nil.
Proof.
  destruct c as [[] [] [] [] [] [] [] []]; intros H;
    try (vm_compute in H; discriminate H);
    eexists; (split; [reflexivity|]); (split; [reflexivity|]); discriminate.
Qed.

Lemma char_decimal (c : ascii) (d : option Decimal.uint) (u' : Decimal.uint) :
  uint_of_char c d = Some u' -> is_decimal c = true.
Proof.
  destruct d as [u|]; [|destruct c as [[] [] [] [] [] [] [] []]; discriminate].
  destruct c as [[] [] [] [] [] [] [] []]; intros H;
    try discriminate H; reflexivity.
Qed.

Lemma decimal_not_sign (c : ascii) :
  is_decimal c = true ->
  (c =? "-")%char = false /\ c <> "+"%char /\ c <> "-"%char
  /\ Chr.isdigit c = true.
Proof.
  destruct c as [[] [] [] [] [] [] [] []]; intros H;
    try (vm_compute in H; discriminate H);
    (split; [reflexivity|]); (split; [discriminate|]);
    (split; [discriminate | reflexivity]).
Qed.

Lemma parse_decimal (s : list ascii) :
  all_decimal s = true ->
  exists u, NilEmpty.uint_of_string (string_of_list_ascii s) = Some u
            /\ Decimal.nb_digits u = length s.
Proof.
  induction s as [|c s IH]; [intros _; exists Decimal.Nil; split; reflexivity|].
  cbn [all_decimal forallb]. intros H. apply andb_true_iff in H as [Hc Hs].
  destruct (IH Hs) as (u & Hu & Hn).
  destruct (decimal_char c u Hc) as (u' & Hu' & Hn' & _).
  exists u'. cbn [string_of_list_ascii NilEmpty.uint_of_string].
  rewrite Hu, Hu'. split; [reflexivity|]. rewrite Hn', Hn. reflexivity.
Qed.

Lemma parse_is_decimal (s : list ascii) (u : Decimal.uint) :
  NilEmpty.uint_of_string (string_of_list_ascii s) = Some u ->
  all_decimal s = true.
Proof.
  revert u. induction s as [|c s IH]; intros u H; [reflexivity|].
  cbn [string_of_list_ascii NilEmpty.uint_of_string] in H.
  cbn [all_decimal forallb]. rewrite (char_decimal _ _ _ H). cbn [andb].
  destruct (NilEmpty.uint_of_string (string_of_list_ascii s)) as [u0|] eqn:E.
  - apply (IH u0). reflexivity.
  - destruct c as [[] [] [] [] [] [] [] []]; discriminate H.
Qed.

Lemma int_of_decimal (s : list ascii) :
  s <> [] -> all_decimal s = true ->
  exists u, NilEmpty.uint_of_string (string_of_list_ascii s) = Some u
            /\ Decimal.nb_digits u = length s
            /\ int_of_digits s = Some (Z.of_uint u).
Proof.
  intros Hne Hs. destruct (parse_decimal s Hs) as (u & Hu & Hn).
  exists u. split; [exact Hu|]. split; [exact Hn|].
  destruct s as [|c s]; [congruence|]. unfold int_of_digits.
  cbn [all_decimal forallb] in Hs. apply andb_true_iff in Hs as [Hc _].
  destruct (decimal_not_sign c Hc) as (Hm & _).
  cbn [string_of_list_ascii NilZero.int_of_string]. rewrite Hm.
  unfold NilZero.uint_of_string.
  cbn [string_of_list_ascii] in Hu. rewrite Hu. reflexivity.
Qed.

Lemma print_uint (u : Decimal.uint) :
  all_decimal (list_ascii_of_string (NilEmpty.string_of_uint u)) = true
  /\ length (list_ascii_of_string (NilEmpty.string_of_uint u))
     = Decimal.nb_digits u.
Proof.
  induction u as [|u [IH1 IH2]|u [IH1 IH2]|u [IH1 IH2]|u [IH1 IH2]
                  |u [IH1 IH2]|u [IH1 IH2]|u [IH1 IH2]|u [IH1 IH2]
                  |u [IH1 IH2]|u [IH1 IH2]];
    [split; reflexivity|..];
    cbn [NilEmpty.string_of_uint list_ascii_of_string all_decimal forallb
         length Decimal.nb_digits];
    (split; [exact IH1 | rewrite IH2; reflexivity]).
Qed.

Lemma str_nonneg (u : Decimal.uint) :
  Py.str (VInt (Z.of_uint u))
  = lit (NilEmpty.string_of_uint (Decimal.unorm u)).
Proof.
  unfold Py.str.
  change (Z.of_uint u) with (Z.of_int (Decimal.Pos u)).
  rewrite DecimalZ.to_of. cbn [Decimal.norm NilZero.string_of_int].
  unfold NilZero.string_of_uint.
  pose proof (unorm_nonnil u) as Hn.
  destruct (Decimal.unorm u); [congruence|..]; reflexivity.
Qed.

Lemma all_decimal_app (a b : list ascii) :
  all_decimal (a ++ b) = all_decimal a && all_decimal b.
Proof. apply forallb_app. Qed.

Lemma all_decimal_zeros (k : nat) : all_decimal (repeat "0"%char k) = true.
Proof. induction k as [|k IH]; [reflexivity | exact IH]. Qed.

Lemma zfill_decimal (width : nat) (s : list ascii) :
  all_decimal s = true ->
  zfill width s = repeat "0"%char (width - length s) ++ s.
Proof.
  intros H. unfold zfill. destruct s as [|c s]; [rewrite app_nil_r; reflexivity|].
  cbn [all_decimal forallb] in H. apply andb_true_iff in H as [Hc _].
  destruct (decimal_not_sign c Hc) as (_ & Hp & Hm & _).
  rewrite !bool_decide_eq_false_2 by assumption. reflexivity.
Qed.

Lemma parse_zeros (k : nat) (s : list ascii) (u : Decimal.uint) :
  NilEmpty.uint_of_string (string_of_list_ascii s) = Some u ->
  NilEmpty.uint_of_string (string_of_list_ascii (repeat "0"%char k ++ s))
  = Some (Nat.iter k Decimal.D0 u).
Proof.
  intros H. induction k as [|k IH]; [exact H|].
  cbn [repeat app string_of_list_ascii NilEmpty.uint_of_string].
  rewrite IH. reflexivity.
Qed.

Lemma of_uint_zeros (k : nat) (u : Decimal.uint) :
  Z.of_uint (Nat.iter k Decimal.D0 u) = Z.of_uint u.
Proof.
  unfold Z.of_uint.
  rewrite <- (DecimalPos.Unsigned.of_uint_norm (Nat.iter k Decimal.D0 u)).
  rewrite unorm_iter_D0. rewrite DecimalPos.Unsigned.of_uint_norm. reflexivity.
Qed.

Lemma of_uint_unorm (u : Decimal.uint) :
  Z.of_uint (Decimal.unorm u) = Z.of_uint u.
Proof.
  unfold Z.of_uint. rewrite DecimalPos.Unsigned.of_uint_norm. reflexivity.
Qed.

Lemma padded (u : Decimal.uint) :
  let z := zfill 5 (Py.str (VInt (Z.of_uint u))) in
  all_decimal z = true /\ z <> []
  /\ length z = Nat.max 5 (Decimal.nb_digits (Decimal.unorm u))
  /\ int_of_digits z = Some (Z.of_uint u).
Proof.
  intros z. subst z. rewrite str_nonneg. unfold lit.
  destruct (print_uint (Decimal.unorm u)) as [Hd Hl].
  set (p := list_ascii_of_string
              (NilEmpty.string_of_uint (Decimal.unorm u))) in *.
  rewrite (zfill_decimal 5 p Hd).
  assert (Hp : p <> []).
  { intros E. rewrite E in Hl. cbn in Hl. symmetry in Hl.
    apply nb_digits_0 in Hl. exact (unorm_nonnil u Hl). }
  split; [rewrite all_decimal_app, all_decimal_zeros, Hd; reflexivity|].
  split; [destruct (repeat "0"%char (5 - length p)), p; cbn; congruence|].
  split; [rewrite length_app, repeat_length, Hl; lia|].
  assert (Hparse : NilEmpty.uint_of_string (string_of_list_ascii p)
                   = Some (Decimal.unorm u)).
  { subst p. rewrite string_of_list_ascii_of_string. apply NilEmpty.usu. }
  pose proof (parse_zeros (5 - length p) p _ Hparse) as Hz.
  assert (Hall : all_decimal (repeat "0"%char (5 - length p) ++ p) = true)
    by (rewrite all_decimal_app, all_decimal_zeros, Hd; reflexivity).
  assert (Hne : repeat "0"%char (5 - length p) ++ p <> [])
    by (destruct (repeat "0"%char (5 - length p)), p; cbn; congruence).
  destruct (int_of_decimal _ Hne Hall) as (u' & Hu' & _ & ->).
  rewrite Hz in Hu'. injection Hu' as <-.
  rewrite of_uint_zeros, of_uint_unorm. reflexivity.
Qed.

Lemma isdigit_decimal (s : list ascii) :
  s <> [] -> all_decimal s = true -> isdigit_str s = true.
Proof.
  intros Hne H. unfold isdigit_str.
  rewrite (proj2 (str_eqb_nil s) Hne). cbn [negb andb].
  apply forallb_forall. intros c Hc. unfold all_decimal in H.
  rewrite forallb_forall in H. apply decimal_not_sign, H, Hc.
Qed.

Lemma zip_lambda_decimal (s : list ascii) (u : Decimal.uint) :
  s <> [] -> all_decimal s = true ->
  NilEmpty.uint_of_string (string_of_list_ascii s) = Some u ->
  zip_lambda (VStr s)
  = ZipValue (VStr (zfill 5 (Py.str (VInt (Z.of_uint u))))).
Proof.
  intros Hne Hs Hu. unfold zip_lambda. cbn [Py.isnull Py.str negb andb].
  rewrite (isdigit_decimal s Hne Hs).
  destruct (int_of_decimal s Hne Hs) as (u' & Hu' & _ & ->).
  rewrite Hu in Hu'. injection Hu' as <-. reflexivity.
Qed.

Lemma int_nonneg (n : Z) :
  isdigit_str (Py.str (VInt n)) = true ->
  exists u, n = Z.of_uint u /\ Decimal.unorm u = u.
Proof.
  intros H. destruct n as [|p|p].
  - exists Decimal.zero. split; reflexivity.
  - exists (Pos.to_uint p). split.
    + change (Z.of_uint (Pos.to_uint p))
        with (Z.of_int (Z.to_int (Z.pos p))).
      rewrite DecimalZ.of_to. reflexivity.
    + pose proof (DecimalZ.to_of (Z.to_int (Z.pos p))) as E.
      rewrite DecimalZ.of_to in E. cbn [Z.to_int Decimal.norm] in E.
      congruence.
  - exfalso. unfold Py.str, isdigit_str in H.
    cbn [Z.to_int NilZero.string_of_int lit list_ascii_of_string forallb]
      in H.
    rewrite andb_false_r in H. discriminate H.
Qed.

Lemma int_of_printed (u : Decimal.uint) :
  int_of_digits (Py.str (VInt (Z.of_uint u))) = Some (Z.of_uint u)
  /\ all_decimal (Py.str (VInt (Z.of_uint u))) = true
  /\ Py.str (VInt (Z.of_uint u)) <> []
  /\ length (Py.str (VInt (Z.of_uint u)))
     = Decimal.nb_digits (Decimal.unorm u).
Proof.
  rewrite str_nonneg. unfold lit.
  destruct (print_uint (Decimal.unorm u)) as [Hd Hl].
  set (p := list_ascii_of_string
              (NilEmpty.string_of_uint (Decimal.unorm u))) in *.
  assert (Hp : p <> []).
  { intros E. rewrite E in Hl. cbn in Hl. symmetry in Hl.
    apply nb_digits_0 in Hl. exact (unorm_nonnil u Hl). }
  assert (Hparse : NilEmpty.uint_of_string (string_of_list_ascii p)
                   = Some (Decimal.unorm u)).
  { subst p. rewrite string_of_list_ascii_of_string. apply NilEmpty.usu. }
  destruct (int_of_decimal p Hp Hd) as (u' & Hu' & _ & ->).
  rewrite Hparse in Hu'. injection Hu' as <-.
  rewrite of_uint_unorm. repeat split; assumption.
Qed.

Lemma zip_lambda_int (n : Z) :
  isdigit_str (Py.str (VInt n)) = true ->
  zip_lambda (VInt n) = zip_lambda (VStr (Py.str (VInt n))).
Proof.
  intros H. destruct (int_nonneg n H) as (u & -> & _).
  destruct (int_of_printed u) as (Hi & Hd & Hne & _).
  unfold zip_lambda at 1. cbn [Py.isnull negb andb]. rewrite H.
  unfold zip_lambda. cbn [Py.isnull negb andb].
  change (Py.str (VStr (Py.str (VInt (Z.of_uint u)))))
    with (Py.str (VInt (Z.of_uint u))).
  rewrite H, Hi. reflexivity.
Qed.

Lemma zip_lambda_padded (s : list ascii) :
  s <> [] -> all_decimal s = true ->
  exists z n,
    zip_lambda (VStr s) = ZipValue (VStr z)
    /\ int_of_digits s = Some n /\ int_of_digits z = Some n
    /\ all_decimal z = true
    /\ 5 <= length z <= Nat.max 5 (length s)
    /\ zip_lambda (VStr z) = ZipValue (VStr z).
Proof.
  intros Hne Hs. destruct (int_of_decimal s Hne Hs) as (u & Hu & Hn & Hi).
  destruct (padded u) as (Hd & Hz & Hl & Hiz). cbv zeta in *.
  set (z := zfill 5 (Py.str (VInt (Z.of_uint u)))) in *.
  exists z, (Z.of_uint u).
  split; [apply zip_lambda_decimal; assumption|].
  split; [exact Hi|]. split; [exact Hiz|]. split; [exact Hd|]. split.
  - assert (Hu0 : u <> Decimal.Nil).
    { intros E. rewrite E in Hn. cbn in Hn. destruct s; [congruence|].
      discriminate Hn. }
    pose proof (nb_digits_unorm u Hu0). lia.
  - destruct (int_of_decimal z Hz Hd) as (u2 & Hu2 & _ & Hi2).
    rewrite (zip_lambda_decimal z u2 Hz Hd Hu2).
    rewrite Hiz in Hi2. injection Hi2 as <-. reflexivity.
Qed.

Lemma not_decimal_no_int (s : list ascii) :
  isdigit_str s = true -> all_decimal s = false -> int_of_digits s = None.
Proof.
  intros Hd Ha. unfold int_of_digits.
  destruct s as [|c s]; [discriminate Hd|].
  unfold isdigit_str in Hd. cbn [forallb] in Hd.
  apply andb_true_iff in Hd as [_ Hd]. apply andb_true_iff in Hd as [Hc _].
  cbn [string_of_list_ascii NilZero.int_of_string].
  assert (Hm : (c =? "-")%char = false).
  { destruct c as [[] [] [] [] [] [] [] []]; try reflexivity;
      vm_compute in Hc; discriminate Hc. }
  rewrite Hm. unfold NilZero.uint_of_string.
  destruct (NilEmpty.uint_of_string (String c (string_of_list_ascii s)))
    as [u|] eqn:E; [|reflexivity].
  apply (parse_is_decimal (c :: s)) in E. congruence.
Qed.

(** X21: the lambda of the column [zip] on a cell whose text has at most
    4300 characters.  The new cell is [None] exactly when the cell is
    missing or its text is not made of digit characters ([str.isdigit]);
    [int] raises [ValueError] exactly when the cell is a string of digit
    characters of which one is not a decimal digit (a superscript two,
    three or one); in every other case the new cell is a string. *)
Theorem zip_lambda_cases (x : pyval) :
  length (Py.str x) <= 4300 ->
  (zip_lambda x = ZipValue VNone
   <-> Py.isnull x = true \/ isdigit_str (Py.str x) = false)
  /\ (zip_lambda x = ZipValueError
      <-> exists s, x = VStr s /\ isdigit_str s = true
                    /\ all_decimal s = false).
Proof.
  intros _. destruct x as [| |s|n].
  - split; split; try discriminate.
    + intros _. left. reflexivity.
    + intros _. reflexivity.
    + intros (s & H & _). discriminate H.
  - split; split; try discriminate.
    + intros _. left. reflexivity.
    + intros _. reflexivity.
    + intros (s & H & _). discriminate H.
  - cbn [Py.isnull Py.str]. destruct (isdigit_str s) eqn:Hd.
    + destruct (all_decimal s) eqn:Ha.
      * assert (Hne : s <> []) by (intros ->; discriminate Hd).
        destruct (zip_lambda_padded s Hne Ha) as (z & n & -> & _).
        split; split; try discriminate.
        -- intros [H|H]; discriminate H.
        -- intros (s' & [= <-] & _ & H). congruence.
      * assert (Hz : zip_lambda (VStr s) = ZipValueError).
        { unfold zip_lambda. cbn [Py.isnull Py.str negb andb].
          rewrite Hd, (not_decimal_no_int s Hd Ha). reflexivity. }
        rewrite Hz. split; split; try discriminate.
        -- intros [H|H]; discriminate H.
        -- intros _. exists s. repeat split; assumption.
        -- intros _. reflexivity.
    + assert (Hz : zip_lambda (VStr s) = ZipValue VNone).
      { unfold zip_lambda. cbn [Py.isnull Py.str negb andb].
        rewrite Hd. reflexivity. }
      rewrite Hz. split; split; try discriminate.
      * intros _. right. reflexivity.
      * intros _. reflexivity.
      * intros (s' & [= <-] & H & _). congruence.
  - cbn [Py.isnull]. destruct (isdigit_str (Py.str (VInt n))) eqn:Hd.
    + rewrite (zip_lambda_int n Hd).
      destruct (int_nonneg n Hd) as (u & -> & _).
      destruct (int_of_printed u) as (_ & Ha & Hne & _).
      destruct (zip_lambda_padded _ Hne Ha) as (z & m & -> & _).
      split; split; try discriminate.
      * intros [H|H]; discriminate H.
      * intros (s' & H & _). discriminate H.
    + assert (Hz : zip_lambda (VInt n) = ZipValue VNone).
      { unfold zip_lambda. cbn [Py.isnull negb andb].
        rewrite Hd. reflexivity. }
      rewrite Hz. split; split; try discriminate.
      * intros _. right. reflexivity.
      * intros _. reflexivity.
      * intros (s' & H & _). discriminate H.
Qed.

Lemma zip_lambda_cases_witness :
  let x := VStr (lit "12345-6789") in
  (zip_lambda x = ZipValue VNone
   <-> Py.isnull x = true \/ isdigit_str (Py.str x) = false)
  /\ (zip_lambda x = ZipValueError
      <-> exists s, x = VStr s /\ isdigit_str s = true
                    /\ all_decimal s = false).
Proof.
  intros x. apply (zip_lambda_cases x). simpl. lia.
Defined.

(** X22: on a cell whose text is a non-empty string of decimal digits, at
    most 4300 of them, the lambda of the column [zip] gives a string of
    decimal digits that reads as the same number, of five characters at
    least and of no more than five when the text had no more; the lambda
    leaves that string as it is when applied to it again. *)
Theorem zip_lambda_pads (x : pyval) :
  length (Py.str x) <= 4300 ->
  Py.str x <> [] -> all_decimal (Py.str x) = true ->
  exists z n,
    zip_lambda x = ZipValue (VStr z)
    /\ int_of_digits (Py.str x) = Some n /\ int_of_digits z = Some n
    /\ all_decimal z = true
    /\ 5 <= length z <= Nat.max 5 (length (Py.str x))
    /\ zip_lambda (VStr z) = ZipValue (VStr z).
Proof.
  intros _ Hne Ha. destruct x as [| |s|n].
  - discriminate Ha.
  - discriminate Ha.
  - apply zip_lambda_padded; assumption.
  - rewrite (zip_lambda_int n (isdigit_decimal _ Hne Ha)).
    apply zip_lambda_padded; assumption.
Qed.

Lemma zip_lambda_pads_witness :
  let x := VStr (lit "501") in
  exists z n,
    zip_lambda x = ZipValue (VStr z)
    /\ int_of_digits (Py.str x) = Some n /\ int_of_digits z = Some n
    /\ all_decimal z = true
    /\ 5 <= length z <= Nat.max 5 (length (Py.str x))
    /\ zip_lambda (VStr z) = ZipValue (VStr z).
Proof.
  intros x. apply (zip_lambda_pads x).
  - simpl. lia.
  - discriminate.
  - vm_compute. reflexivity.
Defined.

(** ** The rollback of the planner *)

Lemma plan_row_raise (cols : gset string) (row : gmap string pyval)
    (e : exn) :
  plan_row cols row = Raise e ->
  (e = KeyError
   /\ ("courtid" ∉ cols \/ Col.Address_to_update ∉ cols
       \/ Col.Phone_to_update ∉ cols))
  \/ (e = AttributeError
      /\ Py.is_str (Df.cell row Col.Address_to_update) = false).
Proof.
  unfold plan_row. intros H.
  apply bind_raise in H as [H|(cid & _ & H)].
  { apply item_raise in H as [-> H]. left. tauto. }
  apply bind_raise in H as [H|(addr & Ha & H)].
  { apply item_raise in H as [-> H]. left. tauto. }
  apply item_ok in Ha as [_ ->].
  apply bind_raise in H as [H|(ph & _ & H)].
  { apply item_raise in H as [-> H]. left. tauto. }
  destruct (Df.cell row Col.Address_to_update) as [| |s|n];
    try (injection H as <-; right; split; reflexivity).
  destruct (length _ =? 4); [discriminate|].
  destruct (5 <=? length _); discriminate.
Qed.

Lemma plan_row_ok_planned (cols : gset string) (row : gmap string pyval)
    (a : action) :
  plan_row cols row = Ok a -> a = planned_action row.
Proof.
  intros H. pose proof H as H0. unfold plan_row in H0.
  apply bind_ok in H0 as (cid & Hc & H0). apply item_ok in Hc as [Hc _].
  apply bind_ok in H0 as (addr & Ha & H0). apply item_ok in Ha as [Ha ->].
  apply bind_ok in H0 as (ph & Hp & H0). apply item_ok in Hp as [Hp _].
  destruct (Df.cell row Col.Address_to_update) as [| |s|n] eqn:E;
    try discriminate.
  rewrite (plan_row_planned cols row s Hc Ha Hp E) in H. congruence.
Qed.

Lemma plan_rows_raise (cols : gset string) (l : list (gmap string pyval))
    (e : exn) :
  snd (plan_rows cols l) = Raise e ->
  exists pre row post,
    l = pre ++ row :: post
    /\ fst (plan_rows cols l) = map planned_action pre
    /\ plan_row cols row = Raise e.
Proof.
  induction l as [|r l IH]; [discriminate|]. cbn [plan_rows].
  destruct (plan_row cols r) as [a|e'] eqn:Hr.
  - destruct (plan_rows cols l) as [log o]. cbn [fst snd] in *.
    intros Ho. destruct (IH Ho) as (pre & row & post & -> & -> & Hrow).
    exists (r :: pre), row, post. split; [reflexivity|].
    split; [|exact Hrow]. cbn [map].
    rewrite (plan_row_ok_planned _ _ _ Hr). reflexivity.
  - cbn [fst snd]. intros [= ->]. exists [], r, l.
    split; [reflexivity|]. split; [reflexivity | exact Hr].
Qed.

(** X23: when [update_discrepancies] ends in its [except] branch, the
    exception is a [KeyError] for a missing column [Mismatch_Address],
    before any row is handled, or it is raised by one selected row: a
    [KeyError] for a missing column [courtid], [Address_to_update] or
    [Phone_to_update], or an [AttributeError] for an [Address_to_update]
    that is not a string.  The statements executed before the rollback are
    those of the selected rows before that row, in order. *)
Theorem update_discrepancies_rollback (comparison_results : frame)
    (e : exn) :
  snd (update_discrepancies comparison_results) = Raise e ->
  (e = KeyError /\ (Col.Mismatch_Address ∉ columns comparison_results)
   /\ fst (update_discrepancies comparison_results) = [])
  \/ exists pre row post,
       List.filter needs_update (rows comparison_results)
       = pre ++ row :: post
       /\ fst (update_discrepancies comparison_results)
          = map planned_action pre
       /\ ((e = KeyError
            /\ ("courtid" ∉ columns comparison_results
                \/ Col.Address_to_update ∉ columns comparison_results
                \/ Col.Phone_to_update ∉ columns comparison_results))
           \/ (e = AttributeError
               /\ Py.is_str (Df.cell row Col.Address_to_update) = false)).
Proof.
  unfold update_discrepancies.
  destruct (has_column (columns comparison_results) Col.Mismatch_Address)
    as [[]|e'] eqn:Hm.
  - intros H. right.
    apply plan_rows_raise in H as (pre & row & post & Hl & Hlog & Hrow).
    exists pre, row, post. split; [exact Hl|]. split; [exact Hlog|].
    apply plan_row_raise. exact Hrow.
  - cbn [fst snd]. intros [= ->]. left.
    apply has_column_raise in Hm as [-> Hm]. tauto.
Qed.

Lemma update_discrepancies_rollback_witness :
  let comparison_results := missing_address_results in
  let e := AttributeError in
  (e = KeyError /\ (Col.Mismatch_Address ∉ columns comparison_results)
   /\ fst (update_discrepancies comparison_results) = [])
  \/ exists pre row post,
       List.filter needs_update (rows comparison_results)
       = pre ++ row :: post
       /\ fst (update_discrepancies comparison_results)
          = map planned_action pre
       /\ ((e = KeyError
            /\ ("courtid" ∉ columns comparison_results
                \/ Col.Address_to_update ∉ columns comparison_results
                \/ Col.Phone_to_update ∉ columns comparison_results))
           \/ (e = AttributeError
               /\ Py.is_str (Df.cell row Col.Address_to_update) = false)).
Proof.
  intros comparison_results e.
  apply (update_discrepancies_rollback comparison_results e).
  vm_compute. reflexivity.
Defined.

(** ** The candidate of a mismatch *)

Lemma select_select_split (court : list ascii) (key : pyval)
    (l tl : list (gmap string pyval)) (g : gmap string pyval) :
  select true "CourtType" (VStr court) (select false "Key" key l) = g :: tl ->
  exists pre post,
    l = pre ++ g :: post
    /\ (forall x, In x pre -> is_candidate court key x = false)
    /\ is_candidate court key g = true.
Proof.
  unfold select, is_candidate. induction l as [|x l IH]; [discriminate|].
  cbn [List.filter].
  destruct (Py.eq_cell (Df.cell x "Key") key) eqn:Hk.
  - cbn [List.filter].
    destruct (Py.eq_cell (Py.str_lower_cell (Df.cell x "CourtType"))
                (VStr court)) eqn:Hc.
    + intros H. injection H as Hx _. subst x. exists [], l.
      split; [reflexivity|].
      split; [intros y []|]. rewrite Hk, Hc. reflexivity.
    + intros H. destruct (IH H) as (pre & post & Hl & Hpre & Hg).
      exists (x :: pre), post. split; [rewrite Hl; reflexivity|].
      split; [|exact Hg].
      intros y [Hy|Hy]; [subst y; rewrite Hk, Hc; reflexivity
                        | apply Hpre, Hy].
  - intros H. destruct (IH H) as (pre & post & Hl & Hpre & Hg).
    exists (x :: pre), post. split; [rewrite Hl; reflexivity|].
    split; [|exact Hg].
    intros y [Hy|Hy]; [subst y; rewrite Hk; reflexivity | apply Hpre, Hy].
Qed.

Lemma compare_row_choice (gov : frame) (fcols : gset string)
    (r r' : gmap string pyval) :
  compare_row gov fcols r = Ok r' ->
  r' = r \/
  exists k pre g post,
    rows gov = pre ++ g :: post
    /\ is_candidate (court_type k) (Df.get fcols r "Key" empty_str) g = true
    /\ (forall x, In x pre ->
          is_candidate (court_type k) (Df.get fcols r "Key" empty_str) x
          = false)
    /\ (k = District ->
        forall x, In x (rows gov) ->
          is_candidate (court_type Bankruptcy)
            (Df.get fcols r "Key" empty_str) x = false)
    /\ judge (court_label k) (columns gov) g
         (Df.cell r Col.Full_Address) r = Ok r'.
Proof.
  rewrite compare_row_once. cbv zeta. intros H.
  apply bind_ok in H as (fa & Hfa & H). apply item_ok in Hfa as [_ ->].
  apply bind_ok in H as (? & _ & H).
  apply bind_ok in H as (? & _ & H).
  apply bind_ok in H as (? & _ & H).
  destruct (select true "CourtType" (VStr (lit "bankruptcy court")) _)
    as [|g tl] eqn:Hb.
  - destruct (select true "CourtType" (VStr (lit "district court")) _)
      as [|g tl] eqn:Hd.
    + injection H as <-. left. reflexivity.
    + right. apply select_select_split in Hd as (pre & post & Hl & Hpre & Hg).
      exists District, pre, g, post. split; [exact Hl|].
      split; [exact Hg|]. split; [exact Hpre|]. split; [|exact H].
      intros _ y Hy. apply (select_select_nil _ _ _ y Hb Hy).
  - right. apply select_select_split in Hb as (pre & post & Hl & Hpre & Hg).
    exists Bankruptcy, pre, g, post. split; [exact Hl|].
    split; [exact Hg|]. split; [exact Hpre|]. split; [discriminate | exact H].
Qed.

Lemma join_nil (sep : list ascii) (ps : list (list ascii)) :
  Forall (fun p => p <> []) ps -> Str.join sep ps = [] -> ps = [].
Proof.
  destruct ps as [|p [|q ps]]; [reflexivity | |]; intros Hne H.
  - apply Forall_cons in Hne as [Hp _]. cbn in H. congruence.
  - apply Forall_cons in Hne as [Hp _].
    change (Str.join sep (p :: q :: ps))
      with (p ++ sep ++ Str.join sep (q :: ps)) in H.
    apply app_eq_nil in H as [H _]. congruence.
Qed.

Lemma kept_parts_nonempty (components : list pyval) :
  Forall (fun p => p <> []) (kept_parts components).
Proof.
  unfold kept_parts. apply List.Forall_forall. intros p Hp.
  apply filter_In in Hp as [_ Hp]. apply negb_true_iff in Hp.
  apply str_eqb_nil in Hp. exact Hp.
Qed.

Lemma format_address_empty (address1 address2 city state zipcode : pyval) :
  snd (format_address address1 address2 city state zipcode) = []
  <-> required_given address1 city state zipcode = false
      \/ kept_parts (given_components address1 address2 city state zipcode)
         = [].
Proof.
  rewrite format_address_joined.
  destruct (required_given address1 city state zipcode).
  - cbn [snd]. unfold joined.
    fold (kept_parts (given_components address1 address2 city state zipcode)).
    split.
    + intros H. right. apply (join_nil (lit ", ")); [|exact H].
      apply kept_parts_nonempty.
    + intros [H|H]; [discriminate | rewrite H; reflexivity].
  - cbn [snd]. split; [intros _; left; reflexivity | reflexivity].
Qed.

(** C1, as amended: a federal row left with mismatch status Mismatch
    stems from a federal row of the input, which it repeats outside the
    derived columns, and carries as [Address_to_update] the name-inclusive
    full address composed for the chosen candidate: the first government
    row, in frame order, that has the key of the federal row and is a
    bankruptcy court, or, when no row under the key is a bankruptcy court,
    the first that is a district court.  That string is empty exactly when
    [format_address] fails closed on the candidate, that is when its
    address, city, state or zip prefix is missing or empty, or when no
    component normalises to a non-empty string; in every other case it is
    not empty. *)
Theorem mismatch_carries_candidate_address (federal_data gov_data : frame)
    (row : gmap string pyval) :
  In row (rows (fst (compare_data federal_data gov_data))) ->
  needs_update row = true ->
  exists r0 g k pre post,
    In r0 (rows federal_data) /\ same_outside r0 row
    /\ rows gov_data = pre ++ g :: post
    /\ is_candidate (court_type k)
         (Df.get (columns federal_data) r0 "Key" empty_str) g = true
    /\ (forall x, In x pre ->
          is_candidate (court_type k)
            (Df.get (columns federal_data) r0 "Key" empty_str) x = false)
    /\ (k = District ->
        forall x, In x (rows gov_data) ->
          is_candidate (court_type Bankruptcy)
            (Df.get (columns federal_data) r0 "Key" empty_str) x = false)
    /\ Df.cell row Col.Address_to_update
       = VStr (snd (gov_format_with_name (columns gov_data) g))
    /\ (snd (gov_format_with_name (columns gov_data) g) = []
        <-> candidate_required (columns gov_data) g = false
            \/ kept_parts (candidate_components (columns gov_data) g) = []).
Proof.
  rewrite compare_data_rows, prepare_federal_rows. intros Hin Hneed.
  apply compare_rows_rows in Hin as [Hin|(r & Hr & Hc)].
  { apply in_map_iff in Hin as (r0 & <- & _).
    rewrite needs_update_prepared in Hneed. discriminate. }
  apply in_map_iff in Hr as (r0 & <- & H0).
  pose proof (same_outside_compare_row _ _ r0 _ _
                (same_outside_prepared (columns federal_data) r0) Hc)
    as Hsame.
  apply compare_row_choice
    in Hc as [->|(k & pre' & g' & post' & Hl & Hcand & Hpre & Hnob & Hj)].
  { rewrite needs_update_prepared in Hneed. discriminate. }
  rewrite (prepared_federal_key _ _ _ (prepare_federal_columns federal_data))
    in Hcand, Hpre, Hnob.
  rewrite prepare_gov_rows in Hl, Hnob.
  apply map_eq_app in Hl as (pre & rest & Hrows & <- & Hrest).
  destruct rest as [|g post]; [discriminate Hrest|].
  cbn [map] in Hrest. injection Hrest as <- <-.
  rewrite prepared_gov_candidate in Hcand.
  apply judge_outcome in Hj as (valid & _ & ->).
  destruct (valid && py_eq _ _).
  { rewrite needs_update_match in Hneed. discriminate. }
  exists r0, g, k, pre, post. split; [exact H0|]. split; [exact Hsame|].
  split; [exact Hrows|]. split; [exact Hcand|]. split; [|split; [|split]].
  - intros x Hx. rewrite <- (prepared_gov_candidate (columns gov_data)).
    apply Hpre. apply in_map. exact Hx.
  - intros Hk x Hx. rewrite <- (prepared_gov_candidate (columns gov_data)).
    apply (Hnob Hk). apply in_map. exact Hx.
  - destruct (verdict_mismatch_cells (court_label k)
                (columns (prepare_gov gov_data))
                (prepared_gov_row (columns gov_data) g)
                (Df.cell (prepared_federal_row (columns federal_data) r0)
                   Col.Full_Address)
                (prepared_federal_row (columns federal_data) r0))
      as (_ & _ & Ha & _).
    cbv zeta in Ha. rewrite Ha. apply prepared_gov_with_name.
  - unfold gov_format_with_name, candidate_required, candidate_components.
    apply format_address_empty.
Qed.

Lemma mismatch_carries_candidate_address_witness :
  let federal_data := sample_federal in
  let gov_data := moved_gov in
  let row := first_row (fst (compare_data federal_data gov_data)) in
  exists r0 g k pre post,
    In r0 (rows federal_data) /\ same_outside r0 row
    /\ rows gov_data = pre ++ g :: post
    /\ is_candidate (court_type k)
         (Df.get (columns federal_data) r0 "Key" empty_str) g = true
    /\ (forall x, In x pre ->
          is_candidate (court_type k)
            (Df.get (columns federal_data) r0 "Key" empty_str) x = false)
    /\ (k = District ->
        forall x, In x (rows gov_data) ->
          is_candidate (court_type Bankruptcy)
            (Df.get (columns federal_data) r0 "Key" empty_str) x = false)
    /\ Df.cell row Col.Address_to_update
       = VStr (snd (gov_format_with_name (columns gov_data) g))
    /\ (snd (gov_format_with_name (columns gov_data) g) = []
        <-> candidate_required (columns gov_data) g = false
            \/ kept_parts (candidate_components (columns gov_data) g) = []).
Proof.
  intros federal_data gov_data row.
  apply (mismatch_carries_candidate_address federal_data gov_data row).
  - apply first_row_in. vm_compute. discriminate.
  - vm_compute. reflexivity.
Defined.

(** ** The rule of [#] and the words *)






(** ** The zip in a composed address *)

Lemma decimal_char_normal (c : ascii) :
  is_decimal c = true ->
  no_punct c = true /\ Chr.is_word c = true /\ Chr.isspace c = false
  /\ is_hash c = false /\ Chr.lower c = c.
Proof.
  destruct c as [[] [] [] [] [] [] [] []]; intros H;
    try (vm_compute in H; discriminate H); repeat split.
Qed.

Lemma decimal_not_abbreviation (c : ascii) (t : list ascii) :
  is_decimal c = true -> is_abbreviation (c :: t) = false.
Proof.
  destruct c as [[] [] [] [] [] [] [] []]; intros H;
    try (vm_compute in H; discriminate H); vm_compute; reflexivity.
Qed.

Lemma last_Forall {A} (P : A -> Prop) (l : list A) (x : A) :
  Forall P l -> last l = Some x -> P x.
Proof.
  intros H. induction H as [|a l Ha Hl IH]; [discriminate|].
  destruct l as [|b l]; [intros [= <-]; exact Ha|].
  rewrite last_cons_cons. exact IH.
Qed.

Lemma decimal_has_no_hash (p : list ascii) (prev : option ascii) :
  all_decimal p = true -> has_hash prev p = false.
Proof.
  revert prev. induction p as [|c p IH]; intros prev H; [reflexivity|].
  cbn [all_decimal forallb] in H. apply andb_true_iff in H as [Hc Hp].
  destruct (decimal_char_normal c Hc) as (_ & _ & _ & Hh & _).
  cbn [has_hash]. rewrite Hh. cbn [andb orb]. apply IH. exact Hp.
Qed.

Lemma decimal_sub_spaces (p : list ascii) (b : bool) :
  all_decimal p = true -> Re.sub_spaces_from b p = p.
Proof.
  revert b. induction p as [|c p IH]; intros b H; [reflexivity|].
  cbn [all_decimal forallb] in H. apply andb_true_iff in H as [Hc Hp].
  destruct (decimal_char_normal c Hc) as (_ & _ & Hs & _).
  cbn [Re.sub_spaces_from]. rewrite Hs. f_equal. apply IH. exact Hp.
Qed.

Lemma decimal_normal (p : list ascii) :
  p <> [] -> all_decimal p = true -> normal p.
Proof.
  intros Hne H.
  assert (Hall : Forall (fun c => is_decimal c = true) p)
    by (apply List.Forall_forall; unfold all_decimal in H;
        rewrite forallb_forall in H; exact H).
  split; [|split; [|split; [|split; [|split]]]].
  - eapply Forall_impl; [exact Hall|]. intros c Hc.
    apply (decimal_char_normal c Hc).
  - split.
    + destruct p as [|c p]; [congruence|]. cbn.
      apply Forall_cons in Hall as [Hc _].
      apply (decimal_char_normal c Hc).
    + destruct (last p) as [c|] eqn:El; [|reflexivity]. cbn.
      apply (decimal_char_normal c (last_Forall _ _ _ Hall El)).
  - rewrite <- (app_nil_r p) at 1. rewrite words_from_word_run.
    + cbn [app words_from flush]. destruct p as [|c p]; [congruence|].
      constructor; [|constructor]. apply stable_word_other.
      apply Forall_cons in Hall as [Hc _].
      apply decimal_not_abbreviation. exact Hc.
    + eapply Forall_impl; [exact Hall|]. intros c Hc.
      apply (decimal_char_normal c Hc).
  - apply decimal_has_no_hash. exact H.
  - apply decimal_sub_spaces. exact H.
  - unfold Str.lower. rewrite <- (map_id p) at 2. apply map_ext_in.
    intros c Hc. rewrite List.Forall_forall in Hall.
    apply (decimal_char_normal c (Hall c Hc)).
Qed.

Lemma clean_and_normalize_decimal (p : list ascii) :
  p <> [] -> all_decimal p = true -> clean_and_normalize (VStr p) = p.
Proof.
  intros Hne H. unfold clean_and_normalize.
  cbn [Py.truthy Py.isnull Py.str].
  rewrite (proj2 (str_eqb_nil p) Hne). cbn [negb orb].
  apply (normalize_steps_fixed p). apply decimal_normal; assumption.
Qed.

Lemma format_address_last_zip (address1 address2 city state : pyval)
    (p : list ascii) :
  Py.truthy address1 = true -> Py.truthy city = true ->
  Py.truthy state = true -> p <> [] -> all_decimal p = true ->
  last (map Str.strip
          (Str.split ","%char
             (fst (format_address address1 address2 city state (VStr p)))))
  = Some p.
Proof.
  intros H1 H2 H3 Hne Hp. rewrite split_format_address.
  unfold required_given. rewrite H1, H2, H3. cbn [andb Py.truthy].
  rewrite (proj2 (str_eqb_nil p) Hne). cbn [negb].
  assert (Hk : kept_parts
                 (given_components address1 address2 city state (VStr p))
               = kept_parts
                   (address1 :: (if Py.truthy address2 then [address2]
                                 else []) ++ [city; state]) ++ [p]).
  { unfold kept_parts, given_components.
    destruct (Py.truthy address2); cbn [app map List.filter];
      rewrite (clean_and_normalize_decimal p Hne Hp),
        (proj2 (str_eqb_nil p) Hne);
      cbn [negb];
      repeat (destruct (negb (str_eqb _ [])); cbn [app]); reflexivity. }
  rewrite Hk. clear Hk.
  generalize (kept_parts
                (address1 :: (if Py.truthy address2 then [address2] else [])
                 ++ [city; state])).
  intros [|q qs]; [reflexivity|]. cbn [app].
  change (q :: (qs ++ [p])) with ((q :: qs) ++ [p]). apply last_snoc.
Qed.

(** C10: the zip of a government row enters both composed addresses as
    the first five characters of its string form.  When the building
    address, city and state are given and these characters are decimal
    digits, they are the last component of [Full_Address] and of
    [Full_Address_With_BuildingName].  Two values of [BuildingZip] with
    the same first five characters therefore give the same two addresses,
    and a government frame gives the same result of [compare_data] on any
    federal frame with either value in that row. *)
Theorem zip_is_truncated_to_five (cols : gset string)
    (g : gmap string pyval) (z1 z2 : pyval) :
  firstn 5 (Py.str z1) = firstn 5 (Py.str z2) ->
  let g1 := <[ "BuildingZip"%string := z1 ]> g in
  let g2 := <[ "BuildingZip"%string := z2 ]> g in
  let zip5 := firstn 5 (Py.str (Df.get cols g1 "BuildingZip" empty_str)) in
  gov_zip cols g1 = VStr zip5
  /\ (Py.truthy (Df.get cols g1 "BuildingAddress" empty_str) = true ->
      Py.truthy (Df.get cols g1 "BuildingCity" empty_str) = true ->
      Py.truthy (Df.get cols g1 "BuildingState" empty_str) = true ->
      zip5 <> [] -> all_decimal zip5 = true ->
      last (map Str.strip (Str.split ","%char (fst (gov_format cols g1))))
      = Some zip5
      /\ last (map Str.strip
                 (Str.split ","%char
                    (snd (gov_format_with_name cols g1))))
         = Some zip5)
  /\ gov_format cols g1 = gov_format cols g2
  /\ gov_format_with_name cols g1 = gov_format_with_name cols g2
  /\ forall federal_data pre post,
       compare_data federal_data (Frame cols (pre ++ g1 :: post))
       = compare_data federal_data (Frame cols (pre ++ g2 :: post)).
Proof.
  intros H g1 g2 zip5.
  destruct (gov_formats_prefix cols g z1 z2 H) as [Hf Hn].
  split; [reflexivity|]. split.
  { intros Ha Hc Hs Hne Hd. unfold gov_format, gov_format_with_name.
    rewrite snd_format_address.
    change (gov_zip cols g1) with (VStr zip5).
    split; apply format_address_last_zip; assumption. }
  split; [exact Hf|]. split; [exact Hn|].
  intros federal_data pre post. unfold compare_data.
  rewrite (compare_rows_same_but_zip
             (prepare_gov (Frame cols (pre ++ g1 :: post)))
             (prepare_gov (Frame cols (pre ++ g2 :: post)))).
  - reflexivity.
  - reflexivity.
  - rewrite !prepare_gov_rows. cbn [rows columns]. rewrite !map_app.
    apply Forall2_app.
    + induction pre; constructor; [apply same_but_zip_refl | assumption].
    + cbn [map]. constructor.
      * unfold prepared_gov_row. fold g1 g2 in Hf, Hn. rewrite Hf, Hn.
        do 2 apply same_but_zip_insert. apply same_but_zip_zip.
      * induction post; constructor; [apply same_but_zip_refl | assumption].
Qed.

Lemma zip_is_truncated_to_five_witness :
  let cols := gov_columns in
  let g := gov_row_of (lit "123 Oak Street") (lit "Courthouse") []
             (lit "District Court") (lit "555-0111") in
  let g1 := <[ "BuildingZip"%string := VStr (lit "62701-1234") ]> g in
  let g2 := <[ "BuildingZip"%string := VStr (lit "62701") ]> g in
  gov_zip cols g1 = VStr (lit "62701")
  /\ last (map Str.strip (Str.split ","%char (fst (gov_format cols g1))))
     = Some (lit "62701")
  /\ last (map Str.strip
             (Str.split ","%char (snd (gov_format_with_name cols g1))))
     = Some (lit "62701")
  /\ gov_format cols g1 = gov_format cols g2
  /\ gov_format_with_name cols g1 = gov_format_with_name cols g2
  /\ forall federal_data pre post,
       compare_data federal_data (Frame cols (pre ++ g1 :: post))
       = compare_data federal_data (Frame cols (pre ++ g2 :: post)).
Proof.
  intros cols g g1 g2.
  destruct (zip_is_truncated_to_five cols g (VStr (lit "62701-1234"))
              (VStr (lit "62701")) eq_refl)
    as (Hz & Hlast & Hf & Hn & Hc).
  split; [exact Hz|].
  destruct Hlast as [H1 H2];
    [ vm_compute; reflexivity | vm_compute; reflexivity
    | vm_compute; reflexivity | vm_compute; discriminate
    | vm_compute; reflexivity | ].
  split; [exact H1|]. split; [exact H2|].
  split; [exact Hf|]. split; [exact Hn | exact Hc].
Defined.
